(** * Credit-card statement parser: a shallow embedding and its properties

    The development follows the layout of the Python package:
    - [parser/utils/normalize.py]  : [normalize_currency], [normalize_date],
      [extract_card_last4], [calculate_confidence];
    - [parser/utils/ocr.py]        : [extract_text_with_ocr_fallback];
    - [parser/issuer_parsers/*.py] : the five issuer parsers;
    - [parser/dispatcher.py]       : [parse_pdf];
    - [parser/detect_issuer.py]    : [detect_issuer].

    Python strings are lists of Unicode code points, dictionaries are finite
    maps with string keys, exceptions are the [Raise] branch of a result
    type, and the [re] module is a backtracking matcher over the fragment of
    the pattern language the package uses. *)

From Stdlib Require Import ZArith NArith QArith Qround Qpower Lia List String Ascii Bool.
From stdpp Require Import gmap strings list fin_maps.

#[local] Set Warnings "-register-all".
#[local] Open Scope N_scope.

(** ** Python strings *)

(** A Python [str] is a sequence of code points. *)
Abbreviation pystr := (list N).

(** An ASCII literal of the source, as code points. *)
Definition str (s : string) : pystr :=
  map N_of_ascii (list_ascii_of_string s).

(** Code points the source names outside ASCII. *)
Definition RUPEE : N := 8377.        (* U+20B9 *)
Definition EURO : N := 8364.         (* U+20AC *)
Definition POUND : N := 163.         (* U+00A3 *)
Definition BULLET : N := 8226.       (* U+2022 *)
Definition EN_DASH : N := 8211.      (* U+2013 *)

(** ** Exceptions and results *)

(** The exception classes that occur; all of them derive from [Exception]. *)
Inductive exn :=
| ValueError
| TypeError
| AttributeError
| OverflowError
| OtherException (name : string).

Inductive result (A : Type) :=
| Ok (a : A)
| Raise (e : exn).
Arguments Ok {A} a.
Arguments Raise {A} e.

#[global] Instance result_ret : MRet result := fun A a => Ok a.
#[global] Instance result_bind : MBind result := fun A B f m =>
  match m with
  | Ok a => f a
  | Raise e => Raise e
  end.

(** [try: body  except classes: handler] *)
Definition try_except {A} (body : result A) (catches : exn -> bool)
    (handler : exn -> result A) : result A :=
  match body with
  | Ok a => Ok a
  | Raise e => if catches e then handler e else Raise e
  end.

(** [except Exception] *)
Definition any_Exception (e : exn) : bool := true.

(** [except (ValueError, TypeError)] *)
Definition ValueError_or_TypeError (e : exn) : bool :=
  match e with ValueError | TypeError => true | _ => false end.

(** [except (ValueError, TypeError, AttributeError)] *)
Definition ValueError_TypeError_AttributeError (e : exn) : bool :=
  match e with ValueError | TypeError | AttributeError => true | _ => false end.

(** ** Python values *)

(** A [float].  A finite float is represented by the rational it stands
    for; rounding to binary64 inside the finite range is not modelled, the
    range itself is (see [DBL_OVERFLOW]). *)
Inductive pyfloat :=
| Fin (q : Q)
| Inf (negative : bool)
| NaN.

Inductive pyval :=
| PNone
| PStr (s : pystr)
| PFloat (f : pyfloat)
| PDict (d : gmap string pyval).

(** A [datetime]; only the calendar fields are read by the package. *)
Record datetime := DateTime { dt_year : N; dt_month : N; dt_day : N }.

(** ** The Python runtime outside the repository

    The Unicode character database beyond ASCII, the PDF and OCR libraries
    and [dateutil.parser.parse] are not part of the package.  Their ASCII
    part is written out below; the rest is a parameter of every
    definition. *)
Record runtime := Runtime {
  (** decimal value of a non-ASCII code point of category Nd *)
  uni_decimal : N -> option N;
  (** [str.isspace] beyond ASCII *)
  uni_space : N -> bool;
  (** [str.isalnum] beyond ASCII *)
  uni_alnum : N -> bool;
  (** [str.lower] of a non-ASCII code point *)
  uni_lower : N -> pystr;
  (** the case-insensitive class of a non-ASCII code point under
      [re.IGNORECASE] *)
  uni_casefold : N -> N;
  (** [pdfplumber.open(path)] and [page.extract_text()] of every page *)
  pdf_text_layer : pystr -> result (list (option pystr));
  (** [pdfplumber.open(path)], then per page [to_image] and
      [pytesseract.image_to_string] *)
  pdf_ocr : pystr -> result (list (result pystr));
  (** [dateutil.parser.parse(s, dayfirst=.., yearfirst=..)] *)
  dateutil_parse : pystr -> bool -> bool -> result datetime
}.

Section PythonStrings.
Context (R : runtime).

Definition is_ascii (c : N) : bool := c <? 128.

Definition ascii_digit (c : N) : bool := (48 <=? c) && (c <=? 57).

Definition ascii_space (c : N) : bool :=
  ((9 <=? c) && (c <=? 13)) || ((28 <=? c) && (c <=? 32)).

Definition ascii_upper (c : N) : bool := (65 <=? c) && (c <=? 90).

Definition ascii_alpha (c : N) : bool :=
  ascii_upper c || ((97 <=? c) && (c <=? 122)).

Definition ascii_lower (c : N) : N := if ascii_upper c then c + 32 else c.

(** decimal value of a decimal digit, [None] for other characters *)
Definition digit_value (c : N) : option N :=
  if is_ascii c then (if ascii_digit c then Some (c - 48) else None)
  else uni_decimal R c.

(** [\d] *)
Definition is_digit (c : N) : bool :=
  match digit_value c with Some _ => true | None => false end.

(** [\s], [str.isspace] *)
Definition is_space (c : N) : bool :=
  if is_ascii c then ascii_space c else uni_space R c.

(** [\w] *)
Definition is_word (c : N) : bool :=
  if is_ascii c then ascii_alpha c || ascii_digit c || (c =? 95)
  else uni_alnum R c.

(** [s.lower()], character by character *)
Definition lower_char (c : N) : pystr :=
  if is_ascii c then [ascii_lower c] else uni_lower R c.

Definition lower (s : pystr) : pystr := flat_map lower_char s.

(** canonical representative of a character under [re.IGNORECASE] *)
Definition casefold (c : N) : N :=
  if is_ascii c then ascii_lower c else uni_casefold R c.

Fixpoint lstrip (s : pystr) : pystr :=
  match s with
  | c :: s' => if is_space c then lstrip s' else s
  | [] => []
  end.

(** [s.strip()] *)
Definition strip (s : pystr) : pystr := rev (lstrip (rev (lstrip s))).

Fixpoint starts_with (p s : pystr) : bool :=
  match p, s with
  | [], _ => true
  | a :: p', b :: s' => (a =? b) && starts_with p' s'
  | _ :: _, [] => false
  end.

(** [needle in hay] *)
Fixpoint contains (needle hay : pystr) : bool :=
  starts_with needle hay ||
  match hay with
  | [] => false
  | _ :: hay' => contains needle hay'
  end.

(** splitting at every separator character; [cur] is the field being read *)
Fixpoint split_acc (sep : N -> bool) (cur : pystr) (s : pystr) : list pystr :=
  match s with
  | [] => [rev cur]
  | c :: s' => if sep c then rev cur :: split_acc sep [] s'
               else split_acc sep (c :: cur) s'
  end.

(** [s.split('\n')] *)
Definition split_lines (s : pystr) : list pystr := split_acc (N.eqb 10) [] s.

(** ["\n".join(parts)] *)
Fixpoint join_lines (parts : list pystr) : pystr :=
  match parts with
  | [] => []
  | [p] => p
  | p :: rest => p ++ 10 :: join_lines rest
  end.

(** [s[start:end]] for [0 <= start], [end <= len(s)] *)
Definition slice (s : pystr) (start stop : nat) : pystr :=
  take (stop - start) (drop start s).

End PythonStrings.

(** ** The [re] module

    The patterns of the package use literals, bracket classes, the
    categories [\d], [\s], [\w] and [.], repetition of a single character
    class (greedy or lazy), optional groups, alternation, capturing groups,
    [\b] and a negative look-ahead on one character.  The matcher below is a
    backtracking matcher with the priorities of [re]: alternatives left to
    right, greedy repetition longest first, lazy repetition shortest
    first. *)

(** What one pattern position accepts. *)
Inductive cset :=
| CLit (c : N)
| CDigit
| CSpace
| CWord
| CDot
| COr (a b : cset).

Inductive regex :=
| REps
| RSet (s : cset)
| RSeq (a b : regex)
| RAlt (a b : regex)
| RStar (greedy : bool) (s : cset)
| RGroup (n : nat) (a : regex)
| RNotAhead (s : cset)
| RWordB.

(** The state of a match attempt: position in the subject, the character
    before it, the remaining subject, the groups captured so far. *)
Record mstate := MState {
  m_pos : nat;
  m_prev : option N;
  m_rest : pystr;
  m_caps : gmap nat pystr
}.

(** A match object: [start()], [end()] and the captured groups. *)
Record rematch := ReMatch {
  m_start : nat;
  m_end : nat;
  m_groups : gmap nat pystr
}.

(** [match.group(n)]: [None] when the group took no part in the match. *)
Definition group (m : rematch) (n : nat) : option pystr := m_groups m !! n.

Definition set_cap (n : nat) (w : pystr) (st : mstate) : mstate :=
  MState (m_pos st) (m_prev st) (m_rest st) (<[n := w]> (m_caps st)).

Section Matcher.
Context (R : runtime).
(** [re.IGNORECASE] *)
Context (ignorecase : bool).

(** Under [re.IGNORECASE] a literal letter accepts every character of its
    case-insensitive class; a literal without case accepts itself only (the
    non-ASCII literals of the package are symbols, which have no case). *)
Fixpoint cset_in (s : cset) (x : N) : bool :=
  match s with
  | CLit c =>
      if ignorecase && ascii_alpha c then casefold R x =? ascii_lower c
      else x =? c
  | CDigit => is_digit R x
  | CSpace => is_space R x
  | CWord => is_word R x
  | CDot => negb (x =? 10)
  | COr a b => cset_in a x || cset_in b x
  end.

Definition word_at (c : option N) : bool :=
  match c with Some x => is_word R x | None => false end.

Fixpoint star_loop (greedy : bool) (s : cset) (k : mstate -> option mstate)
    (pos : nat) (prev : option N) (caps : gmap nat pystr) (rest : pystr)
    : option mstate :=
  match rest with
  | x :: rest' =>
      if cset_in s x then
        if greedy then
          match star_loop greedy s k (S pos) (Some x) caps rest' with
          | Some m => Some m
          | None => k (MState pos prev rest caps)
          end
        else
          match k (MState pos prev rest caps) with
          | Some m => Some m
          | None => star_loop greedy s k (S pos) (Some x) caps rest'
          end
      else k (MState pos prev rest caps)
  | [] => k (MState pos prev rest caps)
  end.

(** [rmatch r k st]: match [r] at [st], then continue with [k]; the first
    success in priority order is the result. *)
Fixpoint rmatch (r : regex) (k : mstate -> option mstate) (st : mstate)
    : option mstate :=
  match r with
  | REps => k st
  | RSet s =>
      match m_rest st with
      | x :: rest' =>
          if cset_in s x
          then k (MState (S (m_pos st)) (Some x) rest' (m_caps st))
          else None
      | [] => None
      end
  | RSeq a b => rmatch a (rmatch b k) st
  | RAlt a b =>
      match rmatch a k st with
      | Some m => Some m
      | None => rmatch b k st
      end
  | RStar greedy s =>
      star_loop greedy s k (m_pos st) (m_prev st) (m_caps st) (m_rest st)
  | RGroup n a =>
      rmatch a
        (fun st' => k (set_cap n (take (m_pos st' - m_pos st) (m_rest st)) st'))
        st
  | RNotAhead s =>
      match m_rest st with
      | x :: _ => if cset_in s x then None else k st
      | [] => k st
      end
  | RWordB =>
      if xorb (word_at (m_prev st)) (word_at (head (m_rest st)))
      then k st else None
  end.

Definition match_here (r : regex) (pos : nat) (prev : option N) (rest : pystr)
    : option rematch :=
  match rmatch r Some (MState pos prev rest ∅) with
  | Some st => Some (ReMatch pos (m_pos st) (m_caps st))
  | None => None
  end.

Fixpoint search_from (r : regex) (pos : nat) (prev : option N) (rest : pystr)
    : option rematch :=
  match match_here r pos prev rest with
  | Some m => Some m
  | None =>
      match rest with
      | [] => None
      | c :: rest' => search_from r (S pos) (Some c) rest'
      end
  end.

(** [re.search(r, s)]: the match at the leftmost position that has one. *)
Definition re_search (r : regex) (s : pystr) : option rematch :=
  search_from r 0 None s.

(** [re.finditer(r, s)]: the successive non-overlapping matches.  [skip]
    counts the characters of the previous match still to be stepped over.
    (None of the patterns given to [finditer] matches the empty string.) *)
Fixpoint finditer_from (r : regex) (skip : nat) (pos : nat) (prev : option N)
    (rest : pystr) : list rematch :=
  match skip with
  | S skip' =>
      match rest with
      | [] => []
      | c :: rest' => finditer_from r skip' (S pos) (Some c) rest'
      end
  | O =>
      match match_here r pos prev rest with
      | Some m =>
          m :: match rest with
               | [] => []
               | c :: rest' =>
                   finditer_from r (m_end m - pos - 1) (S pos) (Some c) rest'
               end
      | None =>
          match rest with
          | [] => []
          | c :: rest' => finditer_from r 0 (S pos) (Some c) rest'
          end
      end
  end.

Definition re_finditer (r : regex) (s : pystr) : list rematch :=
  finditer_from r 0 0 None s.

(** [re.sub(r'[class]', '', s)]: delete every character of the class. *)
Definition re_sub_delete (s : cset) (subject : pystr) : pystr :=
  List.filter (fun x => negb (cset_in s x)) subject.

End Matcher.

(** *** Pattern syntax *)

Definition ch (a : ascii) : N := N_of_ascii a.

Fixpoint seq_of (rs : list regex) : regex :=
  match rs with
  | [] => REps
  | [r] => r
  | r :: rs' => RSeq r (seq_of rs')
  end.

(** a literal word *)
Definition lit (s : string) : regex :=
  seq_of (map (fun a => RSet (CLit (N_of_ascii a))) (list_ascii_of_string s)).

(** [c*], [c+], [c*?] *)
Definition star (s : cset) : regex := RStar true s.
Definition plus (s : cset) : regex := RSeq (RSet s) (RStar true s).
Definition lazy_star (s : cset) : regex := RStar false s.

(** [(?:r)?] *)
Definition opt (r : regex) : regex := RAlt r REps.

(** [c{n}] *)
Fixpoint rep (n : nat) (s : cset) : regex :=
  match n with
  | O => REps
  | S n' => RSeq (RSet s) (rep n' s)
  end.

(** at most [n] more, greedy *)
Fixpoint upto (n : nat) (s : cset) : regex :=
  match n with
  | O => REps
  | S n' => opt (RSeq (RSet s) (upto n' s))
  end.

(** [c{lo,hi}] *)
Definition rep_range (lo hi : nat) (s : cset) : regex :=
  RSeq (rep lo s) (upto (hi - lo) s).

(** a bracket class *)
Fixpoint cls (members : list cset) : cset :=
  match members with
  | [] => CLit 1114112    (* no code point *)
  | [m] => m
  | m :: ms => COr m (cls ms)
  end.

(** ** Numbers: [int(s)], [float(s)], [float(n)], [round(x, 2)] *)

(** Magnitudes at or above this bound have no finite binary64: they round
    to 2^1024.  [float] of a string gives an infinity there, [float] of an
    integer raises [OverflowError]. *)
Definition DBL_OVERFLOW : Q := inject_Z (2 ^ 1024 - 2 ^ 970).

(** the float of sign [negative] and magnitude [q >= 0] *)
Definition float_of_magnitude (negative : bool) (q : Q) : pyfloat :=
  if Qle_bool DBL_OVERFLOW q then Inf negative
  else Fin (Qred (if negative then - q else q)).

(** [float(n)] for an [int] *)
Definition float_of_int (z : Z) : result pyfloat :=
  if Qle_bool DBL_OVERFLOW (inject_Z (Z.abs z)) then Raise OverflowError
  else Ok (Fin (inject_Z z)).

(** what a numeral denotes before its sign: [m * 10^e], an infinity or nan *)
Inductive magnitude :=
| MFin (m : N) (e : Z)
| MInf
| MNaN.

Definition decimal_of (ds : list N) : N :=
  fold_left (fun acc d => 10 * acc + d) ds 0.

(** [round(x, 2)]: the multiple of 1/100 nearest to [x], ties to even *)
Definition py_round2 (x : Q) : Q :=
  let y := (x * 100)%Q in
  let n := Qfloor y in
  let frac := (y - inject_Z n)%Q in
  let up :=
    match (frac ?= 1 # 2)%Q with
    | Lt => false
    | Gt => true
    | Eq => Z.odd n
    end in
  Qred ((if up then n + 1 else n)%Z # 100).

Section Numbers.
Context (R : runtime).

(** [(["_"] digit)*]: the digits after the first one of a digit part *)
Fixpoint digitpart_tail (s : pystr) : list N * pystr :=
  match s with
  | c :: s' =>
      match digit_value R c with
      | Some d => let '(ds, r) := digitpart_tail s' in (d :: ds, r)
      | None =>
          if c =? 95 then
            match s' with
            | c2 :: s'' =>
                match digit_value R c2 with
                | Some d => let '(ds, r) := digitpart_tail s'' in (d :: ds, r)
                | None => ([], s)
                end
            | [] => ([], s)
            end
          else ([], s)
      end
  | [] => ([], [])
  end.

(** [digitpart ::= digit (["_"] digit)*]: its digit values and the rest *)
Definition digitpart (s : pystr) : option (list N * pystr) :=
  match s with
  | c :: s' =>
      match digit_value R c with
      | Some d => let '(ds, r) := digitpart_tail s' in Some (d :: ds, r)
      | None => None
      end
  | [] => None
  end.

(** an optional sign: whether it is a minus, and the rest *)
Definition split_sign (s : pystr) : bool * pystr :=
  match s with
  | c :: s' =>
      if c =? 45 then (true, s') else if c =? 43 then (false, s') else (false, s)
  | [] => (false, [])
  end.

(** [int(s)], base 10 *)
Definition py_int (s : pystr) : result Z :=
  let '(negative, body) := split_sign (strip R s) in
  match digitpart body with
  | Some (ds, []) =>
      let n := Z.of_N (decimal_of ds) in
      Ok (if negative then (- n)%Z else n)
  | _ => Raise ValueError
  end.

(** [exponent ::= ("e" | "E") [sign] digitpart], after its letter *)
Definition parse_exponent (s : pystr) : option Z :=
  let '(negative, body) := split_sign s in
  match digitpart body with
  | Some (ds, []) =>
      let n := Z.of_N (decimal_of ds) in
      Some (if negative then (- n)%Z else n)
  | _ => None
  end.

(** the end of a number: nothing, or an exponent *)
Definition finish_number (ds : list N) (nfrac : nat) (rest : pystr)
    : option magnitude :=
  match rest with
  | [] => Some (MFin (decimal_of ds) (- Z.of_nat nfrac))
  | c :: r =>
      if (c =? 101) || (c =? 69) then
        match parse_exponent r with
        | Some x => Some (MFin (decimal_of ds) (x - Z.of_nat nfrac))
        | None => None
        end
      else None
  end.

(** [number ::= [digitpart] "." digitpart | digitpart ["."]], then an
    optional exponent *)
Definition parse_number (s : pystr) : option magnitude :=
  match digitpart s with
  | Some (ip, r) =>
      match r with
      | c :: r' =>
          if c =? 46 then
            match digitpart r' with
            | Some (fp, r'') => finish_number (ip ++ fp) (length fp) r''
            | None => finish_number ip 0 r'
            end
          else finish_number ip 0 r
      | [] => finish_number ip 0 r
      end
  | None =>
      match s with
      | c :: r' =>
          if c =? 46 then
            match digitpart r' with
            | Some (fp, r'') => finish_number fp (length fp) r''
            | None => None
            end
          else None
      | [] => None
      end
  end.

Definition parse_magnitude (s : pystr) : option magnitude :=
  let l := map ascii_lower s in
  if bool_decide (l = str "inf") || bool_decide (l = str "infinity") then Some MInf
  else if bool_decide (l = str "nan") then Some MNaN
  else parse_number s.

(** [float(s)] for a [str] *)
Definition py_float (s : pystr) : result pyfloat :=
  let '(negative, body) := split_sign (strip R s) in
  match parse_magnitude body with
  | Some (MFin m e) =>
      Ok (float_of_magnitude negative (inject_Z (Z.of_N m) * Qpower 10 e)%Q)
  | Some MInf => Ok (Inf negative)
  | Some MNaN => Ok NaN
  | None => Raise ValueError
  end.

End Numbers.

(** ** [parser/utils/normalize.py] *)

(** [value] of [normalize_currency]: ["String or numeric value"], or [None] *)
Inductive currency_arg :=
| ArgNone
| ArgInt (z : Z)
| ArgFloat (f : pyfloat)
| ArgStr (s : pystr).

(** [[₹$€£,\s]] *)
Definition currency_symbols : cset :=
  cls [CLit RUPEE; CLit (ch "$"); CLit EURO; CLit POUND; CLit (ch ","); CSpace].

(** [strftime('%Y-%m-%d')] writes fixed-width decimal fields: four digits
    for the year (on every platform for the years from 1000 on), two for
    the month and the day. *)
Fixpoint fixed_width (width : nat) (n : N) : pystr :=
  match width with
  | O => []
  | S w => fixed_width w (n / 10) ++ [48 + n mod 10]
  end.

Definition strftime_Ymd (d : datetime) : pystr :=
  fixed_width 4 (dt_year d) ++ ch "-" :: fixed_width 2 (dt_month d)
    ++ ch "-" :: fixed_width 2 (dt_day d).

(** [1900 <= year_val <= 2099] *)
Definition is_year (z : Z) : bool := ((1900 <=? z) && (z <=? 2099))%Z.

(** [not s] for a string *)
Definition is_empty (s : pystr) : bool :=
  match s with [] => true | _ :: _ => false end.

(** [not x] for a string or [None] *)
Definition falsy (x : option pystr) : bool :=
  match x with None => true | Some s => is_empty s end.

Fixpoint first_some {A B} (f : A -> option B) (l : list A) : option B :=
  match l with
  | [] => None
  | a :: l' => match f a with Some b => Some b | None => first_some f l' end
  end.

(** [(?:XXXX|[*•]{4}|[\d]{4})] *)
Definition mask_block : regex :=
  RAlt (lit "XXXX")
    (RAlt (rep 4 (cls [CLit (ch "*"); CLit BULLET])) (rep 4 (cls [CDigit]))).

(** the gap after a block: [\s*], a run of [-], [*] and spaces, [\s*] *)
Definition mask_gap : regex :=
  seq_of [star CSpace; star (cls [CLit (ch "-"); CLit (ch "*"); CSpace]); star CSpace].

(** [masked_pattern]: three blocks, each followed by a gap, then [(\d{4})] *)
Definition masked_pattern : regex :=
  seq_of [mask_block; mask_gap; mask_block; mask_gap; mask_block; mask_gap;
          RGroup 1 (rep 4 CDigit)].

(** [[:\s]] *)
Definition colon_space : cset := cls [CLit (ch ":"); CSpace].

(** [rf'{keyword}[:\s]+(?:.*?)?(\d{{4}})(?!\d)'].  The keywords of the
    package are plain words, which a pattern reads as literals.  A keyword
    with pattern syntax of its own is outside this model: what is stated
    for every keyword list assumes [plain_keywords]. *)
Definition keyword_pattern (keyword : string) : regex :=
  seq_of [lit keyword; plus colon_space; opt (lazy_star CDot);
          RGroup 1 (rep 4 CDigit); RNotAhead CDigit].

(** [(\d{4})(?!\d)] *)
Definition four_digits_pattern : regex :=
  seq_of [RGroup 1 (rep 4 CDigit); RNotAhead CDigit].

Definition default_context_keywords : list string :=
  ["Card"; "Account"; "XXXX"; "Ending"; "Number"]%string.

Section Normalize.
Context (R : runtime).

(** [match.group(n)] where the source reads it as a string.  The patterns
    of the package capture the groups that are read on each path to a match
    (see [match_here_group]). *)
Definition group_text (m : rematch) (n : nat) : pystr := default [] (group m n).

Definition normalize_currency (value : currency_arg) : result (option pyfloat) :=
  match value with
  | ArgNone => Ok None
  | ArgInt z =>
      try_except (f ← float_of_int z; Ok (Some f))
        ValueError_or_TypeError (fun _ => Ok None)
  | ArgFloat f =>
      try_except (Ok (Some f)) ValueError_or_TypeError (fun _ => Ok None)
  | ArgStr s =>
      try_except
        (let cleaned := re_sub_delete R false currency_symbols s in
         if is_empty cleaned then Ok None
         else f ← py_float R cleaned; Ok (Some f))
        ValueError_or_TypeError (fun _ => Ok None)
  end.

Definition normalize_date (date_str : option pystr) : result (option pystr) :=
  match date_str with
  | None => Ok None
  | Some s =>
      try_except
        (let date_str := strip R s in
         if is_empty date_str then Ok None
         else
           parsed_date ← dateutil_parse R date_str true false;
           Ok (Some (strftime_Ymd parsed_date)))
        ValueError_TypeError_AttributeError (fun _ => Ok None)
  end.

(** Pattern 1 of [extract_card_last4]; [Some] is a [return]. *)
Definition last4_masked (text : pystr) : option pystr :=
  match re_search R true masked_pattern text with
  | Some m =>
      let last4 := group_text m 1 in
      match py_int R last4 with
      | Ok year_val => if negb (is_year year_val) then Some last4 else None
      | Raise _ => Some last4
      end
  | None => None
  end.

(** the body of the loop over [reversed(matches)] in pattern 2 *)
Definition last4_near_keyword (text : pystr) (m : rematch) : option pystr :=
  let last4 := group_text m 1 in
  match py_int R last4 with
  | Ok year_val =>
      if negb (is_year year_val) then
        let start := (m_start m - 50)%nat in
        let stop := Nat.min (length text) (m_end m + 50) in
        let context := slice text start stop in
        if existsb (fun kw => contains (lower R (str kw)) (lower R context))
             ["card"; "account"; "number"; "ending"; "xxxx"]%string
        then Some last4 else None
      else None
  | Raise _ => None
  end.

(** Pattern 2: for each keyword, its matches from the last to the first *)
Definition last4_keywords (text : pystr) (context_keywords : list string)
    : option pystr :=
  first_some
    (fun keyword =>
       first_some (last4_near_keyword text)
         (rev (re_finditer R true (keyword_pattern keyword) text)))
    context_keywords.

(** the body of the loop over the lines in pattern 3 *)
Definition last4_in_line (line : pystr) : option pystr :=
  if existsb (fun kw => contains (lower R (str kw)) (lower R line))
       ["account"; "card"; "number"]%string
  then
    match re_search R false four_digits_pattern line with
    | Some m =>
        let last4 := group_text m 1 in
        match py_int R last4 with
        | Ok year_val => if negb (is_year year_val) then Some last4 else None
        | Raise _ => None
        end
    | None => None
    end
  else None.

Definition extract_card_last4 (text : pystr)
    (context_keywords : option (list string)) : option pystr :=
  if is_empty text then None
  else
    let context_keywords := default default_context_keywords context_keywords in
    match last4_masked text with
    | Some last4 => Some last4
    | None =>
        match last4_keywords text context_keywords with
        | Some last4 => Some last4
        | None => first_some last4_in_line (split_lines text)
        end
    end.

(** Truth value of a Python object. *)
Definition truthy (v : pyval) : bool :=
  match v with
  | PNone => false
  | PStr s => negb (is_empty s)
  | PFloat (Fin q) => negb (Qeq_bool q 0)
  | PFloat _ => true
  | PDict d => negb (bool_decide (d = ∅))
  end.

(** [data.get(key)] *)
Definition dict_get (data : gmap string pyval) (key : string) : pyval :=
  default PNone (data !! key).

Definition is_not_None (v : pyval) : bool :=
  match v with PNone => false | _ => true end.

Definition required_fields : list string :=
  ["card_last4"; "billing_period"; "payment_due_date"; "new_balance"]%string.

Definition optional_fields : list string := ["minimum_due"]%string.

(** what one pass of the loop over [required_fields] adds to [score] *)
Definition required_points (data : gmap string pyval) (field : string) : Q :=
  if String.eqb field "billing_period" then
    match dict_get data field with
    | PDict period =>
        if truthy (PDict period) then
          if truthy (dict_get period "start") && truthy (dict_get period "end")
          then 1 else 0
        else 0
    | _ => 0
    end
  else if is_not_None (dict_get data field) then 1 else 0.

Definition calculate_confidence (data : gmap string pyval) : Q :=
  let max_score :=
    (inject_Z (Z.of_nat (length required_fields))
     + inject_Z (Z.of_nat (length optional_fields)) * (1 # 2))%Q in
  let score :=
    fold_left (fun score field => (score + required_points data field)%Q)
      required_fields 0%Q in
  let score :=
    if is_not_None (dict_get data "minimum_due") then (score + (1 # 2))%Q
    else score in
  if Qlt_le_dec 0 max_score then py_round2 (score / max_score) else 0%Q.

End Normalize.

(** ** [parser/utils/ocr.py] *)

Section Ocr.
Context (R : runtime).

(** the [try] block around pdfplumber: [Some text] is its [return text] *)
Definition text_layer_attempt (pdf_path : pystr) : result (option pystr) :=
  try_except
    (pages ← pdf_text_layer R pdf_path;
     let text := join_lines (map (default []) pages) in
     if negb (is_empty text) && (50 <? length (strip R text))%nat
     then Ok (Some text) else Ok None)
    any_Exception (fun _ => Ok None).

(** the pages whose OCR succeeded; a failing page is skipped *)
Fixpoint ocr_succeeded (pages : list (result pystr)) : list pystr :=
  match pages with
  | [] => []
  | Ok page_text :: rest => page_text :: ocr_succeeded rest
  | Raise _ :: rest => ocr_succeeded rest
  end.

Definition ocr_attempt (pdf_path : pystr) : result pystr :=
  try_except
    (pages ← pdf_ocr R pdf_path;
     let combined_text := join_lines (ocr_succeeded pages) in
     Ok (if is_empty combined_text then [] else combined_text))
    any_Exception (fun _ => Ok []).

Definition extract_text_with_ocr_fallback (pdf_path : pystr) : result pystr :=
  first ← text_layer_attempt pdf_path;
  match first with
  | Some text => Ok text
  | None => ocr_attempt pdf_path
  end.

End Ocr.

(** ** [parser/issuer_parsers] *)

(** words separated by [\s+] *)
Fixpoint phrase (words : list string) : regex :=
  match words with
  | [] => REps
  | [w] => lit w
  | w :: ws => RSeq (lit w) (RSeq (plus CSpace) (phrase ws))
  end.

(** [[-–]] *)
Definition dash : cset := cls [CLit (ch "-"); CLit EN_DASH].

(** [[₹$]?[\d,\.\s]+], the amount after a label *)
Definition amount : regex :=
  RSeq (opt (RSet (cls [CLit RUPEE; CLit (ch "$")])))
       (plus (cls [CDigit; CLit (ch ","); CLit (ch "."); CSpace])).

(** [label[:\s]+(amount)] *)
Definition amount_after (label : regex) : regex :=
  seq_of [label; plus colon_space; RGroup 1 amount].

(** [label[:\s]+(field+)\s*[-–]\s*(field+)] *)
Definition period_after (label : regex) (field : cset) : regex :=
  seq_of [label; plus colon_space; RGroup 1 (plus field); star CSpace;
          RSet dash; star CSpace; RGroup 2 (plus field)].

(** [label[:\s]+(field+)] *)
Definition date_after (label : regex) (field : cset) : regex :=
  seq_of [label; plus colon_space; RGroup 1 (plus field)].

Module OneCard.

(** [\d{1,2}\s+\w+\s+\d{4}] *)
Definition day_month_year : regex :=
  seq_of [rep_range 1 2 CDigit; plus CSpace; plus CWord; plus CSpace; rep 4 CDigit].

(** [\d{1,2}[/-]\d{1,2}[/-]\d{2,4}] *)
Definition numeric_date : regex :=
  seq_of [rep_range 1 2 CDigit; RSet (cls [CLit (ch "/"); CLit (ch "-")]);
          rep_range 1 2 CDigit; RSet (cls [CLit (ch "/"); CLit (ch "-")]);
          rep_range 2 4 CDigit].

Definition range_of (date : regex) : regex :=
  seq_of [RGroup 1 date; star CSpace; RSet dash; star CSpace; RGroup 2 date].

(** [(?:OneCard|Card)\s*(?:Number|No\.?)[:\s]+.*?(\d{4})\b] *)
Definition card_number_pattern : regex :=
  seq_of [RAlt (lit "OneCard") (lit "Card"); star CSpace;
          RAlt (lit "Number") (RSeq (lit "No") (opt (RSet (CLit (ch ".")))));
          plus colon_space; lazy_star CDot; RGroup 1 (rep 4 CDigit); RWordB].

Definition due_pattern : regex :=
  date_after (phrase ["Payment"; "Due"; "Date"])
    (cls [CWord; CDigit; CSpace; CLit (ch "/"); CLit (ch "-")]).

Definition mindue_pattern : regex :=
  amount_after (phrase ["Minimum"; "Amount"; "Due"]).

Definition newbal_pattern : regex :=
  amount_after (RAlt (phrase ["New"; "Balance"]) (phrase ["Total"; "Amount"; "Due"])).

End OneCard.

Module Hdfc.

Definition period_field : cset := cls [CDigit; CSpace; CWord; CLit (ch "/")].

Definition cycle_pattern : regex :=
  period_after (phrase ["Statement"; "Period"]) period_field.

Definition alt_cycle_pattern : regex :=
  period_after (RAlt (phrase ["Billing"; "Period"]) (phrase ["Billing"; "Cycle"]))
    period_field.

Definition due_pattern : regex :=
  date_after (phrase ["Payment"; "Due"; "Date"])
    (cls [CDigit; CWord; CSpace; CLit (ch "/"); CLit (ch "-")]).

Definition mindue_pattern : regex :=
  amount_after (RAlt (phrase ["Minimum"; "Amount"; "Due"]) (phrase ["Minimum"; "Due"])).

Definition newbal_pattern : regex :=
  amount_after (RAlt (phrase ["Total"; "Amount"; "Due"]) (phrase ["New"; "Balance"])).

End Hdfc.

Module BuildingBlocks.

(** [Account\s+Number[:\s]+(?:.*?[X*\s-]+)?(\d{4})\b] *)
Definition account_number_pattern : regex :=
  seq_of [phrase ["Account"; "Number"]; plus colon_space;
          opt (RSeq (lazy_star CDot)
                 (plus (cls [CLit (ch "X"); CLit (ch "*"); CSpace; CLit (ch "-")])));
          RGroup 1 (rep 4 CDigit); RWordB].

Definition period_field : cset := cls [CDigit; CLit (ch "/"); CLit (ch "-"); CSpace].

(** [Opening[/\s]+Closing\s+Date] and the two ends of the period *)
Definition cycle_pattern : regex :=
  period_after
    (seq_of [lit "Opening"; plus (cls [CLit (ch "/"); CSpace]);
             phrase ["Closing"; "Date"]])
    period_field.

Definition alt_cycle_pattern : regex :=
  period_after (RAlt (phrase ["Billing"; "Period"]) (phrase ["Statement"; "Period"]))
    period_field.

Definition due_pattern : regex :=
  date_after (phrase ["Payment"; "Due"; "Date"])
    (cls [CDigit; CLit (ch "/"); CLit (ch "-"); CWord; CSpace]).

Definition mindue_pattern : regex := amount_after (phrase ["Minimum"; "Payment"]).

Definition newbal_pattern : regex := amount_after (phrase ["New"; "Balance"]).

Definition fallback_pattern : regex :=
  amount_after (phrase ["Total"; "Amount"; "Due"]).

End BuildingBlocks.

Module Amex.

(** [Card\s+Ending\s+(?:in\s+)?] or [Card\s+No\.?\s*], then [(\d{4})\b] *)
Definition last4_pattern : regex :=
  seq_of [RAlt (seq_of [lit "Card"; plus CSpace; lit "Ending"; plus CSpace;
                        opt (RSeq (lit "in") (plus CSpace))])
               (seq_of [lit "Card"; plus CSpace; lit "No";
                        opt (RSet (CLit (ch "."))); star CSpace]);
          RGroup 1 (rep 4 CDigit); RWordB].

Definition cycle_pattern : regex :=
  period_after (RAlt (phrase ["Statement"; "Period"]) (phrase ["Billing"; "Cycle"]))
    (cls [CWord; CDigit; CSpace; CLit (ch "/")]).

Definition due_pattern : regex :=
  date_after (RAlt (phrase ["Payment"; "Due"; "Date"]) (phrase ["Due"; "Date"]))
    (cls [CWord; CDigit; CSpace; CLit (ch "/"); CLit (ch "-")]).

Definition mindue_pattern : regex :=
  amount_after (RAlt (phrase ["Minimum"; "Amount"; "Due"]) (phrase ["Minimum"; "Due"])).

Definition newbal_pattern : regex :=
  amount_after (RAlt (phrase ["New"; "Balance"]) (phrase ["Total"; "Due"])).

Definition fallback_pattern : regex :=
  amount_after (phrase ["Total"; "Amount"; "Due"]).

End Amex.

Module FirstCitizens.

Definition account_number_pattern : regex :=
  BuildingBlocks.account_number_pattern.

Definition cycle_pattern : regex :=
  period_after (RAlt (phrase ["Billing"; "Cycle"]) (phrase ["Statement"; "Period"]))
    (cls [CWord; CDigit; CSpace; CLit (ch "/")]).

Definition due_pattern : regex :=
  date_after (RAlt (phrase ["Payment"; "Due"; "Date"]) (phrase ["Due"; "Date"]))
    (cls [CWord; CDigit; CSpace; CLit (ch "/"); CLit (ch "-")]).

Definition mindue_pattern : regex :=
  amount_after (RAlt (phrase ["Minimum"; "Payment"]) (phrase ["Minimum"; "Due"])).

Definition newbal_pattern : regex :=
  amount_after
    (RAlt (phrase ["New"; "Balance"])
       (RAlt (phrase ["Total"; "Amount"; "Due"]) (phrase ["Amount"; "Due"]))).

End FirstCitizens.

Definition opt_str (x : option pystr) : pyval :=
  match x with Some s => PStr s | None => PNone end.

Definition opt_float (x : option pyfloat) : pyval :=
  match x with Some f => PFloat f | None => PNone end.

(** the dictionary literal every parser builds *)
Definition result_dict (issuer : string) (last4 start stop due : option pystr)
    (mindue newbal : option pyfloat) (confidence : Q) : gmap string pyval :=
  <["issuer" := PStr (str issuer)]>
  (<["card_last4" := opt_str last4]>
  (<["billing_period" :=
       PDict (<["start" := opt_str start]> (<["end" := opt_str stop]> ∅))]>
  (<["payment_due_date" := opt_str due]>
  (<["minimum_due" := opt_float mindue]>
  (<["new_balance" := opt_float newbal]>
  (<["confidence" := PFloat (Fin confidence)]> ∅)))))).

(** the result of a document without text, and of a failed extraction *)
Definition empty_result (issuer : string) : gmap string pyval :=
  result_dict issuer None None None None None None 0.

(** [result["confidence"] = calculate_confidence(result)] *)
Definition with_confidence (result : gmap string pyval) : gmap string pyval :=
  <["confidence" := PFloat (Fin (calculate_confidence result))]> result.

Section Parsers.
Context (R : runtime).

(** [not text or len(text.strip()) < 10] *)
Definition too_short (text : pystr) : bool :=
  is_empty text || (length (strip R text) <? 10)%nat.

(** the first of the patterns, tried in order, that matches *)
Definition first_match (patterns : list regex) (text : pystr) : option rematch :=
  first_some (fun p => re_search R true p text) patterns.

(** both ends of the billing period from the pattern that matched *)
Definition period_field (patterns : list regex) (text : pystr)
    : result (option pystr * option pystr) :=
  match first_match patterns text with
  | Some m =>
      start_normalized ← normalize_date R (Some (strip R (group_text m 1)));
      end_normalized ← normalize_date R (Some (strip R (group_text m 2)));
      Ok (start_normalized, end_normalized)
  | None => Ok (None, None)
  end.

Definition date_field (pattern : regex) (text : pystr) : result (option pystr) :=
  match re_search R true pattern text with
  | Some m => normalize_date R (Some (strip R (group_text m 1)))
  | None => Ok None
  end.

Definition amount_field (patterns : list regex) (text : pystr)
    : result (option pyfloat) :=
  match first_match patterns text with
  | Some m => normalize_currency R (ArgStr (group_text m 1))
  | None => Ok None
  end.

(** [extract_dates] of onecard.py *)
Definition extract_dates (text : pystr) : option pystr * option pystr :=
  match re_search R true (OneCard.range_of OneCard.day_month_year) text with
  | Some m => (Some (strip R (group_text m 1)), Some (strip R (group_text m 2)))
  | None =>
      match re_search R false (OneCard.range_of OneCard.numeric_date) text with
      | Some m => (Some (strip R (group_text m 1)), Some (strip R (group_text m 2)))
      | None => (None, None)
      end
  end.

(** the [try] block of [parse_onecard] *)
Definition onecard_extract (path : pystr) : result (gmap string pyval) :=
  text ← extract_text_with_ocr_fallback R path;
  if too_short text then Ok (empty_result "OneCard")
  else
    let last4 := extract_card_last4 R text (Some ["Card"; "Account"; "OneCard"]%string) in
    let last4 :=
      if falsy last4 then
        match re_search R true OneCard.card_number_pattern text with
        | Some m => Some (group_text m 1)
        | None => last4
        end
      else last4 in
    let '(start, stop) := extract_dates text in
    start_normalized ← (if falsy start then Ok None else normalize_date R start);
    end_normalized ← (if falsy stop then Ok None else normalize_date R stop);
    due_date ← date_field OneCard.due_pattern text;
    mindue ← amount_field [OneCard.mindue_pattern] text;
    newbal ← amount_field [OneCard.newbal_pattern] text;
    Ok (with_confidence
          (result_dict "OneCard" last4 start_normalized end_normalized
             due_date mindue newbal 0)).

(** [try: ... except Exception: return] the empty result *)
Definition parse_onecard (path : pystr) : result (gmap string pyval) :=
  try_except (onecard_extract path)
    any_Exception (fun _ => Ok (empty_result "OneCard")).

(** the [try] block of [parse_buildingblocks] *)
Definition buildingblocks_extract (path : pystr) : result (gmap string pyval) :=
  text ← extract_text_with_ocr_fallback R path;
  if too_short text then Ok (empty_result "BuildingBlocks")
  else
    let last4 := extract_card_last4 R text (Some ["Account"; "Card"; "Number"]%string) in
    let last4 :=
      if falsy last4 then
        match re_search R true BuildingBlocks.account_number_pattern text with
        | Some m => Some (group_text m 1)
        | None => last4
        end
      else last4 in
    '(start_normalized, end_normalized) ←
      period_field [BuildingBlocks.cycle_pattern; BuildingBlocks.alt_cycle_pattern] text;
    due_date ← date_field BuildingBlocks.due_pattern text;
    mindue ← amount_field [BuildingBlocks.mindue_pattern] text;
    newbal ← amount_field
               [BuildingBlocks.newbal_pattern; BuildingBlocks.fallback_pattern] text;
    Ok (with_confidence
          (result_dict "BuildingBlocks" last4 start_normalized end_normalized
             due_date mindue newbal 0)).

(** [try: ... except Exception: return] the empty result *)
Definition parse_buildingblocks (path : pystr) : result (gmap string pyval) :=
  try_except (buildingblocks_extract path)
    any_Exception (fun _ => Ok (empty_result "BuildingBlocks")).

(** a capture the parser accepts only after [not (1900 <= int(c) <= 2099)] *)
Definition unless_year (candidate : pystr) : result (option pystr) :=
  year_val ← py_int R candidate;
  Ok (if negb (is_year year_val) then Some candidate else None).

(** the [try] block of [parse_hdfc] *)
Definition hdfc_extract (path : pystr) : result (gmap string pyval) :=
  text ← extract_text_with_ocr_fallback R path;
  if too_short text then Ok (empty_result "HDFC")
  else
    last4 ← match re_search R true masked_pattern text with
            | Some masked_match => unless_year (group_text masked_match 1)
            | None => Ok None
            end;
    let last4 :=
      if falsy last4
      then extract_card_last4 R text (Some ["Card"; "Account"; "HDFC"; "XXXX"]%string)
      else last4 in
    '(start_normalized, end_normalized) ←
      period_field [Hdfc.cycle_pattern; Hdfc.alt_cycle_pattern] text;
    due_date ← date_field Hdfc.due_pattern text;
    mindue ← amount_field [Hdfc.mindue_pattern] text;
    newbal ← amount_field [Hdfc.newbal_pattern] text;
    Ok (with_confidence
          (result_dict "HDFC" last4 start_normalized end_normalized
             due_date mindue newbal 0)).

(** [try: ... except Exception: return] the empty result *)
Definition parse_hdfc (path : pystr) : result (gmap string pyval) :=
  try_except (hdfc_extract path)
    any_Exception (fun _ => Ok (empty_result "HDFC")).

(** the [try] block of [parse_amex] *)
Definition amex_extract (path : pystr) : result (gmap string pyval) :=
  text ← extract_text_with_ocr_fallback R path;
  if too_short text then Ok (empty_result "AMEX")
  else
    last4 ← match re_search R true Amex.last4_pattern text with
            | Some last4_match => unless_year (group_text last4_match 1)
            | None => Ok None
            end;
    let last4 :=
      if falsy last4
      then extract_card_last4 R text
             (Some ["Card"; "AMEX"; "American Express"; "Ending"]%string)
      else last4 in
    '(start_normalized, end_normalized) ← period_field [Amex.cycle_pattern] text;
    due_date ← date_field Amex.due_pattern text;
    mindue ← amount_field [Amex.mindue_pattern] text;
    newbal ← amount_field [Amex.newbal_pattern; Amex.fallback_pattern] text;
    Ok (with_confidence
          (result_dict "AMEX" last4 start_normalized end_normalized
             due_date mindue newbal 0)).

(** [try: ... except Exception: return] the empty result *)
Definition parse_amex (path : pystr) : result (gmap string pyval) :=
  try_except (amex_extract path)
    any_Exception (fun _ => Ok (empty_result "AMEX")).

(** the [try] block of [parse_firstcitizens] *)
Definition firstcitizens_extract (path : pystr) : result (gmap string pyval) :=
  text ← extract_text_with_ocr_fallback R path;
  if too_short text then Ok (empty_result "FirstCitizens")
  else
    let last4 := extract_card_last4 R text
                   (Some ["Account"; "Card"; "Number"; "FirstCitizens"]%string) in
    last4 ← (if falsy last4 then
               match re_search R true FirstCitizens.account_number_pattern text with
               | Some m =>
                   checked ← unless_year (group_text m 1);
                   Ok (match checked with Some c => Some c | None => last4 end)
               | None => Ok last4
               end
             else Ok last4);
    '(start_normalized, end_normalized) ←
      period_field [FirstCitizens.cycle_pattern] text;
    due_date ← date_field FirstCitizens.due_pattern text;
    mindue ← amount_field [FirstCitizens.mindue_pattern] text;
    newbal ← amount_field [FirstCitizens.newbal_pattern] text;
    Ok (with_confidence
          (result_dict "FirstCitizens" last4 start_normalized end_normalized
             due_date mindue newbal 0)).

(** [try: ... except Exception: return] the empty result *)
Definition parse_firstcitizens (path : pystr) : result (gmap string pyval) :=
  try_except (firstcitizens_extract path)
    any_Exception (fun _ => Ok (empty_result "FirstCitizens")).

(** ** [parser/dispatcher.py] *)

Definition parse_pdf (path issuer : pystr) : result (gmap string pyval) :=
  if bool_decide (issuer = str "onecard") then parse_onecard path
  else if bool_decide (issuer = str "buildingblocks") then parse_buildingblocks path
  else if bool_decide (issuer = str "hdfc") then parse_hdfc path
  else if bool_decide (issuer = str "amex") then parse_amex path
  else if bool_decide (issuer = str "firstcitizens") then parse_firstcitizens path
  else Ok {["error" := PStr (str "issuer not supported")]}.

(** ** [parser/detect_issuer.py] *)

Definition detect_issuer (pdf_path : pystr) : pystr :=
  if contains (str "onecard") (lower R pdf_path) then str "onecard"
  else if contains (str "buildingblocks") (lower R pdf_path) then str "buildingblocks"
  else if contains (str "hdfc") (lower R pdf_path) then str "hdfc"
  else if contains (str "amex") (lower R pdf_path) then str "amex"
  else if contains (str "firstcitizens") (lower R pdf_path) then str "firstcitizens"
  else str "unknown".

End Parsers.

(** ** [parse.py] *)

(** What the scripts print, by the statement that prints it. *)
Inductive printed :=
| PrintUsage
| PrintFileNotFound (pdf_path : pystr)
| PrintIssuerWarning (pdf_path : pystr)
| PrintError (message : pyval)
| PrintJson (data : gmap string pyval)
| PrintCsvWarning (e : exn)
| PrintParseFailure (e : exn).

(** The files the scripts see.  A regular file is kept as the rows the
    [csv] module reads from it or has written to it; a cell is the Python
    value handed to the writer, before it is written out.  Whether the
    operating system lets a directory be made or a file be opened, and
    whether a row can be written (its text may have no UTF-8 encoding, the
    device may fail), is a parameter. *)
Record filesystem := FileSystem {
  (** the regular files, by path *)
  fs_files : gmap pystr (list (list pyval));
  (** [os.makedirs(os.path.dirname(csv_path), exist_ok=True)] *)
  fs_makedirs : pystr -> result unit;
  (** [open(csv_path, 'a', newline='', encoding='utf-8')] *)
  fs_open_append : pystr -> result unit;
  (** writing one row to the open file *)
  fs_write : pystr -> list pyval -> result unit
}.

(** [os.path.isfile(path)] *)
Definition isfile (fs : filesystem) (path : pystr) : bool :=
  bool_decide (is_Some (fs_files fs !! path)).

(** the file system once [path] holds [rows] *)
Definition write_file (fs : filesystem) (path : pystr) (rows : list (list pyval))
    : filesystem :=
  FileSystem (<[path := rows]> (fs_files fs)) (fs_makedirs fs) (fs_open_append fs)
    (fs_write fs).

Definition fieldnames : list string :=
  ["issuer"; "last4"; "bill_start"; "bill_end"; "payment_due"; "new_balance";
   "minimum_due"; "confidence"]%string.

(** [data.get(key, fallback)] *)
Definition dict_get_default (data : gmap string pyval) (key : string)
    (fallback : pyval) : pyval :=
  default fallback (data !! key).

(** [data.get('billing_period', {}).get(key, '')
     if isinstance(data.get('billing_period'), dict) else ''] *)
Definition period_cell (data : gmap string pyval) (key : string) : pyval :=
  match dict_get data "billing_period" with
  | PDict period => dict_get_default period key (PStr [])
  | _ => PStr []
  end.

(** the [row] dictionary of [append_to_csv] *)
Definition csv_row (data : gmap string pyval) : gmap string pyval :=
  <["issuer" := dict_get_default data "issuer" (PStr [])]>
  (<["last4" := dict_get_default data "card_last4" (PStr [])]>
  (<["bill_start" := period_cell data "start"]>
  (<["bill_end" := period_cell data "end"]>
  (<["payment_due" := dict_get_default data "payment_due_date" (PStr [])]>
  (<["new_balance" := dict_get_default data "new_balance" (PStr [])]>
  (<["minimum_due" := dict_get_default data "minimum_due" (PStr [])]>
  (<["confidence" := dict_get_default data "confidence" (PFloat (Fin 0))]> ∅))))))).

(** The row [csv.DictWriter(csvfile, fieldnames=fieldnames).writerow(row)]
    prepares: the cells in the order of the field names, [''] for a field
    the row lacks; a key of the row that is no field name raises
    [ValueError].  Writing the row out is [fs_write]. *)
Definition writerow (names : list string) (row : gmap string pyval)
    : result (list pyval) :=
  if bool_decide (dom row ⊆ (list_to_set names : gset string))
  then Ok (map (fun key => dict_get_default row key (PStr [])) names)
  else Raise ValueError.

(** [writer.writeheader()] *)
Definition header_row (names : list string) : list pyval :=
  map (fun name => PStr (str name)) names.

(** [append_to_csv(data, csv_path)]: the file system after the call and
    what it printed.  The whole body is inside [try: ... except Exception],
    which prints a warning.  Opening the file for appending creates it, so
    from then on the file exists; a write that raises has written nothing
    of its row and leaves the rows written before it. *)
Definition append_to_csv (fs : filesystem) (data : gmap string pyval)
    (csv_path : pystr) : filesystem * list printed :=
  match fs_makedirs fs csv_path with
  | Raise e => (fs, [PrintCsvWarning e])
  | Ok _ =>
      let file_exists := isfile fs csv_path in
      match fs_open_append fs csv_path with
      | Raise e => (fs, [PrintCsvWarning e])
      | Ok _ =>
          let opened := default [] (fs_files fs !! csv_path) in
          match
            (if negb file_exists
             then fs_write fs csv_path (header_row fieldnames) else Ok tt)
          with
          | Raise e => (write_file fs csv_path opened, [PrintCsvWarning e])
          | Ok _ =>
              let started :=
                if negb file_exists then opened ++ [header_row fieldnames]
                else opened in
              match
                cells ← writerow fieldnames (csv_row data);
                _ ← fs_write fs csv_path cells;
                Ok cells
              with
              | Ok cells => (write_file fs csv_path (started ++ [cells]), [])
              | Raise e => (write_file fs csv_path started, [PrintCsvWarning e])
              end
          end
      end
  end.

(** the default of [csv_path] *)
Definition default_csv_path : pystr := str "outputs/results.csv".

(** [key in data] *)
Definition has_key (data : gmap string pyval) (key : string) : bool :=
  bool_decide (is_Some (data !! key)).

Section Scripts.
Context (R : runtime).

(** [main()] of parse.py on [sys.argv]: the file system afterwards, what
    was printed, and the exit status ([sys.exit(1)], or 0 at the end). *)
Definition main (fs : filesystem) (argv : list pystr)
    : filesystem * list printed * Z :=
  match argv with
  | _ :: pdf_path :: _ =>
      if negb (isfile fs pdf_path) then (fs, [PrintFileNotFound pdf_path], 1%Z)
      else
        let issuer := detect_issuer R pdf_path in
        let warning :=
          if bool_decide (issuer = str "unknown")
          then [PrintIssuerWarning pdf_path] else [] in
        match parse_pdf R pdf_path issuer with
        | Ok data =>
            if has_key data "error"
            then (fs, warning ++ [PrintError (dict_get data "error")], 1%Z)
            else
              let '(fs', csv_warning) := append_to_csv fs data default_csv_path in
              (fs', warning ++ [PrintJson data] ++ csv_warning, 0%Z)
        | Raise e => (fs, warning ++ [PrintParseFailure e], 1%Z)
        end
  | _ => (fs, [PrintUsage], 1%Z)
  end.

(** ** [demo.py] *)

(** an entry of [results]: status ["success"] with the data, or status
    ["error"] with the dispatcher's message or with the exception *)
Inductive demo_entry :=
| DemoSuccess (file : pystr) (data : gmap string pyval)
| DemoError (file : pystr) (error : pyval)
| DemoException (file : pystr) (e : exn).

(** one pass of the loop over [pdfs] *)
Definition demo_process (pdf : pystr * pystr) : demo_entry :=
  let '(pdf_path, expected_issuer) := pdf in
  let detected_issuer := detect_issuer R pdf_path in
  match parse_pdf R pdf_path detected_issuer with
  | Ok data =>
      if has_key data "error" then DemoError pdf_path (dict_get data "error")
      else DemoSuccess pdf_path data
  | Raise e => DemoException pdf_path e
  end.

(** [r["status"] == "success"] *)
Definition is_success (r : demo_entry) : bool :=
  match r with DemoSuccess _ _ => true | _ => false end.

(** [r["data"].get("confidence", 0.0)] of the successful entries, as the
    numbers [sum] adds up; a value that is no finite float is left out of
    the model *)
Definition demo_confidences (results : list demo_entry) : list Q :=
  flat_map
    (fun r =>
       match r with
       | DemoSuccess _ data =>
           match dict_get_default data "confidence" (PFloat (Fin 0)) with
           | PFloat (Fin q) => [q]
           | _ => []
           end
       | _ => []
       end)
    results.

(** the figures of the summary *)
Record demo_summary := DemoSummary {
  total_processed : Z;
  successful : Z;
  failed : Z;
  avg_confidence : option Q
}.

(** the summary [main] prints after the loop: [successful], [failed] and,
    [if successful > 0], [avg_confidence] *)
Definition summarize (results : list demo_entry) : demo_summary :=
  let successful := Z.of_nat (length (List.filter is_success results)) in
  let failed := (Z.of_nat (length results) - successful)%Z in
  DemoSummary (Z.of_nat (length results)) successful failed
    (if (0 <? successful)%Z
     then Some (fold_left Qplus (demo_confidences results) 0%Q / inject_Z successful)%Q
     else None).

(** [main()] of demo.py (parse.py has the other [main]) on the list
    [find_all_pdfs()] returned: [None] when it stops at an empty list, else
    the results and their summary *)
Definition demo_main (pdfs : list (pystr * pystr))
    : option (list demo_entry * demo_summary) :=
  match pdfs with
  | [] => None
  | _ :: _ =>
      let results := map demo_process pdfs in
      Some (results, summarize results)
  end.

End Scripts.

(** * Specification side *)

(** ** The five issuer parsers *)

Inductive issuer :=
| IOneCard
| IBuildingBlocks
| IHdfc
| IAmex
| IFirstCitizens.

(** the value of the [issuer] field *)
Definition issuer_name (i : issuer) : string :=
  match i with
  | IOneCard => "OneCard"
  | IBuildingBlocks => "BuildingBlocks"
  | IHdfc => "HDFC"
  | IAmex => "AMEX"
  | IFirstCitizens => "FirstCitizens"
  end.

(** the identifier [parse_pdf] dispatches on *)
Definition issuer_key (i : issuer) : string :=
  match i with
  | IOneCard => "onecard"
  | IBuildingBlocks => "buildingblocks"
  | IHdfc => "hdfc"
  | IAmex => "amex"
  | IFirstCitizens => "firstcitizens"
  end.

Definition issuer_parser (R : runtime) (i : issuer)
    : pystr -> result (gmap string pyval) :=
  match i with
  | IOneCard => parse_onecard R
  | IBuildingBlocks => parse_buildingblocks R
  | IHdfc => parse_hdfc R
  | IAmex => parse_amex R
  | IFirstCitizens => parse_firstcitizens R
  end.

Definition issuer_extract (R : runtime) (i : issuer)
    : pystr -> result (gmap string pyval) :=
  match i with
  | IOneCard => onecard_extract R
  | IBuildingBlocks => buildingblocks_extract R
  | IHdfc => hdfc_extract R
  | IAmex => amex_extract R
  | IFirstCitizens => firstcitizens_extract R
  end.

(** ** Reading a result *)

(** [result["billing_period"][key]] *)
Definition period_get (d : gmap string pyval) (key : string) : option pyval :=
  match d !! "billing_period" with
  | Some (PDict period) => period !! key
  | _ => None
  end.

(** the field [key] of the dictionary a call returned; [None] when the
    call raised or the key is missing *)
Definition returned_field (r : result (gmap string pyval)) (key : string)
    : option pyval :=
  match r with Ok d => d !! key | Raise _ => None end.

(** every extracted field is [None] *)
Definition all_fields_none (d : gmap string pyval) : Prop :=
  d !! "card_last4" = Some PNone /\
  period_get d "start" = Some PNone /\
  period_get d "end" = Some PNone /\
  d !! "payment_due_date" = Some PNone /\
  d !! "minimum_due" = Some PNone /\
  d !! "new_balance" = Some PNone.

(** the keys of a result, and of its billing period *)
Definition well_formed_result (d : gmap string pyval) : Prop :=
  dom d = list_to_set ["issuer"; "card_last4"; "billing_period"; "payment_due_date";
                       "minimum_due"; "new_balance"; "confidence"]%string /\
  exists period, d !! "billing_period" = Some (PDict period) /\
                 dom period = list_to_set ["start"; "end"]%string.

(** a float that is not negative ([x >= 0] in Python) *)
Definition nonnegative (f : pyfloat) : Prop :=
  match f with
  | Fin q => (0 <= q)%Q
  | Inf negative => negative = false
  | NaN => False
  end.

(** a field holding [None] or a float that is not negative *)
Definition none_or_nonnegative (v : option pyval) : Prop :=
  v = Some PNone \/ exists f, v = Some (PFloat f) /\ nonnegative f.

(** a card suffix that, read as an integer, is not in [1900, 2099] *)
Definition not_year_like (R : runtime) (x : option pystr) : Prop :=
  match x with
  | Some s => forall z, py_int R s = Ok z -> is_year z = false
  | None => True
  end.

(** the parsers that check the year on every path to card_last4 *)
Definition checks_year (i : issuer) : bool :=
  match i with
  | IHdfc | IAmex | IFirstCitizens => true
  | IOneCard | IBuildingBlocks => false
  end.

(** the pattern a parser searches for the card suffix itself, beside
    calling [extract_card_last4] *)
Definition own_suffix_pattern (i : issuer) : regex :=
  match i with
  | IOneCard => OneCard.card_number_pattern
  | IBuildingBlocks => BuildingBlocks.account_number_pattern
  | IHdfc => masked_pattern
  | IAmex => Amex.last4_pattern
  | IFirstCitizens => FirstCitizens.account_number_pattern
  end.

(** ** Confidence, as the spec words it *)

Definition points {A} (x : option A) (worth : Q) : Q :=
  match x with Some _ => worth | None => 0 end.

(** the billing period counts when both its ends are present *)
Definition period_points {A} (start stop : option A) : Q :=
  match start, stop with Some _, Some _ => 1 | _, _ => 0 end.

Definition spec_confidence (last4 start stop due : option pystr)
    (mindue newbal : option pyfloat) : Q :=
  py_round2
    ((points last4 1 + period_points start stop + points due 1 + points newbal 1
      + points mindue (1 # 2)) / (9 # 2))%Q.

(** a result whose dates, when present, are not the empty string (a
    canonical date never is) *)
Definition dates_nonempty (start stop : option pystr) : Prop :=
  start <> Some [] /\ stop <> Some [].

(** ** Decimal numerals *)

(** the ASCII digits of the decimal digit values [ds] *)
Definition digits_text (ds : list N) : pystr := map (fun d => 48 + d) ds.

(** [ip], or [ip.fp] when [fp] is not empty *)
Definition decimal_text (ip fp : list N) : pystr :=
  digits_text ip ++ match fp with [] => [] | _ :: _ => 46 :: digits_text fp end.

(** the number that numeral denotes *)
Definition decimal_value (ip fp : list N) : Q :=
  (inject_Z (Z.of_N (decimal_of (ip ++ fp))) * Qpower 10 (- Z.of_nat (length fp)))%Q.

(** what may follow the digits of a numeral: its end, or the dot *)
Definition ends_digits (rest : pystr) : Prop :=
  match rest with
  | [] => True
  | c :: _ => c = 46
  end.

(** ** Issuer detection, as a search in a priority list *)



(** ** Dates *)

Definition leap_year (y : N) : bool :=
  ((y mod 4 =? 0) && negb (y mod 100 =? 0)) || (y mod 400 =? 0).

Definition days_in_month (y m : N) : N :=
  if m =? 2 then (if leap_year y then 29 else 28)
  else if (m =? 4) || (m =? 6) || (m =? 9) || (m =? 11) then 30 else 31.

(** a calendar date with a four-digit year *)
Definition valid_date (y m d : N) : bool :=
  (1000 <=? y) && (y <=? 9999) && (1 <=? m) && (m <=? 12)
  && (1 <=? d) && (d <=? days_in_month y m).

(** [/], [-] and [.] between the fields of a numeric date *)
Definition date_separator (c : N) : bool := (c =? 47) || (c =? 45) || (c =? 46).

(** the space, [-] and [/] around a month name *)
Definition word_separator (c : N) : bool := (c =? 32) || (c =? 45) || (c =? 47).

(** a field of one to [width] ASCII digits, as a number *)
Definition date_field_number (width : nat) (f : pystr) : option N :=
  if negb (is_empty f) && (length f <=? width)%nat && forallb ascii_digit f
  then Some (decimal_of (map (fun c => c - 48) f)) else None.

(** the English month names and their abbreviations, in lower case *)
Definition month_names : list (string * N) :=
  [("january", 1); ("jan", 1); ("february", 2); ("feb", 2); ("march", 3);
   ("mar", 3); ("april", 4); ("apr", 4); ("may", 5); ("june", 6); ("jun", 6);
   ("july", 7); ("jul", 7); ("august", 8); ("aug", 8); ("september", 9);
   ("sept", 9); ("sep", 9); ("october", 10); ("oct", 10); ("november", 11);
   ("nov", 11); ("december", 12); ("dec", 12)]%string.

(** the month a name stands for, whatever the case of its letters *)
Definition month_number (f : pystr) : option N :=
  option_map snd
    (find (fun entry => bool_decide (map ascii_lower f = str entry.1)) month_names).

(** a year as it is written: four digits, or two digits, which [expand]
    makes a full year *)
Definition year_field (expand : N -> N) (f : pystr) : option N :=
  if (length f =? 4)%nat then date_field_number 4 f
  else if (length f =? 2)%nat then option_map expand (date_field_number 2 f)
  else None.

Definition checked_date (y m d : N) : option datetime :=
  if valid_date y m d then Some (DateTime y m d) else None.

(** Modelled from the spec: the date grammar of [dateutil.parser.parse],
    a library outside the repository, as [normalize_date] configures it
    ("preferring day-before-month interpretation when ambiguous" and
    "preferring non-year-first token order"), on dates of three fields
    with the same separator twice: three numbers between [/], [-] or [.],
    or a day, an English month name and a year between spaces, [-] or [/].
    A day and a month have one or two digits; a year has four digits, or
    two ("with two- or four-digit year"), and how the library makes a full
    year of two digits is the parameter [expand].  The year is read first
    only when the first field has four digits; of the two other numbers
    the first is the day whenever the second can be a month, so
    ["05/08/2025"] is 5 August and ["2025-01-15"] is 15 January.  [None]:
    outside this fragment. *)
Definition spec_date_grammar (expand : N -> N) (s : pystr) : option datetime :=
  match find (fun c => date_separator c || word_separator c) s with
  | Some sep =>
      match split_acc (N.eqb sep) [] s with
      | [fa; fb; fc] =>
          if forallb ascii_digit fb then
            if sep =? 32 then None
            else
              match date_field_number 4 fa, date_field_number 2 fb with
              | Some a, Some b =>
                  if (length fa =? 4)%nat then
                    match date_field_number 2 fc with
                    | Some c =>
                        if c <=? 12 then checked_date a c b else checked_date a b c
                    | None => None
                    end
                  else if (length fa <=? 2)%nat then
                    match year_field expand fc with
                    | Some y =>
                        if (12 <? a) || (b <=? 12) then checked_date y b a
                        else checked_date y a b
                    | None => None
                    end
                  else None
              | _, _ => None
              end
          else if sep =? 46 then None
          else
            match date_field_number 2 fa, month_number fb, year_field expand fc with
            | Some d, Some m, Some y => checked_date y m d
            | _, _, _ => None
            end
      | _ => None
      end
  | None => None
  end.


(** the canonical form [YYYY-MM-DD] *)
Definition iso_text (y m d : N) : pystr := strftime_Ymd (DateTime y m d).

(** two-digit years as the runtime below reads them: the years from 2000 *)
Definition reference_years (yy : N) : N := 2000 + yy.

(** ** A runtime to instantiate the statements

    ASCII-only character tables; every path is a one-page document whose
    text layer and whose OCR both read [document]; a date outside the
    grammar above makes the date parser raise [unparsed]. *)
Definition reference_runtime (document : pystr) (unparsed : exn) : runtime :=
  {| uni_decimal := fun _ => None;
     uni_space := fun _ => false;
     uni_alnum := fun _ => false;
     uni_lower := fun c => [c];
     uni_casefold := fun c => c;
     pdf_text_layer := fun _ => Ok [Some document];
     pdf_ocr := fun _ => Ok [Ok document];
     dateutil_parse := fun s _ _ =>
       match spec_date_grammar reference_years s with
       | Some d => Ok d
       | None => Raise unparsed
       end |}.

(** ** What a pattern consumes, and what its groups capture *)

Section Language.
Context (R : runtime) (ignorecase : bool).

(** the words a pattern can consume; look-arounds consume nothing *)
Fixpoint lang (r : regex) (w : pystr) : Prop :=
  match r with
  | REps => w = []
  | RSet s => exists x, w = [x] /\ cset_in R ignorecase s x = true
  | RSeq a b => exists u v, w = u ++ v /\ lang a u /\ lang b v
  | RAlt a b => lang a w \/ lang b w
  | RStar _ s => Forall (fun x => cset_in R ignorecase s x = true) w
  | RGroup _ a => lang a w
  | RNotAhead _ => w = []
  | RWordB => w = []
  end.

(** every group [n] of the pattern captures a word of [Q n] *)
Fixpoint groups_sound (Q : nat -> pystr -> Prop) (r : regex) : Prop :=
  match r with
  | RSeq a b | RAlt a b => groups_sound Q a /\ groups_sound Q b
  | RGroup n a => (forall w, lang a w -> Q n w) /\ groups_sound Q a
  | _ => True
  end.

End Language.

Definition caps_ok (Q : nat -> pystr -> Prop) (caps : gmap nat pystr) : Prop :=
  forall n w, caps !! n = Some w -> Q n w.

(** no capturing group occurs in the pattern *)
Fixpoint group_free (r : regex) : bool :=
  match r with
  | RSeq a b | RAlt a b => group_free a && group_free b
  | RGroup _ _ => false
  | _ => true
  end.

(** [st'] is a state the matcher can be in after [r] matched from [st]:
    [r] consumed a word of its language and the groups satisfy [Q] *)
Definition reaches (R : runtime) (ignorecase : bool) (Q : nat -> pystr -> Prop)
    (r : regex) (st st' : mstate) : Prop :=
  caps_ok Q (m_caps st') /\
  exists w, lang R ignorecase r w /\ m_rest st = w ++ m_rest st' /\
            m_pos st' = (m_pos st + length w)%nat.

(** a character that is no minus sign and no letter n *)
Definition unsigned_char (c : N) : Prop := c <> 45 /\ c <> 110 /\ c <> 78.

(** on every path to a match the pattern captures group [n] *)
Fixpoint captures (n : nat) (r : regex) : bool :=
  match r with
  | RSeq a b => captures n a || captures n b
  | RAlt a b => captures n a && captures n b
  | RGroup j a => (j =? n)%nat || captures n a
  | _ => false
  end.

(** a continuation that keeps the groups captured before it *)
Definition keeps_groups (k : mstate -> option mstate) : Prop :=
  forall st res n,
    k st = Some res -> is_Some (m_caps st !! n) -> is_Some (m_caps res !! n).

(** four decimal digits *)
Definition four_digits (R : runtime) (w : pystr) : Prop :=
  length w = 4%nat /\ Forall (fun c => is_digit R c = true) w.

(** group 1 holds four decimal digits *)
Definition suffix_captured (R : runtime) (n : nat) (w : pystr) : Prop :=
  n = 1%nat -> four_digits R w.

(** a match whose group 1 took part and holds four decimal digits *)
Definition suffix_match (R : runtime) (m : rematch) : Prop :=
  exists w, group m 1 = Some w /\ four_digits R w.

(** the characters an amount is made of *)
Definition amount_char (R : runtime) (c : N) : bool :=
  (c =? RUPEE) || (c =? 36) || is_digit R c || (c =? 44) || (c =? 46) || is_space R c.

(** group 1 holds amount characters only *)
Definition amount_captured (R : runtime) (n : nat) (w : pystr) : Prop :=
  n = 1%nat -> Forall (fun c => amount_char R c = true) w.

(** the patterns whose group 1 becomes [minimum_due] *)
Definition mindue_patterns (i : issuer) : list regex :=
  match i with
  | IOneCard => [OneCard.mindue_pattern]
  | IBuildingBlocks => [BuildingBlocks.mindue_pattern]
  | IHdfc => [Hdfc.mindue_pattern]
  | IAmex => [Amex.mindue_pattern]
  | IFirstCitizens => [FirstCitizens.mindue_pattern]
  end.

(** the patterns whose group 1 becomes [new_balance] *)
Definition newbal_patterns (i : issuer) : list regex :=
  match i with
  | IOneCard => [OneCard.newbal_pattern]
  | IBuildingBlocks => [BuildingBlocks.newbal_pattern; BuildingBlocks.fallback_pattern]
  | IHdfc => [Hdfc.newbal_pattern]
  | IAmex => [Amex.newbal_pattern; Amex.fallback_pattern]
  | IFirstCitizens => [FirstCitizens.newbal_pattern]
  end.


(** ** Keywords *)

(** a keyword that a pattern reads as itself: letters, digits and spaces *)
Definition plain_keyword (keyword : string) : bool :=
  forallb (fun a => ascii_alpha (N_of_ascii a) || ascii_digit (N_of_ascii a)
                    || (N_of_ascii a =? 32))
    (list_ascii_of_string keyword).

(** the keyword list of a call, when one is given, holds plain keywords *)
Definition plain_keywords (context_keywords : option (list string)) : bool :=
  match context_keywords with
  | Some keywords => forallb plain_keyword keywords
  | None => true
  end.

(** ** Occurrences *)

(** [w] occurs in [s] as a run of consecutive characters *)
Definition occurs_in (w s : pystr) : Prop := exists a b, s = a ++ w ++ b.

(** a state met while matching in [subject]: what is left to read is the
    end of the subject, and every group captured so far occurs in it *)
Definition state_within (subject : pystr) (st : mstate) : Prop :=
  (exists before, subject = before ++ m_rest st) /\
  forall n w, m_caps st !! n = Some w -> occurs_in w subject.

(** where a date of a result comes from: [None], or what [normalize_date]
    returned *)
Definition normalized_date (R : runtime) (x : option pystr) : Prop :=
  x = None \/ exists s, normalize_date R (Some s) = Ok x.

(** the date library returns calendar dates with a four-digit year *)
Definition calendar_dates (R : runtime) : Prop :=
  forall s dayfirst yearfirst d,
    dateutil_parse R s dayfirst yearfirst = Ok d ->
    1000 <= dt_year d <= 9999 /\ 1 <= dt_month d <= 12 /\ 1 <= dt_day d <= 31.

(** a date field holding [None] or a text [YYYY-MM-DD] *)
Definition none_or_canonical (v : option pyval) : Prop :=
  v = Some PNone \/
  exists y m d, v = Some (PStr (iso_text y m d)) /\
                1000 <= y <= 9999 /\ 1 <= m <= 12 /\ 1 <= d <= 31.

(** the end [key] of the billing period of the dictionary a call returned *)
Definition returned_period (r : result (gmap string pyval)) (key : string)
    : option pyval :=
  match r with Ok d => period_get d key | Raise _ => None end.

(** ** The CSV file *)

(** a file [append_to_csv] has started: the header, then rows of eight
    cells *)
Definition results_table (rows : list (list pyval)) : Prop :=
  exists body, rows = header_row fieldnames :: body /\
               Forall (fun row => length row = 8%nat) body.

(** the cells of the row written for [data], column by column *)
Definition csv_cells (data : gmap string pyval) : list pyval :=
  [dict_get_default data "issuer" (PStr []);
   dict_get_default data "card_last4" (PStr []);
   period_cell data "start";
   period_cell data "end";
   dict_get_default data "payment_due_date" (PStr []);
   dict_get_default data "new_balance" (PStr []);
   dict_get_default data "minimum_due" (PStr []);
   dict_get_default data "confidence" (PFloat (Fin 0))].

(** the paths of a list in which an issuer name is found *)
Definition detectable (R : runtime) (pdf : pystr * pystr) : bool :=
  negb (bool_decide (detect_issuer R pdf.1 = str "unknown")).

(** ** The characters of a float literal *)

(** a character that can stand in a string [float] accepts, apart from the
    whitespace around it: a decimal digit, a sign, the point, the underscore,
    or a letter of [e], [inf], [infinity], [nan] in either case *)
Definition float_alphabet (R : runtime) (c : N) : bool :=
  is_digit R c || (c =? 43) || (c =? 45) || (c =? 46) || (c =? 95)
  || existsb (N.eqb (ascii_lower c)) (str "einfatyn").

(** ** Exceptions inside a parser *)



(** * Properties *)

(** ** Results and exceptions *)

Lemma bind_Ok {A B} (m : result A) (f : A -> result B) (b : B) :
  m ≫= f = Ok b -> exists a, m = Ok a /\ f a = Ok b.
Proof. destruct m; simpl; intros H; [eauto | discriminate]. Qed.

Ltac bind_inv H :=
  let a := fresh "a" in
  let Ha := fresh "Ha" in
  apply bind_Ok in H; destruct H as (a & Ha & H).


(** ** The result dictionary *)

Lemma result_dict_lookups issuer last4 start stop due mindue newbal c :
  let d := result_dict issuer last4 start stop due mindue newbal c in
  d !! "issuer"%string = Some (PStr (str issuer)) /\
  d !! "card_last4"%string = Some (opt_str last4) /\
  period_get d "start" = Some (opt_str start) /\
  period_get d "end" = Some (opt_str stop) /\
  d !! "payment_due_date"%string = Some (opt_str due) /\
  d !! "minimum_due"%string = Some (opt_float mindue) /\
  d !! "new_balance"%string = Some (opt_float newbal) /\
  d !! "confidence"%string = Some (PFloat (Fin c)).
Proof. repeat split. Qed.

Lemma with_confidence_lookup (d : gmap string pyval) (key : string) :
  key <> "confidence"%string -> with_confidence d !! key = d !! key.
Proof. intros H. unfold with_confidence. by rewrite lookup_insert_ne. Qed.

Lemma empty_result_none (name : string) : all_fields_none (empty_result name).
Proof. repeat split. Qed.

Lemma result_dict_well_formed issuer last4 start stop due mindue newbal c :
  well_formed_result (result_dict issuer last4 start stop due mindue newbal c).
Proof.
  split.
  - unfold result_dict. rewrite !dom_insert_L. set_solver.
  - eexists. split; [reflexivity|]. rewrite !dom_insert_L. set_solver.
Qed.

Lemma with_confidence_well_formed (d : gmap string pyval) :
  well_formed_result d -> well_formed_result (with_confidence d).
Proof.
  intros [Hdom (period & Hp & Hpd)]. split.
  - unfold with_confidence. rewrite dom_insert_L, Hdom. set_solver.
  - exists period. by rewrite with_confidence_lookup.
Qed.

(** ** The shape of an extraction *)

(** What the [try] block of a parser returns: the empty result, or the
    dictionary of the fields it read, with its confidence. *)
Lemma extract_shape (R : runtime) (i : issuer) (path : pystr) (d : gmap string pyval) :
  issuer_extract R i path = Ok d ->
  d = empty_result (issuer_name i) \/
  exists text last4 start stop due mindue newbal,
    amount_field R (mindue_patterns i) text = Ok mindue /\
    amount_field R (newbal_patterns i) text = Ok newbal /\
    d = with_confidence
          (result_dict (issuer_name i) last4 start stop due mindue newbal 0).
Proof.
  destruct i; simpl; intros H.
  - unfold onecard_extract in H. bind_inv H.
    destruct (too_short R a); [left; congruence|].
    destruct (extract_dates R a) as [s e].
    do 5 bind_inv H. right. injection H as <-. eauto 10.
  - unfold buildingblocks_extract in H. bind_inv H.
    destruct (too_short R a); [left; congruence|].
    bind_inv H. destruct a0 as [s e].
    do 3 bind_inv H. right. injection H as <-. eauto 10.
  - unfold hdfc_extract in H. bind_inv H.
    destruct (too_short R a); [left; congruence|].
    do 2 bind_inv H. destruct a1 as [s e].
    do 3 bind_inv H. right. injection H as <-. eauto 10.
  - unfold amex_extract in H. bind_inv H.
    destruct (too_short R a); [left; congruence|].
    do 2 bind_inv H. destruct a1 as [s e].
    do 3 bind_inv H. right. injection H as <-. eauto 10.
  - unfold firstcitizens_extract in H. bind_inv H.
    destruct (too_short R a); [left; congruence|].
    do 2 bind_inv H. destruct a1 as [s e].
    do 3 bind_inv H. right. injection H as <-. eauto 10.
Qed.

Lemma parser_is_guarded_extract (R : runtime) (i : issuer) (path : pystr) :
  issuer_parser R i path =
  try_except (issuer_extract R i path) any_Exception
    (fun _ => Ok (empty_result (issuer_name i))).
Proof. by destruct i. Qed.

Lemma too_short_iff (R : runtime) (text : pystr) :
  too_short R text = true <-> text = [] \/ (length (strip R text) < 10)%nat.
Proof.
  unfold too_short. rewrite orb_true_iff, Nat.ltb_lt.
  destruct text; simpl; intuition congruence.
Qed.

Lemma extract_short (R : runtime) (i : issuer) (path text : pystr) :
  extract_text_with_ocr_fallback R path = Ok text ->
  too_short R text = true ->
  issuer_extract R i path = Ok (empty_result (issuer_name i)).
Proof.
  intros Ht Hs.
  destruct i; simpl;
    [unfold onecard_extract | unfold buildingblocks_extract | unfold hdfc_extract
    | unfold amex_extract | unfold firstcitizens_extract];
    rewrite Ht; simpl; by rewrite Hs.
Qed.

(** ** Strings *)

Lemma ascii_digit_not_space (R : runtime) (c : N) :
  ascii_digit c = true -> is_space R c = false /\ date_separator c = false.
Proof.
  unfold ascii_digit, is_space, is_ascii, ascii_space, date_separator.
  intros H. apply andb_true_iff in H as [H1 H2].
  apply N.leb_le in H1, H2.
  replace (c <? 128) with true by (symmetry; apply N.ltb_lt; lia).
  split.
  - repeat match goal with
           | |- context [?a <=? ?b] =>
               let E := fresh in destruct (N.leb_spec a b) as [E|E]
           end; simpl; try reflexivity; lia.
  - repeat match goal with
           | |- context [?a =? ?b] =>
               let E := fresh in destruct (N.eqb_spec a b) as [E|E]
           end; simpl; try reflexivity; lia.
Qed.

Lemma strip_unchanged (R : runtime) (s : pystr) :
  match s with c :: _ => is_space R c = false | [] => True end ->
  match rev s with c :: _ => is_space R c = false | [] => True end ->
  strip R s = s.
Proof.
  intros Hh Hl. unfold strip.
  assert (H1 : lstrip R s = s) by (destruct s; simpl; [|rewrite Hh]; reflexivity).
  rewrite H1.
  assert (H2 : lstrip R (rev s) = rev s)
    by (destruct (rev s); simpl; [|rewrite Hl]; reflexivity).
  by rewrite H2, rev_involutive.
Qed.

(** ** The matcher is sound for the language of a pattern *)

Section MatcherSound.
Context (R : runtime) (ic : bool) (Q : nat -> pystr -> Prop).

Lemma star_loop_sound (greedy : bool) (s : cset) (k : mstate -> option mstate)
    (rest : pystr) :
  forall pos prev caps res,
    caps_ok Q caps ->
    star_loop R ic greedy s k pos prev caps rest = Some res ->
    exists st', k st' = Some res /\
                reaches R ic Q (RStar greedy s) (MState pos prev rest caps) st'.
Proof.
  assert (Hhere : forall pos prev caps rest' res,
            caps_ok Q caps -> k (MState pos prev rest' caps) = Some res ->
            exists st', k st' = Some res /\
              reaches R ic Q (RStar greedy s) (MState pos prev rest' caps) st').
  { intros pos prev caps rest' res Hc Hk. eexists. split; [exact Hk|].
    split; [exact Hc|]. exists []. simpl. repeat split; auto. }
  induction rest as [|x rest IH]; intros pos prev caps res Hc H; simpl in H.
  - by apply Hhere.
  - destruct (cset_in R ic s x) eqn:Hx; [|by apply Hhere].
    assert (Hmore : star_loop R ic greedy s k (S pos) (Some x) caps rest = Some res ->
              exists st', k st' = Some res /\
                reaches R ic Q (RStar greedy s) (MState pos prev (x :: rest) caps) st').
    { intros Hl. destruct (IH _ _ _ _ Hc Hl) as (st' & Hk & Hcaps & w & Hw & Hrest & Hpos).
      exists st'. split; [exact Hk|]. split; [exact Hcaps|].
      exists (x :: w). simpl in *. repeat split.
      - by constructor.
      - by rewrite Hrest.
      - lia. }
    destruct greedy.
    + destruct (star_loop R ic true s k (S pos) (Some x) caps rest) eqn:Hl.
      * injection H as ->. by apply Hmore.
      * by apply Hhere.
    + destruct (k (MState pos prev (x :: rest) caps)) eqn:Hk.
      * injection H as ->. by apply Hhere.
      * by apply Hmore.
Qed.

Lemma rmatch_sound (r : regex) :
  groups_sound R ic Q r ->
  forall k st res,
    caps_ok Q (m_caps st) ->
    rmatch R ic r k st = Some res ->
    exists st', k st' = Some res /\ reaches R ic Q r st st'.
Proof.
  induction r as [|s|a IHa b IHb|a IHa b IHb|greedy s|n a IHa|s|];
    intros Hg k st res Hc H; simpl in H.
  - exists st. split; [exact H|]. split; [exact Hc|].
    exists []. simpl. repeat split; auto.
  - destruct (m_rest st) as [|x rest'] eqn:Hrest; [discriminate|].
    destruct (cset_in R ic s x) eqn:Hx; [|discriminate].
    eexists. split; [exact H|]. split; [exact Hc|].
    exists [x]. simpl. repeat split; eauto. lia.
  - destruct Hg as [Hga Hgb].
    destruct (IHa Hga _ _ _ Hc H) as (st1 & H1 & Hc1 & u & Hu & Hr1 & Hp1).
    destruct (IHb Hgb _ _ _ Hc1 H1) as (st2 & H2 & Hc2 & v & Hv & Hr2 & Hp2).
    exists st2. split; [exact H2|]. split; [exact Hc2|].
    exists (u ++ v). simpl. repeat split.
    + eauto.
    + by rewrite Hr1, Hr2, app_assoc.
    + rewrite length_app. lia.
  - destruct Hg as [Hga Hgb].
    destruct (rmatch R ic a k st) eqn:Ha.
    + injection H as ->.
      destruct (IHa Hga _ _ _ Hc Ha) as (st' & Hk & Hc' & w & Hw & Hr & Hp).
      exists st'. split; [exact Hk|]. split; [exact Hc'|]. exists w. simpl. auto.
    + destruct (IHb Hgb _ _ _ Hc H) as (st' & Hk & Hc' & w & Hw & Hr & Hp).
      exists st'. split; [exact Hk|]. split; [exact Hc'|]. exists w. simpl. auto.
  - destruct st as [pos prev rest caps]. by apply star_loop_sound.
  - destruct Hg as [Hq Hga].
    destruct (IHa Hga _ _ _ Hc H) as (st1 & H1 & Hc1 & w & Hw & Hr & Hp).
    assert (Htake : take (m_pos st1 - m_pos st) (m_rest st) = w).
    { rewrite Hr, Hp. replace (m_pos st + length w - m_pos st)%nat with (length w) by lia.
      by rewrite take_app_length. }
    rewrite Htake in H1.
    eexists. split; [exact H1|]. split.
    + intros j v. unfold set_cap. simpl. rewrite lookup_insert.
      case_decide as Hj; [|apply Hc1].
      intros [= <-]. subst j. by apply Hq.
    + exists w. simpl. auto.
  - exists st. assert (Hk : k st = Some res).
    { destruct (m_rest st) as [|x rest']; [exact H|].
      by destruct (cset_in R ic s x). }
    split; [exact Hk|]. split; [exact Hc|]. exists []. simpl. repeat split; auto.
  - destruct (xorb _ _); [|discriminate].
    exists st. split; [exact H|]. split; [exact Hc|]. exists []. simpl. repeat split; auto.
Qed.

Lemma match_here_sound (r : regex) (pos : nat) (prev : option N) (rest : pystr)
    (m : rematch) :
  groups_sound R ic Q r ->
  match_here R ic r pos prev rest = Some m -> caps_ok Q (m_groups m).
Proof.
  intros Hg. unfold match_here.
  destruct (rmatch R ic r Some _) as [st|] eqn:H; [|discriminate].
  intros [= <-]. simpl.
  apply (rmatch_sound r Hg) in H as (st' & [= ->] & Hc & _); [exact Hc|].
  intros n w. simpl. by rewrite lookup_empty.
Qed.

Lemma search_from_sound (r : regex) (rest : pystr) :
  groups_sound R ic Q r ->
  forall pos prev m,
    search_from R ic r pos prev rest = Some m -> caps_ok Q (m_groups m).
Proof.
  intros Hg. induction rest as [|c rest IH]; intros pos prev m H; simpl in H.
  - destruct (match_here R ic r pos prev []) eqn:Hm; [|discriminate].
    injection H as ->. by eapply match_here_sound.
  - destruct (match_here R ic r pos prev (c :: rest)) eqn:Hm.
    + injection H as ->. by eapply match_here_sound.
    + by eapply IH.
Qed.

(** The groups of a match found by [re.search] hold words of the language
    of their sub-pattern. *)
Lemma re_search_sound (r : regex) (s : pystr) (m : rematch) :
  groups_sound R ic Q r -> re_search R ic r s = Some m -> caps_ok Q (m_groups m).
Proof. intros Hg. by apply search_from_sound. Qed.

Lemma group_free_sound (r : regex) :
  group_free r = true -> groups_sound R ic Q r.
Proof.
  induction r; simpl; try discriminate; try tauto;
    rewrite andb_true_iff; tauto.
Qed.

End MatcherSound.

(** ** Groups that always take part in a match *)

Section MatcherCaptures.
Context (R : runtime) (ic : bool).

(** Where [rmatch] succeeds, its continuation succeeded. *)
Lemma rmatch_continues (r : regex) (k : mstate -> option mstate) (st res : mstate) :
  rmatch R ic r k st = Some res ->
  exists st', k st' = Some res /\
              forall n, is_Some (m_caps st !! n) -> is_Some (m_caps st' !! n).
Proof.
  revert k st res.
  induction r as [|s|a IHa b IHb|a IHa b IHb|greedy s|j a IHa|s|];
    intros k st res H; simpl in H.
  - eauto.
  - destruct (m_rest st) as [|x rest']; [discriminate|].
    destruct (cset_in R ic s x); [|discriminate]. eauto.
  - apply IHa in H as (st1 & H1 & Hk1). apply IHb in H1 as (st2 & H2 & Hk2). eauto.
  - destruct (rmatch R ic a k st) eqn:Ha.
    + injection H as ->. by apply IHa.
    + by apply IHb.
  - destruct st as [pos prev rest caps]. simpl in *.
    revert pos prev H. induction rest as [|x rest IH]; intros pos prev H; simpl in H.
    + eauto.
    + destruct (cset_in R ic s x); [|eauto].
      destruct greedy.
      * destruct (star_loop R ic true s k (S pos) (Some x) caps rest) eqn:Hl;
          [injection H as ->; by eapply IH | eauto].
      * destruct (k (MState pos prev (x :: rest) caps)) eqn:Hk;
          [injection H as ->; eauto | by eapply IH].
  - apply IHa in H as (st1 & H1 & Hk1).
    eexists. split; [exact H1|]. intros n Hn. unfold set_cap. simpl.
    rewrite lookup_insert. case_decide; [eauto | by apply Hk1].
  - exists st. split; [|auto].
    destruct (m_rest st) as [|x rest']; [exact H|].
    by destruct (cset_in R ic s x).
  - destruct (xorb _ _); [eauto | discriminate].
Qed.

Lemma rmatch_keeps_groups (r : regex) (k : mstate -> option mstate) :
  keeps_groups k -> keeps_groups (rmatch R ic r k).
Proof.
  intros Hk st res n H Hn.
  apply rmatch_continues in H as (st' & H & Hst). eapply Hk; eauto.
Qed.

Lemma rmatch_captures (n : nat) (r : regex) :
  captures n r = true ->
  forall k st res,
    keeps_groups k -> rmatch R ic r k st = Some res -> is_Some (m_caps res !! n).
Proof.
  induction r as [|s|a IHa b IHb|a IHa b IHb|greedy s|j a IHa|s|];
    simpl; try discriminate; intros Hc k st res Hk H.
  - apply orb_true_iff in Hc as [Hc|Hc].
    + eapply (IHa Hc); [|exact H]. by apply rmatch_keeps_groups.
    + apply rmatch_continues in H as (st1 & H1 & _). by eapply (IHb Hc).
  - apply andb_true_iff in Hc as [Ha Hb].
    destruct (rmatch R ic a k st) eqn:E.
    + injection H as ->. by eapply (IHa Ha).
    + by eapply (IHb Hb).
  - apply orb_true_iff in Hc as [Hc|Hc].
    + apply Nat.eqb_eq in Hc as ->.
      apply rmatch_continues in H as (st1 & H1 & _).
      eapply Hk; [exact H1|]. unfold set_cap. simpl.
      rewrite lookup_insert_eq. eauto.
    + eapply (IHa Hc); [|exact H].
      intros st1 res1 n1 H1 Hn1. eapply Hk; [exact H1|].
      unfold set_cap. simpl. rewrite lookup_insert. case_decide; eauto.
Qed.

(** A match of a pattern that captures group 1 with a sound sub-pattern. *)
Lemma match_here_group (Q : nat -> pystr -> Prop) (r : regex)
    (pos : nat) (prev : option N) (rest : pystr) (m : rematch) :
  groups_sound R ic Q r -> captures 1 r = true ->
  match_here R ic r pos prev rest = Some m ->
  exists w, group m 1 = Some w /\ Q 1%nat w.
Proof.
  intros Hg Hc H.
  pose proof (match_here_sound R ic Q r pos prev rest m Hg H) as Hcaps.
  unfold match_here in H.
  destruct (rmatch R ic r Some _) as [st|] eqn:E; [|discriminate].
  injection H as <-.
  apply (rmatch_captures 1 r Hc) in E as [w Hw].
  - exists w. split; [exact Hw|]. by apply Hcaps.
  - intros st1 res n [= ->]. auto.
Qed.

Lemma search_from_match (P : rematch -> Prop) (r : regex) (rest : pystr) :
  (forall pos prev rest' m, match_here R ic r pos prev rest' = Some m -> P m) ->
  forall pos prev m, search_from R ic r pos prev rest = Some m -> P m.
Proof.
  intros HP. induction rest as [|c rest IH]; intros pos prev m H; simpl in H.
  - destruct (match_here R ic r pos prev []) eqn:Hm; [|discriminate].
    injection H as ->. by eapply HP.
  - destruct (match_here R ic r pos prev (c :: rest)) eqn:Hm.
    + injection H as ->. by eapply HP.
    + by eapply IH.
Qed.

Lemma finditer_from_match (P : rematch -> Prop) (r : regex) (rest : pystr) :
  (forall pos prev rest' m, match_here R ic r pos prev rest' = Some m -> P m) ->
  forall skip pos prev, Forall P (finditer_from R ic r skip pos prev rest).
Proof.
  intros HP. induction rest as [|c rest IH]; intros skip pos prev.
  - destruct skip; simpl; [|constructor].
    destruct (match_here R ic r pos prev []) eqn:Hm; repeat constructor.
    by eapply HP.
  - destruct skip; simpl; [|apply IH].
    destruct (match_here R ic r pos prev (c :: rest)) eqn:Hm; [|apply IH].
    apply Forall_cons_2; [by eapply HP | apply IH].
Qed.

End MatcherCaptures.

(** ** The year check on card suffixes *)

Lemma first_some_prop {A B} (f : A -> option B) (P : B -> Prop) (l : list A) (b : B) :
  (forall a b, f a = Some b -> P b) -> first_some f l = Some b -> P b.
Proof.
  intros Hf. induction l as [|a l IH]; simpl; [discriminate|].
  destruct (f a) as [b'|] eqn:Ha; [|exact IH].
  intros [= <-]. by eapply Hf.
Qed.

Lemma year_checked (R : runtime) (s : pystr) (y : Z) :
  py_int R s = Ok y -> is_year y = false -> not_year_like R (Some s).
Proof. intros Hy Hn z Hz. congruence. Qed.

Lemma unless_year_checked (R : runtime) (candidate : pystr) (x : option pystr) :
  unless_year R candidate = Ok x -> not_year_like R x.
Proof.
  unfold unless_year. intros H. bind_inv H.
  destruct (is_year a) eqn:Hy; injection H as <-; simpl; [exact I|].
  by eapply year_checked.
Qed.

(** [extract_card_last4] never returns a suffix that reads as a year. *)
Lemma extract_card_last4_checked (R : runtime) (text : pystr)
    (context_keywords : option (list string)) :
  not_year_like R (extract_card_last4 R text context_keywords).
Proof.
  unfold extract_card_last4.
  destruct (is_empty text); [exact I|].
  destruct (last4_masked R text) as [s|] eqn:H1.
  { unfold last4_masked in H1.
    destruct (re_search R true masked_pattern text) as [m|]; [|discriminate].
    destruct (py_int R (group_text m 1)) as [y|e] eqn:Hy.
    - destruct (is_year y) eqn:Hyear; [discriminate|].
      injection H1 as <-. by eapply year_checked.
    - injection H1 as <-. intros z Hz. congruence. }
  assert (Hnear : forall m s, last4_near_keyword R text m = Some s ->
                              not_year_like R (Some s)).
  { intros m s H. unfold last4_near_keyword in H.
    destruct (py_int R (group_text m 1)) as [y|e] eqn:Hy; [|discriminate].
    destruct (is_year y) eqn:Hyear; [discriminate|]. cbn [negb] in H.
    match type of H with context [if ?b then _ else _] => destruct b end;
      [|discriminate].
    injection H as <-. by eapply year_checked. }
  destruct (last4_keywords R text _) as [s|] eqn:H2.
  { unfold last4_keywords in H2.
    apply (first_some_prop _ (fun s => not_year_like R (Some s))) in H2; [exact H2|].
    intros keyword s' H.
    apply (first_some_prop _ (fun s => not_year_like R (Some s))) in H;
      [exact H | exact Hnear]. }
  destruct (first_some (last4_in_line R) (split_lines text)) as [s|] eqn:H3; [|exact I].
  apply (first_some_prop _ (fun s => not_year_like R (Some s))) in H3; [exact H3|].
  intros line s' H. unfold last4_in_line in H.
  match type of H with context [if ?b then _ else _] => destruct b end;
    [|discriminate].
  destruct (re_search R false four_digits_pattern line) as [m|]; [|discriminate].
  destruct (py_int R (group_text m 1)) as [y|e] eqn:Hy; [|discriminate].
  destruct (is_year y) eqn:Hyear; [discriminate|].
  injection H as <-. by eapply year_checked.
Qed.

(** ** The card suffix in a result *)

Lemma first_some_In {A B} (f : A -> option B) (l : list A) (b : B) :
  first_some f l = Some b -> exists a, In a l /\ f a = Some b.
Proof.
  induction l as [|a l IH]; simpl; [discriminate|].
  destruct (f a) as [b'|] eqn:Ha.
  - intros [= <-]. eauto.
  - intros H. destruct (IH H) as (a' & Hin & Hf). eauto.
Qed.

Lemma lang_four_digits (R : runtime) (ic : bool) (w : pystr) :
  lang R ic (rep 4 CDigit) w -> four_digits R w.
Proof.
  simpl.
  intros (u1 & v1 & -> & (x1 & -> & H1) & u2 & v2 & -> & (x2 & -> & H2)
          & u3 & v3 & -> & (x3 & -> & H3) & u4 & v4 & -> & (x4 & -> & H4) & ->).
  split; [reflexivity|]. repeat constructor; assumption.
Qed.

Lemma seq_of_group_free (rs : list regex) :
  forallb group_free rs = true -> group_free (seq_of rs) = true.
Proof.
  induction rs as [|r rs IH]; simpl; [reflexivity|].
  intros H. apply andb_true_iff in H as [Hr Hrs].
  destruct rs as [|r' rs]; [exact Hr|].
  change (group_free r && group_free (seq_of (r' :: rs)) = true).
  by rewrite Hr, (IH Hrs).
Qed.

Lemma lit_group_free (s : string) : group_free (lit s) = true.
Proof.
  unfold lit. apply seq_of_group_free.
  induction (list_ascii_of_string s); simpl; auto.
Qed.

(** a pattern made of a prefix without groups, [(\d{4})] as group 1, and a
    look-around *)
Lemma suffix_pattern_sound (R : runtime) (ic : bool) (before after : regex) :
  group_free before = true -> group_free after = true ->
  groups_sound R ic (suffix_captured R)
    (RSeq before (RSeq (RGroup 1 (rep 4 CDigit)) after)) /\
  captures 1 (RSeq before (RSeq (RGroup 1 (rep 4 CDigit)) after)) = true.
Proof.
  intros Hb Ha. split.
  - split; [by apply group_free_sound|]. split; [|by apply group_free_sound].
    split; [|simpl; tauto]. intros w Hw _. by eapply lang_four_digits.
  - simpl. by rewrite orb_true_r.
Qed.

(** Group 1 of a match of such a pattern is four decimal digits. *)
Lemma suffix_pattern_match (R : runtime) (ic : bool) (r : regex)
    (pos : nat) (prev : option N) (rest : pystr) (m : rematch) :
  groups_sound R ic (suffix_captured R) r /\ captures 1 r = true ->
  match_here R ic r pos prev rest = Some m -> four_digits R (group_text m 1).
Proof.
  intros [Hg Hc] H.
  destruct (match_here_group R ic _ r pos prev rest m Hg Hc H) as (w & Hw & Hq).
  unfold group_text. rewrite Hw. simpl. by apply Hq.
Qed.

Lemma masked_pattern_sound (R : runtime) :
  groups_sound R true (suffix_captured R) masked_pattern /\
  captures 1 masked_pattern = true.
Proof.
  split; [|reflexivity].
  repeat (split; [by apply group_free_sound|]).
  split; [|simpl; tauto]. intros w Hw _. by eapply lang_four_digits.
Qed.

Lemma keyword_pattern_sound (R : runtime) (keyword : string) :
  groups_sound R true (suffix_captured R) (keyword_pattern keyword) /\
  captures 1 (keyword_pattern keyword) = true.
Proof.
  unfold keyword_pattern. cbn [seq_of]. split.
  - split; [apply group_free_sound, lit_group_free|].
    split; [by apply group_free_sound|]. split; [by apply group_free_sound|].
    split; [|simpl; tauto].
    split; [|simpl; tauto]. intros w Hw _. by eapply lang_four_digits.
  - cbn [captures]. by rewrite Nat.eqb_refl, !orb_true_r.
Qed.

Lemma four_digits_pattern_sound (R : runtime) :
  groups_sound R false (suffix_captured R) four_digits_pattern /\
  captures 1 four_digits_pattern = true.
Proof.
  split; [|reflexivity]. split; [|simpl; tauto].
  split; [|simpl; tauto]. intros w Hw _. by eapply lang_four_digits.
Qed.

Lemma own_suffix_pattern_sound (R : runtime) (i : issuer) :
  groups_sound R true (suffix_captured R) (own_suffix_pattern i) /\
  captures 1 (own_suffix_pattern i) = true.
Proof.
  destruct i; simpl own_suffix_pattern; try apply masked_pattern_sound.
  all: split; [|reflexivity].
  all: repeat (split; [by apply group_free_sound|]).
  all: split; [|simpl; tauto].
  all: split; [|simpl; tauto].
  all: intros w Hw _; by eapply lang_four_digits.
Qed.

Lemma re_search_suffix (R : runtime) (ic : bool) (r : regex) (s : pystr) (m : rematch) :
  groups_sound R ic (suffix_captured R) r /\ captures 1 r = true ->
  re_search R ic r s = Some m -> four_digits R (group_text m 1).
Proof.
  intros Hr. apply (search_from_match R ic (fun m => four_digits R (group_text m 1))).
  intros pos prev rest m'. by apply suffix_pattern_match.
Qed.

(** What [extract_card_last4] returns is four decimal digits. *)
Lemma extract_card_last4_four_digits (R : runtime) (text : pystr)
    (context_keywords : option (list string)) (s : pystr) :
  extract_card_last4 R text context_keywords = Some s -> four_digits R s.
Proof.
  unfold extract_card_last4.
  destruct (is_empty text); [discriminate|].
  destruct (last4_masked R text) as [s1|] eqn:H1.
  { intros [= <-]. unfold last4_masked in H1.
    destruct (re_search R true masked_pattern text) as [m|] eqn:Hm; [|discriminate].
    apply (re_search_suffix R true _ _ _ (masked_pattern_sound R)) in Hm.
    destruct (py_int R (group_text m 1)) as [y|e];
      [destruct (negb (is_year y)); [|discriminate]|]; by injection H1 as <-. }
  destruct (last4_keywords R text _) as [s2|] eqn:H2.
  { intros [= <-]. unfold last4_keywords in H2.
    apply first_some_In in H2 as (keyword & _ & H2).
    apply first_some_In in H2 as (m & Hin & H2).
    assert (Hall : Forall (fun m => four_digits R (group_text m 1))
                     (re_finditer R true (keyword_pattern keyword) text)).
    { apply (finditer_from_match R true (fun m => four_digits R (group_text m 1))).
      intros pos prev rest m'. apply suffix_pattern_match, keyword_pattern_sound. }
    apply in_rev, list_elem_of_In in Hin.
    pose proof (proj1 (Forall_forall _ _) Hall m Hin) as Hm.
    unfold last4_near_keyword in H2.
    destruct (py_int R (group_text m 1)) as [y|e]; [|discriminate].
    destruct (negb (is_year y)); [|discriminate].
    match type of H2 with context [if ?b then _ else _] => destruct b end;
      [|discriminate].
    by injection H2 as <-. }
  intros H3. apply first_some_In in H3 as (line & _ & H3).
  unfold last4_in_line in H3.
  match type of H3 with context [if ?b then _ else _] => destruct b end;
    [|discriminate].
  destruct (re_search R false four_digits_pattern line) as [m|] eqn:Hm; [|discriminate].
  apply (re_search_suffix R false _ _ _ (four_digits_pattern_sound R)) in Hm.
  destruct (py_int R (group_text m 1)) as [y|e]; [|discriminate].
  destruct (negb (is_year y)); [|discriminate].
  by injection H3 as <-.
Qed.

Lemma unless_year_inv (R : runtime) (candidate : pystr) (x : option pystr) :
  unless_year R candidate = Ok x ->
  x = None \/ x = Some candidate /\ not_year_like R (Some candidate).
Proof.
  intros H. pose proof (unless_year_checked R candidate x H) as Hx.
  unfold unless_year in H. bind_inv H.
  destruct (negb (is_year a)); injection H as <-; auto.
Qed.

Lemma falsy_or (x y : option pystr) (P : pystr -> Prop) :
  (forall s, x = Some s -> P s) -> (forall s, y = Some s -> P s) ->
  forall s, (if falsy x then y else x) = Some s -> P s.
Proof. intros Hx Hy s. destruct (falsy x); auto. Qed.

(** The card suffix of a result is None, or comes from [extract_card_last4]
    or from the parser's own pattern; [P] holds of it when it holds of
    both. *)
Lemma parser_card_last4 (R : runtime) (P : pystr -> Prop) (i : issuer) (path : pystr) :
  (forall text keywords s, extract_card_last4 R text keywords = Some s -> P s) ->
  (forall text m,
     re_search R true (own_suffix_pattern i) text = Some m ->
     (checks_year i = true -> not_year_like R (Some (group_text m 1))) ->
     P (group_text m 1)) ->
  returned_field (issuer_parser R i path) "card_last4" = Some PNone \/
  exists s, returned_field (issuer_parser R i path) "card_last4" = Some (PStr s) /\ P s.
Proof.
  intros Hx Hown. rewrite parser_is_guarded_extract.
  destruct (issuer_extract R i path) as [d|e] eqn:He; simpl; [|by left].
  assert (Hshape : d = empty_result (issuer_name i) \/
            exists last4 start stop due mindue newbal,
              (forall s, last4 = Some s -> P s) /\
              d = with_confidence
                    (result_dict (issuer_name i) last4 start stop due mindue newbal 0)).
  { destruct i; cbn [issuer_name issuer_extract own_suffix_pattern checks_year] in *.
    - unfold onecard_extract in He. bind_inv He.
      destruct (too_short R a); [left; congruence|].
      destruct (extract_dates R a) as [s e].
      do 5 bind_inv He. right. injection He as <-.
      do 6 eexists. split; [|reflexivity].
      apply falsy_or; [by eauto|].
      destruct (re_search R true OneCard.card_number_pattern a) eqn:Hm; [|by eauto].
      intros s' [= <-]. by eapply Hown.
    - unfold buildingblocks_extract in He. bind_inv He.
      destruct (too_short R a); [left; congruence|].
      bind_inv He. destruct a0 as [s e].
      do 3 bind_inv He. right. injection He as <-.
      do 6 eexists. split; [|reflexivity].
      apply falsy_or; [by eauto|].
      destruct (re_search R true BuildingBlocks.account_number_pattern a) eqn:Hm;
        [|by eauto].
      intros s' [= <-]. by eapply Hown.
    - unfold hdfc_extract in He. bind_inv He.
      destruct (too_short R a); [left; congruence|].
      do 2 bind_inv He. destruct a1 as [s e].
      do 3 bind_inv He. right. injection He as <-.
      do 6 eexists. split; [|reflexivity].
      apply falsy_or; [|by eauto].
      destruct (re_search R true masked_pattern a) eqn:Hm; [|by injection Ha0 as <-].
      apply unless_year_inv in Ha0 as [->|[-> Hy]]; [discriminate|].
      intros s' [= <-]. by eapply Hown.
    - unfold amex_extract in He. bind_inv He.
      destruct (too_short R a); [left; congruence|].
      do 2 bind_inv He. destruct a1 as [s e].
      do 3 bind_inv He. right. injection He as <-.
      do 6 eexists. split; [|reflexivity].
      apply falsy_or; [|by eauto].
      destruct (re_search R true Amex.last4_pattern a) eqn:Hm; [|by injection Ha0 as <-].
      apply unless_year_inv in Ha0 as [->|[-> Hy]]; [discriminate|].
      intros s' [= <-]. by eapply Hown.
    - unfold firstcitizens_extract in He. bind_inv He.
      destruct (too_short R a); [left; congruence|].
      do 2 bind_inv He. destruct a1 as [s e].
      do 3 bind_inv He. right. injection He as <-.
      do 6 eexists. split; [|reflexivity].
      intros s' ->.
      destruct (falsy _) eqn:Hf; [|injection Ha0 as Ha0; by eauto].
      destruct (re_search R true FirstCitizens.account_number_pattern a) eqn:Hm;
        [|injection Ha0 as Ha0; by eauto].
      apply bind_Ok in Ha0 as (checked & Hchecked & Ha0).
      apply unless_year_inv in Hchecked as [->|[-> Hy]];
        injection Ha0 as Ha0; [by eauto|].
      rewrite <- Ha0. by eapply Hown. }
  destruct Hshape as [->|(l & s & e' & u & m & n & Hl & ->)]; [by left|].
  rewrite with_confidence_lookup by discriminate.
  destruct (result_dict_lookups (issuer_name i) l s e' u m n 0) as (_ & -> & _).
  destruct l as [s'|]; simpl; [right; eauto | by left].
Qed.

(** In every result, card_last4 is None or four decimal digits. *)
Lemma card_last4_four_digits (R : runtime) (i : issuer) (path : pystr) :
  returned_field (issuer_parser R i path) "card_last4" = Some PNone \/
  exists s, returned_field (issuer_parser R i path) "card_last4" = Some (PStr s) /\
            four_digits R s.
Proof.
  apply parser_card_last4.
  - apply extract_card_last4_four_digits.
  - intros text m Hm _.
    exact (re_search_suffix R true _ text m (own_suffix_pattern_sound R i) Hm).
Qed.

(** [parse_hdfc], [parse_amex] and [parse_firstcitizens] check the year on
    each of their paths: their card_last4 is None or does not read as a year
    from 1900 to 2099. *)
Lemma checked_parsers_no_year (R : runtime) (i : issuer) (path : pystr) :
  checks_year i = true ->
  returned_field (issuer_parser R i path) "card_last4" = Some PNone \/
  exists s, returned_field (issuer_parser R i path) "card_last4" = Some (PStr s) /\
            not_year_like R (Some s).
Proof.
  intros Hi. apply (parser_card_last4 R (fun s => not_year_like R (Some s))).
  - intros text keywords s Hs.
    pose proof (extract_card_last4_checked R text keywords) as H. by rewrite Hs in H.
  - intros text m _ Hy. by apply Hy.
Qed.

(** ** C1: a year-like card suffix *)

(** C1.  [parse_onecard] returns a year-like card suffix: on a document
    whose text is "Card Number: 2025", [extract_card_last4] rejects 2025 as
    a year and finds nothing else, and the parser's own pattern then
    captures "2025" without the year check; the result has card_last4 =
    "2025", whose integer value lies in [1900, 2099]. *)
Theorem onecard_returns_year_like_suffix (R : runtime) (path : pystr) :
  extract_text_with_ocr_fallback R path = Ok (str "Card Number: 2025") ->
  extract_card_last4 R (str "Card Number: 2025")
    (Some ["Card"; "Account"; "OneCard"]%string) = None /\
  returned_field (parse_onecard R path) "card_last4" = Some (PStr (str "2025")) /\
  py_int R (str "2025") = Ok 2025%Z.
Proof.
  intros H. split; [vm_compute; reflexivity|].
  unfold parse_onecard, onecard_extract. rewrite H.
  split; vm_compute; reflexivity.
Qed.

Lemma onecard_returns_year_like_suffix_witness :
  let R := reference_runtime (str "Card Number: 2025") ValueError in
  extract_card_last4 R (str "Card Number: 2025")
    (Some ["Card"; "Account"; "OneCard"]%string) = None /\
  returned_field (parse_onecard R (str "onecard/september.pdf")) "card_last4"
    = Some (PStr (str "2025")) /\
  py_int R (str "2025") = Ok 2025%Z.
Proof.
  intros R. apply (onecard_returns_year_like_suffix R (str "onecard/september.pdf")).
  reflexivity.
Defined.

(** [parse_buildingblocks] has the same defect. *)
Lemma buildingblocks_returns_year_like_suffix (R : runtime) (path : pystr) :
  extract_text_with_ocr_fallback R path = Ok (str "Account Number: 2025") ->
  returned_field (parse_buildingblocks R path) "card_last4"
    = Some (PStr (str "2025")).
Proof.
  intros H. unfold parse_buildingblocks, buildingblocks_extract. rewrite H.
  vm_compute. reflexivity.
Qed.

(** [parse_firstcitizens], which has the same pattern, checks the year. *)
Lemma firstcitizens_rejects_year_like_suffix (R : runtime) (path : pystr) :
  extract_text_with_ocr_fallback R path = Ok (str "Account Number: 2025") ->
  returned_field (parse_firstcitizens R path) "card_last4" = Some PNone.
Proof.
  intros H. unfold parse_firstcitizens, firstcitizens_extract. rewrite H.
  vm_compute. reflexivity.
Qed.

(** ** C2 and C3: the confidence score *)

(** C2.  For every result (its dates being non-empty strings when
    present), [calculate_confidence] is (p + q) / 4.5 rounded to two
    decimals, where p counts one point for each of card_last4,
    billing_period (only when both its start and its end are present),
    payment_due_date and new_balance that is present, and q is 0.5 when
    minimum_due is present and 0 otherwise; a billing period with one end
    only adds nothing. *)
Theorem confidence_formula
    (name : string) (last4 start stop due : option pystr)
    (mindue newbal : option pyfloat) (c : Q) :
  dates_nonempty start stop ->
  calculate_confidence (result_dict name last4 start stop due mindue newbal c)
  = spec_confidence last4 start stop due mindue newbal.
Proof.
  intros [Hs He].
  destruct last4, start as [[|]|], stop as [[|]|], due, mindue, newbal;
    try congruence; vm_compute; reflexivity.
Qed.

Lemma confidence_formula_witness :
  calculate_confidence
    (result_dict "HDFC" (Some (str "4321")) (Some (str "2025-08-01")) None None
       (Some (Fin 1500)) (Some (Fin (1172839 # 50))) 0)
  = (14 # 25)%Q.
Proof.
  rewrite (confidence_formula "HDFC" (Some (str "4321")) (Some (str "2025-08-01"))
             None None (Some (Fin 1500)) (Some (Fin (1172839 # 50))) 0).
  - reflexivity.
  - split; discriminate.
Defined.

(** The ten values the score can take. *)
Lemma confidence_values
    (name : string) (last4 start stop due : option pystr)
    (mindue newbal : option pyfloat) (c : Q) :
  In (calculate_confidence (result_dict name last4 start stop due mindue newbal c))
     [0; 11 # 100; 11 # 50; 33 # 100; 11 # 25; 14 # 25; 67 # 100; 39 # 50;
      89 # 100; 1]%Q.
Proof.
  destruct last4, start as [[|]|], stop as [[|]|], due, mindue, newbal;
    vm_compute; tauto.
Qed.

(** C3, as stated, fails: with only minimum_due present, card_last4, the
    billing period, payment_due_date and new_balance are all absent and the
    confidence is 0.11, not 0.0. *)
Lemma confidence_nonzero_with_minimum_due_only :
  let d := result_dict "HDFC" None None None None (Some (Fin 100)) None 0 in
  (d !! "card_last4"%string = Some PNone /\
   period_get d "start" = Some PNone /\
   period_get d "end" = Some PNone /\
   d !! "payment_due_date"%string = Some PNone /\
   d !! "new_balance"%string = Some PNone) /\
  calculate_confidence d = (11 # 100)%Q /\
  ~ (calculate_confidence d == 0)%Q.
Proof.
  split; [repeat split|]. split; [reflexivity|]. vm_compute. discriminate.
Qed.

(** C3, amended.  The confidence lies in [0, 1], and it is 0.0 exactly when
    card_last4, payment_due_date, new_balance and minimum_due are all
    absent and the billing period lacks its start or its end. *)
Theorem confidence_range_and_zero
    (name : string) (last4 start stop due : option pystr)
    (mindue newbal : option pyfloat) (c : Q) :
  dates_nonempty start stop ->
  let conf :=
    calculate_confidence (result_dict name last4 start stop due mindue newbal c) in
  (0 <= conf <= 1)%Q /\
  (conf = 0%Q <->
   last4 = None /\ (start = None \/ stop = None) /\ due = None /\
   newbal = None /\ mindue = None).
Proof.
  intros [Hs He].
  destruct last4, start as [[|]|], stop as [[|]|], due, mindue, newbal;
    try congruence; vm_compute;
    (split; [split; discriminate|]);
    split; try discriminate; intuition discriminate.
Qed.

Lemma confidence_range_and_zero_witness :
  let conf :=
    calculate_confidence
      (result_dict "AMEX" None (Some (str "2025-08-01")) None None None None 0) in
  (0 <= conf <= 1)%Q /\
  (conf = 0%Q <->
   @None pystr = None /\ (Some (str "2025-08-01") = None \/ @None pystr = None) /\
   @None pystr = None /\ @None pyfloat = None /\ @None pyfloat = None).
Proof.
  apply (confidence_range_and_zero "AMEX" None (Some (str "2025-08-01")) None None
           None None 0).
  split; discriminate.
Defined.

(** ** C4: documents without text *)

(** C4.  When the text acquired from a document is empty, or has fewer than
    10 characters once stripped, each of the five issuer parsers returns a
    result in which card_last4, both ends of billing_period,
    payment_due_date, minimum_due and new_balance are None, confidence is
    0.0 and issuer is the parser's issuer name. *)
Theorem short_text_gives_empty_result
    (R : runtime) (i : issuer) (path text : pystr) :
  extract_text_with_ocr_fallback R path = Ok text ->
  text = [] \/ (length (strip R text) < 10)%nat ->
  exists d, issuer_parser R i path = Ok d /\
            all_fields_none d /\
            d !! "confidence"%string = Some (PFloat (Fin 0)) /\
            d !! "issuer"%string = Some (PStr (str (issuer_name i))).
Proof.
  intros Ht Hs. apply too_short_iff in Hs.
  exists (empty_result (issuer_name i)).
  rewrite parser_is_guarded_extract, (extract_short R i path text Ht Hs).
  repeat split.
Qed.

Lemma short_text_gives_empty_result_witness :
  exists d, issuer_parser (reference_runtime (str "Card 1234") ValueError) IHdfc
              (str "hdfc/scan.pdf") = Ok d /\
            all_fields_none d /\
            d !! "confidence"%string = Some (PFloat (Fin 0)) /\
            d !! "issuer"%string = Some (PStr (str "HDFC")).
Proof.
  apply (short_text_gives_empty_result
           (reference_runtime (str "Card 1234") ValueError) IHdfc
           (str "hdfc/scan.pdf") (str "Card 1234")).
  - reflexivity.
  - right. vm_compute. lia.
Defined.

(** ** C5: parsers do not raise *)

(** C5.  Each of the five issuer parsers returns a result for every input
    and never raises: the result has exactly the keys issuer, card_last4,
    billing_period (with start and end), payment_due_date, minimum_due,
    new_balance and confidence; and whenever the extraction raises an
    exception, the parser returns the result with every extracted field
    None, confidence 0.0 and the issuer set. *)
Theorem parsers_never_raise (R : runtime) (i : issuer) (path : pystr) :
  (exists d, issuer_parser R i path = Ok d /\ well_formed_result d) /\
  (forall e, issuer_extract R i path = Raise e ->
     exists d, issuer_parser R i path = Ok d /\
               all_fields_none d /\
               d !! "confidence"%string = Some (PFloat (Fin 0)) /\
               d !! "issuer"%string = Some (PStr (str (issuer_name i)))).
Proof.
  rewrite parser_is_guarded_extract. split.
  - destruct (issuer_extract R i path) as [d|e] eqn:He; simpl.
    + exists d. split; [reflexivity|].
      apply extract_shape in He as [->|(t & l & s & e & u & m & n & _ & _ & ->)].
      * unfold empty_result. apply result_dict_well_formed.
      * apply with_confidence_well_formed, result_dict_well_formed.
    + eexists. split; [reflexivity|]. unfold empty_result. apply result_dict_well_formed.
  - intros e ->. simpl. eexists. split; [reflexivity|]. repeat split.
Qed.

(** An extraction that does raise: the date parser overflows on the due
    date, and the parser still returns the empty result. *)
Lemma parsers_never_raise_witness :
  let R := reference_runtime (str "Payment Due Date: 1/1/99999999999999999999")
             OverflowError in
  issuer_extract R IAmex [] = Raise OverflowError /\
  exists d, issuer_parser R IAmex [] = Ok d /\
            all_fields_none d /\
            d !! "confidence"%string = Some (PFloat (Fin 0)) /\
            d !! "issuer"%string = Some (PStr (str "AMEX")).
Proof.
  intros R.
  assert (He : issuer_extract R IAmex [] = Raise OverflowError) by (vm_compute; reflexivity).
  split; [exact He|].
  exact (proj2 (parsers_never_raise R IAmex []) OverflowError He).
Defined.

(** ** C6: dispatch *)

Lemma issuer_keys_distinct (i j : issuer) :
  str (issuer_key i) = str (issuer_key j) -> i = j.
Proof. destruct i, j; intros H; try reflexivity; vm_compute in H; discriminate. Qed.

(** C6.  For each of the five supported issuer strings [parse_pdf] returns
    the result of the corresponding parser; for every other issuer string
    it returns a mapping whose only key is "error", holding a fixed
    message. *)
Theorem parse_pdf_dispatch (R : runtime) (path issuer : pystr) :
  (forall i, issuer = str (issuer_key i) ->
     parse_pdf R path issuer = issuer_parser R i path) /\
  ((forall i, issuer <> str (issuer_key i)) ->
     exists d, parse_pdf R path issuer = Ok d /\
               dom d = {["error"%string]} /\
               d !! "error"%string = Some (PStr (str "issuer not supported"))).
Proof.
  split.
  - intros i ->. by destruct i.
  - intros Hno. unfold parse_pdf.
    repeat case_bool_decide;
      try (exfalso;
           first [ by apply (Hno IOneCard) | by apply (Hno IBuildingBlocks)
                 | by apply (Hno IHdfc) | by apply (Hno IAmex)
                 | by apply (Hno IFirstCitizens) ]).
    eexists. split; [reflexivity|]. split.
    + apply dom_singleton_L.
    + apply lookup_singleton_eq.
Qed.

(** ** C7: currency *)

Lemma py_float_raises (R : runtime) (s : pystr) (e : exn) :
  py_float R s = Raise e -> e = ValueError.
Proof.
  unfold py_float. destruct (split_sign _) as [negative body].
  destruct (parse_magnitude R body) as [[m x| |]|]; congruence.
Qed.


(** [None], a string that is empty once the symbols are deleted, and a
    string that is no float give [None]. *)
Lemma normalize_currency_none (R : runtime) :
  normalize_currency R ArgNone = Ok None /\
  (forall s, re_sub_delete R false currency_symbols s = [] ->
     normalize_currency R (ArgStr s) = Ok None) /\
  (forall s e, py_float R (re_sub_delete R false currency_symbols s) = Raise e ->
     normalize_currency R (ArgStr s) = Ok None).
Proof.
  split; [reflexivity|]. split.
  - intros s H. simpl. by rewrite H.
  - intros s e H. simpl. destruct (is_empty _); [reflexivity|].
    rewrite H. simpl. by rewrite (py_float_raises R _ e H).
Qed.

(** Currency strings: 1234.56 is 30864/25. *)
Lemma normalize_currency_examples (R : runtime) :
  normalize_currency R (ArgStr (RUPEE :: str "1,234.56")) = Ok (Some (Fin (30864 # 25))) /\
  normalize_currency R (ArgStr (str "$1,234.56")) = Ok (Some (Fin (30864 # 25))) /\
  normalize_currency R (ArgStr (str "1,234.56")) = Ok (Some (Fin (30864 # 25))) /\
  normalize_currency R (ArgStr (str "1234")) = Ok (Some (Fin 1234)) /\
  normalize_currency R (ArgStr (str "  ")) = Ok None /\
  normalize_currency R (ArgStr (str "")) = Ok None /\
  normalize_currency R (ArgStr (str "12.34.56")) = Ok None.
Proof. repeat split; vm_compute; reflexivity. Qed.

(** C7.  [normalize_currency] does raise: given the integer 10^400, a
    numeric value as its docstring allows, [float(value)] raises
    [OverflowError], which [except (ValueError, TypeError)] does not
    catch. *)
Theorem normalize_currency_raises_on_large_int (R : runtime) :
  normalize_currency R (ArgInt (10 ^ 400)) = Raise OverflowError.
Proof. vm_compute. reflexivity. Qed.

(** ** Currency strings denote their decimal value *)

Section Decimal.
Context (R : runtime).

Lemma digit_value_ascii (d : N) : d < 10 -> digit_value R (48 + d) = Some d.
Proof.
  intros H. unfold digit_value, is_ascii, ascii_digit.
  replace (48 + d <? 128) with true by (symmetry; apply N.ltb_lt; lia).
  replace (48 <=? 48 + d) with true by (symmetry; apply N.leb_le; lia).
  replace (48 + d <=? 57) with true by (symmetry; apply N.leb_le; lia).
  simpl. f_equal. lia.
Qed.

Lemma digitpart_tail_digits (ds : list N) (rest : pystr) :
  Forall (fun d => d < 10) ds -> ends_digits rest ->
  digitpart_tail R (digits_text ds ++ rest) = (ds, rest).
Proof.
  intros Hds Hrest. induction Hds as [|d ds Hd _ IH]; simpl.
  - destruct rest as [|c rest]; [reflexivity|]. simpl in Hrest. subst c.
    reflexivity.
  - by rewrite (digit_value_ascii d Hd), IH.
Qed.

Lemma digitpart_digits (ds : list N) (rest : pystr) :
  ds <> [] -> Forall (fun d => d < 10) ds -> ends_digits rest ->
  digitpart R (digits_text ds ++ rest) = Some (ds, rest).
Proof.
  intros Hne Hds Hrest. destruct ds as [|d ds]; [congruence|].
  apply Forall_cons in Hds as [Hd Hds]. simpl.
  by rewrite (digit_value_ascii d Hd), (digitpart_tail_digits ds rest Hds Hrest).
Qed.

Lemma parse_number_decimal (ip fp : list N) :
  ip <> [] -> Forall (fun d => d < 10) ip -> Forall (fun d => d < 10) fp ->
  parse_number R (decimal_text ip fp)
  = Some (MFin (decimal_of (ip ++ fp)) (- Z.of_nat (length fp))).
Proof.
  intros Hne Hip Hfp. unfold parse_number, decimal_text.
  destruct fp as [|f fp].
  - rewrite (digitpart_digits ip [] Hne Hip I). simpl. by rewrite app_nil_r.
  - rewrite (digitpart_digits ip (46 :: digits_text (f :: fp)) Hne Hip eq_refl).
    change (46 =? 46) with true. cbn iota.
    rewrite <- (app_nil_r (digits_text (f :: fp))).
    by rewrite (digitpart_digits (f :: fp) [] ltac:(discriminate) Hfp I).
Qed.

Lemma digits_text_head (ds : list N) (rest : pystr) :
  ds <> [] -> Forall (fun d => d < 10) ds ->
  exists c tail, digits_text ds ++ rest = c :: tail /\ ascii_digit c = true.
Proof.
  intros Hne Hds. destruct ds as [|d ds]; [congruence|].
  apply Forall_cons in Hds as [Hd _]. simpl. eexists _, _. split; [reflexivity|].
  unfold ascii_digit. apply andb_true_iff. split; apply N.leb_le; lia.
Qed.

Lemma decimal_text_last (ip fp : list N) :
  ip <> [] -> Forall (fun d => d < 10) ip -> Forall (fun d => d < 10) fp ->
  exists c tail, rev (decimal_text ip fp) = c :: tail /\ ascii_digit c = true.
Proof.
  intros Hne Hip Hfp. unfold decimal_text.
  assert (Hlast : forall ds pre, ds <> [] -> Forall (fun d => d < 10) ds ->
            exists c tail, rev (pre ++ digits_text ds) = c :: tail /\
                           ascii_digit c = true).
  { intros ds pre Hn Hd. destruct (exists_last Hn) as (ds' & d & ->).
    apply Forall_app in Hd as [_ Hd]. apply Forall_cons in Hd as [Hd _].
    unfold digits_text. rewrite map_app, app_assoc. simpl. rewrite rev_unit.
    eexists _, _. split; [reflexivity|].
    unfold ascii_digit. apply andb_true_iff. split; apply N.leb_le; lia. }
  destruct fp as [|f fp].
  - rewrite app_nil_r. by apply (Hlast ip []).
  - replace (digits_text ip ++ 46 :: digits_text (f :: fp))
      with ((digits_text ip ++ [46]) ++ digits_text (f :: fp))
      by (by rewrite <- app_assoc).
    by apply Hlast.
Qed.

(** [float] of a decimal numeral is its value, or an infinity beyond the
    range of a float. *)
Lemma py_float_decimal (ip fp : list N) :
  ip <> [] -> Forall (fun d => d < 10) ip -> Forall (fun d => d < 10) fp ->
  py_float R (decimal_text ip fp)
  = Ok (float_of_magnitude false (decimal_value ip fp)).
Proof.
  intros Hne Hip Hfp.
  destruct (digits_text_head ip (match fp with [] => [] | _ :: _ => 46 :: digits_text fp end)
              Hne Hip) as (c & tail & Hc & Hd).
  destruct (decimal_text_last ip fp Hne Hip Hfp) as (c' & tail' & Hc' & Hd').
  assert (Hstrip : strip R (decimal_text ip fp) = decimal_text ip fp).
  { apply strip_unchanged.
    - unfold decimal_text. rewrite Hc. by destruct (ascii_digit_not_space R c Hd).
    - rewrite Hc'. by destruct (ascii_digit_not_space R c' Hd'). }
  unfold py_float. rewrite Hstrip.
  assert (Hsign : split_sign (decimal_text ip fp) = (false, decimal_text ip fp)).
  { unfold decimal_text. rewrite Hc. unfold split_sign, ascii_digit in *.
    apply andb_true_iff in Hd as [H1 H2]. apply N.leb_le in H1, H2.
    replace (c =? 45) with false by (symmetry; apply N.eqb_neq; lia).
    by replace (c =? 43) with false by (symmetry; apply N.eqb_neq; lia). }
  rewrite Hsign.
  assert (Hmag : parse_magnitude R (decimal_text ip fp)
                 = parse_number R (decimal_text ip fp)).
  { unfold parse_magnitude, decimal_text. rewrite Hc.
    assert (Hl : ascii_lower c = c).
    { unfold ascii_lower, ascii_upper, ascii_digit in *.
      apply andb_true_iff in Hd as [H1 H2]. apply N.leb_le in H1, H2.
      by replace (65 <=? c) with false by (symmetry; apply N.leb_gt; lia). }
    unfold ascii_digit in Hd. apply andb_true_iff in Hd as [H1 H2].
    apply N.leb_le in H1, H2.
    cbn [map]. rewrite Hl.
    repeat match goal with
           | |- context [bool_decide (?a = ?b)] =>
               destruct (bool_decide_reflect (a = b)) as [Hx|_];
               [exfalso; injection Hx as Hx _; vm_compute in Hx; lia|]
           end.
    reflexivity. }
  by rewrite Hmag, (parse_number_decimal ip fp Hne Hip Hfp).
Qed.

(** A currency string whose symbols, commas and whitespace leave a decimal
    numeral normalizes to the value of that numeral. *)
Lemma normalize_currency_decimal (s : pystr) (ip fp : list N) :
  ip <> [] -> Forall (fun d => d < 10) ip -> Forall (fun d => d < 10) fp ->
  re_sub_delete R false currency_symbols s = decimal_text ip fp ->
  normalize_currency R (ArgStr s)
  = Ok (Some (float_of_magnitude false (decimal_value ip fp))).
Proof.
  intros Hne Hip Hfp Hs. simpl. rewrite Hs.
  destruct (digits_text_head ip (match fp with [] => [] | _ :: _ => 46 :: digits_text fp end)
              Hne Hip) as (c & tail & Hc & _).
  replace (is_empty (decimal_text ip fp)) with false
    by (unfold decimal_text; by rewrite Hc).
  by rewrite (py_float_decimal ip fp Hne Hip Hfp).
Qed.

End Decimal.

(** ** C8: dates *)

Lemma digit_char (k : N) : ascii_digit (48 + k mod 10) = true.
Proof.
  pose proof (N.mod_lt k 10 ltac:(discriminate)) as H.
  generalize dependent (k mod 10). intros r Hr.
  unfold ascii_digit. apply andb_true_iff. split; apply N.leb_le; lia.
Qed.

Lemma fixed_width_digits (w : nat) (n : N) :
  length (fixed_width w n) = w /\ forallb ascii_digit (fixed_width w n) = true.
Proof.
  revert n. induction w as [|w IH]; intros n; simpl; [auto|].
  destruct (IH (n / 10)) as [Hl Hd]. split.
  - rewrite length_app, Hl. simpl. lia.
  - rewrite forallb_app, Hd. simpl. by rewrite digit_char.
Qed.

Lemma decimal_of_snoc (ds : list N) (x : N) :
  decimal_of (ds ++ [x]) = 10 * decimal_of ds + x.
Proof. unfold decimal_of. by rewrite fold_left_app. Qed.





Lemma valid_date_bounds (y m d : N) :
  valid_date y m d = true ->
  1000 <= y <= 9999 /\ 1 <= m <= 12 /\ 1 <= d <= 31.
Proof.
  unfold valid_date, days_in_month. intros H.
  repeat (apply andb_true_iff in H as [H ?]).
  repeat match goal with H : (_ <=? _) = true |- _ => apply N.leb_le in H end.
  repeat split; try assumption.
  repeat match goal with
         | H : context [if ?b then _ else _] |- _ => destruct b
         end; lia.
Qed.

(** *** Fields of a date *)

















(** *** The grammar on dates in day/month/year order *)





















(** ** C9: amounts are not negative *)

Lemma cset_in_symbol (R : runtime) (ic : bool) (c x : N) :
  ascii_alpha c = false -> cset_in R ic (CLit c) x = (x =? c).
Proof. simpl. intros ->. by rewrite andb_false_r. Qed.

Lemma cset_in_amount_class (R : runtime) (ic : bool) (x : N) :
  cset_in R ic (cls [CDigit; CLit (ch ","); CLit (ch "."); CSpace]) x
  = is_digit R x || ((x =? 44) || ((x =? 46) || is_space R x)).
Proof.
  change (cls [CDigit; CLit (ch ","); CLit (ch "."); CSpace])
    with (COr CDigit (COr (CLit 44) (COr (CLit 46) CSpace))).
  change (is_digit R x || (cset_in R ic (CLit 44) x
            || (cset_in R ic (CLit 46) x || is_space R x)) = 
          is_digit R x || ((x =? 44) || ((x =? 46) || is_space R x))).
  by rewrite !cset_in_symbol.
Qed.

Lemma cset_in_glyph_class (R : runtime) (ic : bool) (x : N) :
  cset_in R ic (cls [CLit RUPEE; CLit (ch "$")]) x = (x =? RUPEE) || (x =? 36).
Proof.
  change (cls [CLit RUPEE; CLit (ch "$")]) with (COr (CLit RUPEE) (CLit 36)).
  change (cset_in R ic (CLit RUPEE) x || cset_in R ic (CLit 36) x
          = (x =? RUPEE) || (x =? 36)).
  by rewrite !cset_in_symbol.
Qed.

Lemma lang_amount (R : runtime) (w : pystr) :
  lang R true amount w -> Forall (fun c => amount_char R c = true) w.
Proof.
  assert (Hcur : forall x,
            cset_in R true (cls [CDigit; CLit (ch ","); CLit (ch "."); CSpace]) x = true ->
            amount_char R x = true).
  { intros x. rewrite cset_in_amount_class. unfold amount_char.
    intros H. repeat (apply orb_true_iff in H as [H|H]); rewrite H;
      repeat (rewrite ?orb_true_r, ?orb_true_l); reflexivity. }
  intros (u & v & -> & Hu & (y & z & -> & (x & -> & Hx) & Hz)).
  apply Forall_app. split.
  - destruct Hu as [(g & -> & Hg)| ->]; [|constructor].
    repeat constructor. unfold amount_char. rewrite cset_in_glyph_class in Hg.
    apply orb_true_iff in Hg as [Hg|Hg]; rewrite Hg;
      repeat (rewrite ?orb_true_r, ?orb_true_l); reflexivity.
  - constructor; [by apply Hcur|].
    simpl in Hz. eapply Forall_impl; [exact Hz|]. exact Hcur.
Qed.

Lemma amount_after_sound (R : runtime) (label : regex) :
  group_free label = true ->
  groups_sound R true (amount_captured R) (amount_after label).
Proof.
  intros Hl. unfold amount_after. simpl. split; [by apply group_free_sound|].
  split; [tauto|]. split; [|tauto].
  intros w Hw _. by apply lang_amount.
Qed.

(** the patterns for minimum_due and new_balance are a label, a colon or
    spaces, and the amount in group 1 *)
Lemma amount_patterns_sound (R : runtime) (i : issuer) :
  Forall (groups_sound R true (amount_captured R)) (mindue_patterns i ++ newbal_patterns i).
Proof.
  destruct i; simpl;
    repeat (apply Forall_cons_2; [by apply amount_after_sound|]);
    apply Forall_nil_2.
Qed.

Lemma first_match_sound (R : runtime) (Q : nat -> pystr -> Prop)
    (patterns : list regex) (text : pystr) (m : rematch) :
  Forall (groups_sound R true Q) patterns ->
  first_match R patterns text = Some m -> caps_ok Q (m_groups m).
Proof.
  unfold first_match.
  induction 1 as [|p ps Hp _ IH]; simpl; [discriminate|].
  destruct (re_search R true p text) eqn:Hs.
  - intros [= <-]. by eapply re_search_sound.
  - exact IH.
Qed.

Lemma lstrip_Forall (R : runtime) (P : N -> Prop) (s : pystr) :
  Forall P s -> Forall P (lstrip R s).
Proof.
  induction 1 as [|c s Hc Hs IH]; simpl; [constructor|].
  destruct (is_space R c); [exact IH | by constructor].
Qed.

Lemma strip_Forall (R : runtime) (P : N -> Prop) (s : pystr) :
  Forall P s -> Forall P (strip R s).
Proof.
  intros H. unfold strip.
  apply Forall_rev, lstrip_Forall, Forall_rev, lstrip_Forall, H.
Qed.

Lemma ascii_lower_n (c : N) : ascii_lower c = 110 -> c = 110 \/ c = 78.
Proof.
  unfold ascii_lower, ascii_upper.
  destruct (65 <=? c) eqn:H1, (c <=? 90) eqn:H2; simpl; lia.
Qed.

(** A numeral without sign whose characters are unsigned is not nan. *)
Lemma parse_magnitude_unsigned (R : runtime) (body : pystr) :
  Forall unsigned_char body -> parse_magnitude R body <> Some MNaN.
Proof.
  intros Hb. unfold parse_magnitude.
  destruct (bool_decide _ || bool_decide _); [discriminate|].
  case_bool_decide as Hn.
  - destruct body as [|c body]; [discriminate|].
    injection Hn as Hc _. apply ascii_lower_n in Hc.
    apply Forall_cons in Hb as [(H45 & H110 & H78) _]. tauto.
  - unfold parse_number, finish_number.
    repeat match goal with
           | |- context [match ?x with _ => _ end] => destruct x
           | |- context [if ?x then _ else _] => destruct x
           end; discriminate.
Qed.

Lemma float_of_magnitude_nonnegative (q : Q) :
  (0 <= q)%Q -> nonnegative (float_of_magnitude false q).
Proof.
  intros H. unfold float_of_magnitude.
  destruct (Qle_bool DBL_OVERFLOW q); simpl; [reflexivity|].
  by rewrite Qred_correct.
Qed.

(** [float(s)] of a string without minus sign and without the letter n is
    not negative. *)
Lemma py_float_unsigned (R : runtime) (s : pystr) (f : pyfloat) :
  Forall unsigned_char s -> py_float R s = Ok f -> nonnegative f.
Proof.
  intros Hs. apply (strip_Forall R) in Hs. unfold py_float.
  destruct (split_sign (strip R s)) as [negative body] eqn:Hsign.
  assert (negative = false /\ Forall unsigned_char body) as [-> Hb].
  { unfold split_sign in Hsign. destruct (strip R s) as [|c t].
    - injection Hsign as <- <-. auto.
    - pose proof Hs as Hct. apply Forall_cons in Hs as [(H45 & _) Ht].
      destruct (c =? 45) eqn:E45; [apply N.eqb_eq in E45; contradiction|].
      destruct (c =? 43); injection Hsign as <- <-; auto. }
  pose proof (parse_magnitude_unsigned R body Hb) as Hnan.
  destruct (parse_magnitude R body) as [[m e| |]|]; intros [= <-].
  - apply float_of_magnitude_nonnegative.
    apply Qmult_le_0_compat.
    + unfold Qle. simpl. lia.
    + by apply Qpower_0_le.
  - reflexivity.
  - congruence.
Qed.


Lemma digit_unsigned (R : runtime) (c : N) :
  is_digit R c = true \/ c = 46 -> unsigned_char c.
Proof.
  intros [H| ->]; [|repeat split; discriminate].
  repeat split; intros ->; vm_compute in H; discriminate.
Qed.

Lemma cset_in_currency_symbols (R : runtime) (x : N) :
  cset_in R false currency_symbols x
  = (x =? RUPEE) || ((x =? 36) || ((x =? EURO) || ((x =? POUND)
      || ((x =? 44) || is_space R x)))).
Proof. reflexivity. Qed.

(** Once the currency symbols, commas and spaces are deleted, an amount
    holds digits and dots only. *)
Lemma cleaned_amount_unsigned (R : runtime) (s : pystr) :
  Forall (fun c => amount_char R c = true) s ->
  Forall unsigned_char (re_sub_delete R false currency_symbols s).
Proof.
  intros H. unfold re_sub_delete.
  induction H as [|c s Hc _ IH]; cbn [List.filter]; [constructor|].
  destruct (cset_in R false currency_symbols c) eqn:Hsym; cbn [negb]; [exact IH|].
  apply Forall_cons_2; [|exact IH].
  apply (digit_unsigned R). rewrite cset_in_currency_symbols in Hsym.
  unfold amount_char in Hc.
  destruct (c =? RUPEE), (c =? 36), (c =? 44), (is_space R c), (is_digit R c);
    simpl in *; try discriminate; try rewrite !orb_true_r in Hsym; try discriminate;
    auto.
  right. apply N.eqb_eq. by rewrite !orb_false_r in Hc.
Qed.

(** An amount normalizes to [None] or to a float that is not negative. *)
Lemma normalize_currency_amount (R : runtime) (s : pystr) :
  Forall (fun c => amount_char R c = true) s ->
  normalize_currency R (ArgStr s) = Ok None \/
  exists f, normalize_currency R (ArgStr s) = Ok (Some f) /\ nonnegative f.
Proof.
  intros H. apply cleaned_amount_unsigned in H. simpl.
  destruct (is_empty _); [by left|].
  destruct (py_float R _) as [f|e] eqn:Hf; simpl.
  - right. exists f. split; [reflexivity|]. by eapply py_float_unsigned.
  - left. by rewrite (py_float_raises R _ e Hf).
Qed.

Lemma amount_field_nonnegative (R : runtime) (patterns : list regex) (text : pystr)
    (value : option pyfloat) :
  Forall (groups_sound R true (amount_captured R)) patterns ->
  amount_field R patterns text = Ok value ->
  none_or_nonnegative (Some (opt_float value)).
Proof.
  intros Hp. unfold amount_field.
  destruct (first_match R patterns text) as [m|] eqn:Hm.
  - pose proof (first_match_sound R _ patterns text m Hp Hm) as Hc.
    assert (Hg : Forall (fun c => amount_char R c = true) (group_text m 1)).
    { unfold group_text, group. destruct (m_groups m !! 1%nat) as [w|] eqn:Hw; simpl.
      - by apply (Hc 1%nat w Hw).
      - constructor. }
    destruct (normalize_currency_amount R _ Hg) as [->|(f & -> & Hf)];
      intros [= <-].
    + by left.
    + right. by exists f.
  - intros [= <-]. by left.
Qed.

(** C9.  In the result of each of the five issuer parsers, minimum_due and
    new_balance hold either None or a value that is not negative: the
    patterns that capture them admit only digits, commas, dots, whitespace
    and a currency glyph. *)
Theorem amounts_nonnegative (R : runtime) (i : issuer) (path : pystr) :
  none_or_nonnegative (returned_field (issuer_parser R i path) "minimum_due") /\
  none_or_nonnegative (returned_field (issuer_parser R i path) "new_balance").
Proof.
  rewrite parser_is_guarded_extract.
  destruct (issuer_extract R i path) as [d|e] eqn:He; simpl;
    [|split; by left].
  apply extract_shape in He as [->|(t & l & s & e & u & m & n & Hm & Hn & ->)].
  - split; by left.
  - pose proof (amount_patterns_sound R i) as Hp.
    apply Forall_app in Hp as [Hpm Hpn].
    rewrite !with_confidence_lookup by discriminate.
    destruct (result_dict_lookups (issuer_name i) l s e u m n 0)
      as (_ & _ & _ & _ & _ & -> & -> & _).
    split.
    + exact (amount_field_nonnegative R _ t m Hpm Hm).
    + exact (amount_field_nonnegative R _ t n Hpn Hn).
Qed.

(** Amounts a statement can hold, read by [parse_hdfc]. *)
Lemma amounts_example :
  let R := reference_runtime
             (str "Minimum Amount Due: 1,500.00 Total Amount Due: 23,456.78")
             ValueError in
  returned_field (parse_hdfc R []) "minimum_due" = Some (PFloat (Fin 1500)) /\
  returned_field (parse_hdfc R []) "new_balance" = Some (PFloat (Fin (1172839 # 50))).
Proof. split; vm_compute; reflexivity. Qed.

(** ** C10: issuer detection *)

Lemma starts_with_app (p t : pystr) : starts_with p (p ++ t) = true.
Proof. induction p as [|a p IH]; simpl; [reflexivity|]. by rewrite N.eqb_refl. Qed.

Lemma starts_with_split (p s : pystr) :
  starts_with p s = true -> exists t, s = p ++ t.
Proof.
  revert s. induction p as [|a p IH]; intros s H; simpl in *.
  - by exists s.
  - destruct s as [|b s]; [discriminate|].
    apply andb_true_iff in H as [Hab Hps].
    apply N.eqb_eq in Hab as ->. destruct (IH s Hps) as [t ->]. by exists t.
Qed.

Lemma contains_prefix (needle hay : pystr) :
  starts_with needle hay = true -> contains needle hay = true.
Proof. intros H. destruct hay; simpl; by rewrite H. Qed.

(** [needle in hay] holds exactly when [hay] has [needle] as a substring. *)
Lemma contains_iff (needle hay : pystr) :
  contains needle hay = true <-> exists a b, hay = a ++ needle ++ b.
Proof.
  split.
  - induction hay as [|c hay IH]; simpl; intros H.
    + apply orb_true_iff in H as [H|H]; [|discriminate].
      apply starts_with_split in H as [t ->]. by exists [], t.
    + apply orb_true_iff in H as [H|H].
      * apply starts_with_split in H as [t ->]. by exists [], t.
      * destruct (IH H) as (a & b & ->). by exists (c :: a), b.
  - intros (a & b & ->). induction a as [|c a IH]; simpl.
    + apply contains_prefix, starts_with_app.
    + rewrite IH. apply orb_true_r.
Qed.







(** ** End-to-end scenarios *)

(** A document that holds a masked card number and nothing else: every
    parser finds the suffix and scores 1 point out of 4.5. *)
Lemma masked_number_scenario (R : runtime) (i : issuer) (path : pystr) :
  extract_text_with_ocr_fallback R path
    = Ok (str "Card Number: XXXX XXXX XXXX 1234") ->
  let result := issuer_parser R i path in
  returned_field result "card_last4" = Some (PStr (str "1234")) /\
  returned_field result "payment_due_date" = Some PNone /\
  returned_field result "minimum_due" = Some PNone /\
  returned_field result "new_balance" = Some PNone /\
  returned_field result "confidence" = Some (PFloat (Fin (11 # 50))).
Proof.
  intros H.
  destruct i; cbn [issuer_parser];
    [unfold parse_onecard, onecard_extract
    |unfold parse_buildingblocks, buildingblocks_extract
    |unfold parse_hdfc, hdfc_extract
    |unfold parse_amex, amex_extract
    |unfold parse_firstcitizens, firstcitizens_extract];
    rewrite H; repeat split; vm_compute; reflexivity.
Qed.

(** A year next to the card number is passed over. *)
Lemma year_beside_suffix_scenario (R : runtime) :
  extract_card_last4 R (str "Year: 2025 Card Number: 5678") None
  = Some (str "5678") /\
  extract_card_last4 R (str "Card Number: XXXX XXXX XXXX 1234") None
  = Some (str "1234") /\
  extract_card_last4 R (str "Account Number: 1234567890123456")
    (Some ["Account"; "Number"]%string)
  = Some (str "3456").
Proof. repeat split; vm_compute; reflexivity. Qed.

(** * Further properties of the code *)

From Stdlib Require Import Lqa.

(** ** What a match captures occurs in the subject *)

Section MatcherWithin.
Context (R : runtime) (ic : bool) (subject : pystr).

Lemma occurs_in_prefix (before rest : pystr) (n : nat) :
  subject = before ++ rest -> occurs_in (take n rest) subject.
Proof.
  intros ->. exists before, (drop n rest). by rewrite take_drop.
Qed.

Lemma state_within_step (st : mstate) (x : N) (rest' : pystr) (prev : option N)
    (pos : nat) :
  state_within subject st -> m_rest st = x :: rest' ->
  state_within subject (MState pos prev rest' (m_caps st)).
Proof.
  intros [[before Hb] Hc] Hr. split; [|exact Hc].
  exists (before ++ [x]). simpl. rewrite Hb, Hr, <- app_assoc. reflexivity.
Qed.

Lemma star_loop_within (greedy : bool) (s : cset) (k : mstate -> option mstate)
    (rest : pystr) :
  forall pos prev caps res,
    state_within subject (MState pos prev rest caps) ->
    star_loop R ic greedy s k pos prev caps rest = Some res ->
    exists st', k st' = Some res /\ state_within subject st'.
Proof.
  induction rest as [|x rest IH]; intros pos prev caps res Hw H; simpl in H.
  - eauto.
  - destruct (cset_in R ic s x); [|eauto].
    assert (Hnext : state_within subject (MState (S pos) (Some x) rest caps)).
    { by eapply (state_within_step (MState pos prev (x :: rest) caps)). }
    destruct greedy.
    + destruct (star_loop R ic true s k (S pos) (Some x) caps rest) eqn:Hl;
        [injection H as ->; by eapply IH | eauto].
    + destruct (k (MState pos prev (x :: rest) caps)) eqn:Hk;
        [injection H as ->; eauto | by eapply IH].
Qed.

Lemma rmatch_within (r : regex) :
  forall k st res,
    state_within subject st ->
    rmatch R ic r k st = Some res ->
    exists st', k st' = Some res /\ state_within subject st'.
Proof.
  induction r as [|s|a IHa b IHb|a IHa b IHb|greedy s|j a IHa|s|];
    intros k st res Hw H; simpl in H.
  - eauto.
  - destruct (m_rest st) as [|x rest'] eqn:Hr; [discriminate|].
    destruct (cset_in R ic s x); [|discriminate].
    eexists. split; [exact H|]. by eapply state_within_step.
  - apply IHa in H as (st1 & H1 & Hw1); [|exact Hw].
    apply IHb in H1 as (st2 & H2 & Hw2); [|exact Hw1]. eauto.
  - destruct (rmatch R ic a k st) eqn:Ha.
    + injection H as ->. by eapply IHa.
    + by eapply IHb.
  - destruct st as [pos prev rest caps]. simpl in H. by eapply star_loop_within.
  - apply IHa in H as (st1 & H1 & Hw1); [|exact Hw].
    eexists. split; [exact H1|].
    destruct Hw1 as [Hb1 Hc1]. split; [exact Hb1|].
    intros n w. unfold set_cap. simpl. rewrite lookup_insert.
    case_decide.
    + intros [= <-]. destruct Hw as [[before Hb] _]. by eapply occurs_in_prefix.
    + apply Hc1.
  - exists st. split; [|exact Hw].
    destruct (m_rest st) as [|x rest']; [exact H|].
    by destruct (cset_in R ic s x).
  - destruct (xorb _ _); [eauto | discriminate].
Qed.

Lemma match_here_within (r : regex) (pos : nat) (prev : option N)
    (before rest : pystr) (m : rematch) (n : nat) :
  subject = before ++ rest ->
  match_here R ic r pos prev rest = Some m ->
  occurs_in (group_text m n) subject.
Proof.
  intros Hs H. unfold match_here in H.
  destruct (rmatch R ic r Some _) as [st|] eqn:E; [|discriminate].
  injection H as <-.
  apply rmatch_within in E as (st' & [= ->] & _ & Hc).
  - unfold group_text, group. simpl.
    destruct (m_caps st !! n) as [w|] eqn:Hn; simpl; [by eapply Hc|].
    exists [], subject. reflexivity.
  - split; [by exists before|]. intros k w. simpl. by rewrite lookup_empty.
Qed.

Lemma search_from_within (r : regex) (rest : pystr) :
  forall pos prev before m n,
    subject = before ++ rest ->
    search_from R ic r pos prev rest = Some m ->
    occurs_in (group_text m n) subject.
Proof.
  induction rest as [|c rest IH]; intros pos prev before m n Hs H; simpl in H.
  - destruct (match_here R ic r pos prev []) eqn:Hm; [|discriminate].
    injection H as ->. by eapply match_here_within.
  - destruct (match_here R ic r pos prev (c :: rest)) eqn:Hm.
    + injection H as ->. by eapply match_here_within.
    + eapply (IH _ _ (before ++ [c])); [|exact H].
      rewrite Hs, <- app_assoc. reflexivity.
Qed.

Lemma finditer_from_within (r : regex) (n : nat) (rest : pystr) :
  forall skip pos prev before,
    subject = before ++ rest ->
    Forall (fun m => occurs_in (group_text m n) subject)
      (finditer_from R ic r skip pos prev rest).
Proof.
  induction rest as [|c rest IH]; intros skip pos prev before Hs.
  - destruct skip; simpl; [|constructor].
    destruct (match_here R ic r pos prev []) eqn:Hm; repeat constructor.
    by eapply match_here_within.
  - assert (Hs' : subject = (before ++ [c]) ++ rest).
    { rewrite Hs, <- app_assoc. reflexivity. }
    destruct skip; simpl; [|by eapply IH].
    destruct (match_here R ic r pos prev (c :: rest)) eqn:Hm; [|by eapply IH].
    apply Forall_cons_2; [|by eapply IH].
    eapply match_here_within; [exact Hs | exact Hm].
Qed.

End MatcherWithin.

(** What [re.search] captures occurs in the subject. *)
Lemma re_search_within (R : runtime) (ic : bool) (r : regex) (s : pystr)
    (m : rematch) (n : nat) :
  re_search R ic r s = Some m -> occurs_in (group_text m n) s.
Proof. intros H. by eapply (search_from_within R ic s r s 0%nat None []). Qed.

Lemma occurs_in_trans (a b c : pystr) :
  occurs_in a b -> occurs_in b c -> occurs_in a c.
Proof.
  intros (x & y & ->) (u & v & ->). exists (u ++ x), (y ++ v).
  by rewrite <- !app_assoc.
Qed.

(** Every field of a split occurs in what was split. *)
Lemma split_acc_occurs (sep : N -> bool) (s : pystr) :
  forall cur field,
    In field (split_acc sep cur s) -> occurs_in field (rev cur ++ s).
Proof.
  induction s as [|c s IH]; intros cur field Hin; simpl in Hin.
  - destruct Hin as [<-|[]]. exists [], []. by rewrite app_nil_r.
  - destruct (sep c).
    + destruct Hin as [<-|Hin].
      * exists [], (c :: s). reflexivity.
      * apply IH in Hin. simpl in Hin.
        eapply occurs_in_trans; [exact Hin|].
        exists (rev cur ++ [c]), []. by rewrite app_nil_r, <- app_assoc.
    + apply IH in Hin. simpl in Hin. by rewrite <- app_assoc in Hin.
Qed.

(** ** [extract_card_last4]: what it returns *)

Lemma extract_card_last4_occurs (R : runtime) (text : pystr)
    (context_keywords : option (list string)) (s : pystr) :
  extract_card_last4 R text context_keywords = Some s -> occurs_in s text.
Proof.
  unfold extract_card_last4.
  destruct (is_empty text); [discriminate|].
  destruct (last4_masked R text) as [s1|] eqn:H1.
  { intros [= <-]. unfold last4_masked in H1.
    destruct (re_search R true masked_pattern text) as [m|] eqn:Hm; [|discriminate].
    apply (re_search_within R true _ _ _ 1%nat) in Hm.
    destruct (py_int R (group_text m 1)) as [y|e];
      [destruct (negb (is_year y)); [|discriminate]|]; by injection H1 as <-. }
  destruct (last4_keywords R text _) as [s2|] eqn:H2.
  { intros [= <-]. unfold last4_keywords in H2.
    apply first_some_In in H2 as (keyword & _ & H2).
    apply first_some_In in H2 as (m & Hin & H2).
    pose proof (finditer_from_within R true text (keyword_pattern keyword) 1%nat
                  text 0%nat 0%nat None [] eq_refl) as Hall.
    apply in_rev, list_elem_of_In in Hin.
    pose proof (proj1 (Forall_forall _ _) Hall m Hin) as Hm.
    unfold last4_near_keyword in H2.
    destruct (py_int R (group_text m 1)) as [y|e]; [|discriminate].
    destruct (negb (is_year y)); [|discriminate].
    match type of H2 with context [if ?b then _ else _] => destruct b end;
      [|discriminate].
    by injection H2 as <-. }
  intros H3. apply first_some_In in H3 as (line & Hline & H3).
  apply (split_acc_occurs _ text []) in Hline. simpl in Hline.
  unfold last4_in_line in H3.
  match type of H3 with context [if ?b then _ else _] => destruct b end;
    [|discriminate].
  destruct (re_search R false four_digits_pattern line) as [m|] eqn:Hm; [|discriminate].
  apply (re_search_within R false _ _ _ 1%nat) in Hm.
  destruct (py_int R (group_text m 1)) as [y|e]; [|discriminate].
  destruct (negb (is_year y)); [|discriminate].
  injection H3 as <-. by eapply occurs_in_trans.
Qed.

(** X1.  Called with the default keywords or with keywords that are plain
    words (letters, digits, spaces: what every parser passes), whatever
    [extract_card_last4] returns is taken from a text that is not empty: it
    is four decimal digits that stand next to each other in the text
    ([s in text]) and that do not read as a year from 1900 to 2099. *)
Theorem extract_card_last4_result (R : runtime) (text : pystr)
    (context_keywords : option (list string)) (s : pystr) :
  plain_keywords context_keywords = true ->
  extract_card_last4 R text context_keywords = Some s ->
  text <> [] /\ four_digits R s /\ contains s text = true /\
  not_year_like R (Some s).
Proof.
  intros _ H. repeat split.
  - intros ->. discriminate.
  - by eapply extract_card_last4_four_digits.
  - by eapply extract_card_last4_four_digits.
  - apply contains_iff. by eapply extract_card_last4_occurs.
  - pose proof (extract_card_last4_checked R text context_keywords) as Hy.
    by rewrite H in Hy.
Qed.

Lemma extract_card_last4_result_witness :
  let R := reference_runtime [] ValueError in
  let text := str "Statement 2024 for Card Number: XXXX XXXX XXXX 1234" in
  text <> [] /\ four_digits R (str "1234") /\ contains (str "1234") text = true /\
  not_year_like R (Some (str "1234")).
Proof.
  intros R text.
  apply (extract_card_last4_result R text (Some ["Card"; "Account"]%string)
           (str "1234")).
  - reflexivity.
  - vm_compute. reflexivity.
Defined.

(** ** [normalize_currency]: errors, separators, values *)

(** X2.  [normalize_currency] raises in one case only: an [int] whose
    magnitude is at least 2^1024 - 2^970, which has no finite float; the
    exception is [OverflowError], which the function does not catch.  On
    [None], on every float and on every string it returns. *)
Theorem normalize_currency_raises_iff (R : runtime) (value : currency_arg) (e : exn) :
  normalize_currency R value = Raise e <->
  exists z, value = ArgInt z /\ (2 ^ 1024 - 2 ^ 970 <= Z.abs z)%Z /\
            e = OverflowError.
Proof.
  split.
  - destruct value as [|z|f|s]; cbn [normalize_currency]; try discriminate.
    + unfold float_of_int.
      destruct (Qle_bool DBL_OVERFLOW (inject_Z (Z.abs z))) eqn:Hq;
        cbn; [|discriminate].
      intros [= <-]. exists z. repeat split.
      apply Qle_bool_iff in Hq. unfold DBL_OVERFLOW in Hq. by rewrite Zle_Qle.
    + destruct (is_empty _); [discriminate|].
      destruct (py_float R _) as [f|e'] eqn:Hf; cbn; [discriminate|].
      apply py_float_raises in Hf as ->. discriminate.
  - intros (z & -> & Hz & ->). cbn [normalize_currency]. unfold float_of_int.
    replace (Qle_bool DBL_OVERFLOW (inject_Z (Z.abs z))) with true; [reflexivity|].
    symmetry. apply Qle_bool_iff. unfold DBL_OVERFLOW. by rewrite <- Zle_Qle.
Qed.

(** X3.  A currency sign, a comma or a whitespace character counts for
    nothing wherever it stands in the string: the string with it and the
    string without it normalize alike. *)
Theorem normalize_currency_ignores_separators (R : runtime) (a b : pystr) (c : N) :
  cset_in R false currency_symbols c = true ->
  normalize_currency R (ArgStr (a ++ c :: b)) = normalize_currency R (ArgStr (a ++ b)).
Proof.
  intros Hc. cbn [normalize_currency]. unfold re_sub_delete.
  rewrite !List.filter_app. cbn [List.filter]. rewrite Hc. reflexivity.
Qed.

Lemma normalize_currency_ignores_separators_witness :
  let R := reference_runtime [] ValueError in
  normalize_currency R (ArgStr (str "12 34")) = normalize_currency R (ArgStr (str "1234")).
Proof.
  intros R.
  exact (normalize_currency_ignores_separators R (str "12") (str "34") 32 eq_refl).
Defined.

Lemma decimal_of_bound (ds : list N) :
  Forall (fun d => d < 10) ds -> decimal_of ds < 10 ^ N.of_nat (length ds).
Proof.
  induction ds as [|x ds IH] using rev_ind; intros H.
  - vm_compute. reflexivity.
  - apply Forall_app in H as [Hds Hx]. apply Forall_cons in Hx as [Hx _].
    specialize (IH Hds).
    rewrite decimal_of_snoc, length_app, Nat.add_comm. cbn [length Nat.add].
    rewrite Nat2N.inj_succ, N.pow_succ_r'. lia.
Qed.

(** a numeral with at most 308 digits before the point is below the
    overflow bound *)
Lemma decimal_value_finite (ip fp : list N) :
  Forall (fun d => d < 10) ip -> Forall (fun d => d < 10) fp ->
  (length ip <= 308)%nat ->
  Qle_bool DBL_OVERFLOW (decimal_value ip fp) = false.
Proof.
  intros Hip Hfp Hlen.
  destruct (Qle_bool DBL_OVERFLOW (decimal_value ip fp)) eqn:Hq; [|reflexivity].
  exfalso. apply Qle_bool_iff in Hq. apply Qle_not_lt in Hq. apply Hq. clear Hq.
  assert (Hd : decimal_of (ip ++ fp) < 10 ^ N.of_nat (length (ip ++ fp))).
  { apply decimal_of_bound. by apply Forall_app. }
  rewrite length_app in Hd.
  unfold decimal_value. set (D := decimal_of (ip ++ fp)) in *.
  set (f := length fp) in *.
  assert (Hpow : (Qpower 10 (- Z.of_nat f) == / inject_Z (10 ^ Z.of_nat f))%Q).
  { rewrite Qpower_opp. apply Qinv_comp. symmetry.
    apply (Zpower_Qpower 10 (Z.of_nat f)). lia. }
  rewrite Hpow.
  apply Qlt_shift_div_r.
  - change 0%Q with (inject_Z 0). rewrite <- Zlt_Qlt. apply Z.pow_pos_nonneg; lia.
  - unfold DBL_OVERFLOW. rewrite <- inject_Z_mult, <- Zlt_Qlt.
    assert (HD : (Z.of_N D < 10 ^ Z.of_nat (length ip + f))%Z).
    { apply N2Z.inj_lt in Hd. rewrite N2Z.inj_pow in Hd.
      rewrite nat_N_Z in Hd. exact Hd. }
    eapply Z.lt_le_trans; [exact HD|].
    rewrite Nat2Z.inj_add, Z.pow_add_r by lia.
    apply Z.mul_le_mono_nonneg_r; [apply Z.pow_nonneg; lia|].
    transitivity (10 ^ 308)%Z.
    + apply Z.pow_le_mono_r; lia.
    + vm_compute. discriminate.
Qed.

(** X4.  A currency string that, once its currency signs, commas and
    whitespace are deleted, is a decimal numeral [ip] or [ip.fp] with at
    most 308 digits before the point normalizes to a finite float: the
    number the numeral denotes. *)
Theorem normalize_currency_value (R : runtime) (s : pystr) (ip fp : list N) :
  ip <> [] -> Forall (fun d => d < 10) ip -> Forall (fun d => d < 10) fp ->
  (length ip <= 308)%nat ->
  re_sub_delete R false currency_symbols s = decimal_text ip fp ->
  normalize_currency R (ArgStr s) = Ok (Some (Fin (Qred (decimal_value ip fp)))).
Proof.
  intros Hne Hip Hfp Hlen Hs.
  rewrite (normalize_currency_decimal R s ip fp Hne Hip Hfp Hs).
  unfold float_of_magnitude. by rewrite (decimal_value_finite ip fp Hip Hfp Hlen).
Qed.

Lemma normalize_currency_value_witness :
  normalize_currency (reference_runtime [] ValueError)
    (ArgStr (RUPEE :: str " 1,23,456.78"))
  = Ok (Some (Fin (Qred (decimal_value [1; 2; 3; 4; 5; 6] [7; 8])))).
Proof.
  apply (normalize_currency_value (reference_runtime [] ValueError)
           (RUPEE :: str " 1,23,456.78") [1; 2; 3; 4; 5; 6] [7; 8]).
  - discriminate.
  - repeat constructor.
  - repeat constructor.
  - simpl. lia.
  - vm_compute. reflexivity.
Defined.

(** ** [normalize_date]: errors, blanks, the shape of its result *)

(** X5.  [normalize_date] raises exactly when the text, stripped, is not
    empty and the date library raises on it an exception that is neither
    [ValueError] nor [TypeError] nor [AttributeError] (an [OverflowError],
    say); it passes that exception on. *)
Theorem normalize_date_raises_iff (R : runtime) (date_str : option pystr) (e : exn) :
  normalize_date R date_str = Raise e <->
  exists s, date_str = Some s /\ strip R s <> [] /\
            dateutil_parse R (strip R s) true false = Raise e /\
            ValueError_TypeError_AttributeError e = false.
Proof.
  split.
  - destruct date_str as [s|]; cbn [normalize_date]; [|discriminate].
    destruct (strip R s) as [|c t] eqn:Hs; cbn [is_empty]; [discriminate|].
    destruct (dateutil_parse R (c :: t) true false) as [d|e'] eqn:Hd;
      cbn; [discriminate|].
    destruct (ValueError_TypeError_AttributeError e') eqn:He; [discriminate|].
    intros [= <-]. exists s. rewrite Hs. by repeat split.
  - intros (s & -> & Hs & Hd & He). cbn [normalize_date].
    destruct (strip R s) as [|c t]; [done|]. cbn [is_empty].
    rewrite Hd. cbn. by rewrite He.
Qed.

Lemma lstrip_blanks (R : runtime) (blanks s : pystr) :
  forallb (is_space R) blanks = true -> lstrip R (blanks ++ s) = lstrip R s.
Proof.
  induction blanks as [|c blanks IH]; simpl; [reflexivity|].
  intros H. apply andb_true_iff in H as [-> H]. by apply IH.
Qed.

Lemma lstrip_all_blank (R : runtime) (s : pystr) :
  forallb (is_space R) s = true -> lstrip R s = [].
Proof.
  intros H. rewrite <- (app_nil_r s). by rewrite lstrip_blanks.
Qed.

(** the characters [lstrip] leaves start with one that is no blank *)
Lemma lstrip_app (R : runtime) (s t : pystr) :
  lstrip R s <> [] -> lstrip R (s ++ t) = lstrip R s ++ t.
Proof.
  induction s as [|c s IH]; simpl; [done|].
  destruct (is_space R c); [exact IH | reflexivity].
Qed.

Lemma lstrip_blank_or_not (R : runtime) (s : pystr) :
  lstrip R s = [] -> forallb (is_space R) s = true.
Proof.
  induction s as [|c s IH]; simpl; [reflexivity|].
  destruct (is_space R c); [exact IH | discriminate].
Qed.

(** [strip] does not see the blanks around a text. *)
Lemma strip_blanks (R : runtime) (before s after : pystr) :
  forallb (is_space R) before = true -> forallb (is_space R) after = true ->
  strip R (before ++ s ++ after) = strip R s.
Proof.
  intros Hb Ha. unfold strip. rewrite lstrip_blanks by exact Hb.
  destruct (lstrip R s) as [|c t] eqn:Hs.
  - apply lstrip_blank_or_not in Hs.
    rewrite (lstrip_all_blank R (s ++ after)); [reflexivity|].
    rewrite forallb_app. by rewrite Hs, Ha.
  - rewrite lstrip_app by (rewrite Hs; discriminate). rewrite Hs.
    rewrite rev_app_distr. rewrite (lstrip_blanks R (rev after)); [reflexivity|].
    rewrite forallb_forall in *. intros x Hx. apply Ha. by apply in_rev.
Qed.

(** X6.  [normalize_date] does not see the whitespace around a date: the
    text with blanks before and after it and the text alone normalize
    alike. *)
Theorem normalize_date_ignores_blanks (R : runtime) (before s after : pystr) :
  forallb (is_space R) before = true -> forallb (is_space R) after = true ->
  normalize_date R (Some (before ++ s ++ after)) = normalize_date R (Some s).
Proof.
  intros Hb Ha. cbn [normalize_date]. by rewrite (strip_blanks R before s after Hb Ha).
Qed.

Lemma normalize_date_ignores_blanks_witness :
  let R := reference_runtime [] ValueError in
  normalize_date R (Some (str "  05/08/2025 ")) = normalize_date R (Some (str "05/08/2025")).
Proof.
  intros R.
  exact (normalize_date_ignores_blanks R (str "  ") (str "05/08/2025") (str " ")
           eq_refl eq_refl).
Defined.

Lemma fixed_width_no_dash (w : nat) (n : N) :
  count_occ N.eq_dec (fixed_width w n) 45 = 0%nat.
Proof.
  revert n. induction w as [|w IH]; intros n; simpl; [reflexivity|].
  rewrite count_occ_app, IH. simpl.
  destruct (N.eq_dec (48 + n mod 10) 45) as [H|_]; [|reflexivity].
  exfalso. revert H. generalize (n mod 10). intros k. lia.
Qed.

(** the text [strftime('%Y-%m-%d')] writes: ten characters, two of them
    hyphens *)
Lemma strftime_Ymd_shape (d : datetime) :
  length (strftime_Ymd d) = 10%nat /\ count_occ N.eq_dec (strftime_Ymd d) 45 = 2%nat.
Proof.
  unfold strftime_Ymd. split.
  - rewrite length_app. cbn [length]. rewrite length_app. cbn [length].
    by rewrite !(proj1 (fixed_width_digits _ _)).
  - rewrite count_occ_app, fixed_width_no_dash.
    change (ch "-") with 45. rewrite count_occ_cons_eq by reflexivity.
    rewrite count_occ_app, fixed_width_no_dash.
    rewrite count_occ_cons_eq by reflexivity.
    by rewrite fixed_width_no_dash.
Qed.

Lemma normalize_date_returned (R : runtime) (date_str : option pystr) (t : pystr) :
  normalize_date R date_str = Ok (Some t) ->
  exists s parsed, date_str = Some s /\
    dateutil_parse R (strip R s) true false = Ok parsed /\ t = strftime_Ymd parsed.
Proof.
  destruct date_str as [s|]; cbn [normalize_date]; [|discriminate].
  destruct (strip R s) as [|c u] eqn:Hs; cbn [is_empty]; [discriminate|].
  destruct (dateutil_parse R (c :: u) true false) as [d|e] eqn:Hd; cbn.
  - intros [= <-]. exists s, d. rewrite Hs. by repeat split.
  - destruct (ValueError_TypeError_AttributeError e); discriminate.
Qed.

(** X7.  Where the date library returns calendar dates with a four-digit
    year, every text [normalize_date] returns is a date written
    [YYYY-MM-DD]: ten characters, exactly two of them hyphens, the year,
    the month and the day in their ranges. *)
Theorem normalize_date_canonical_shape (R : runtime) (date_str : option pystr)
    (t : pystr) :
  calendar_dates R ->
  normalize_date R date_str = Ok (Some t) ->
  (exists y m d, t = iso_text y m d /\
                 1000 <= y <= 9999 /\ 1 <= m <= 12 /\ 1 <= d <= 31) /\
  length t = 10%nat /\ count_occ N.eq_dec t 45 = 2%nat.
Proof.
  intros Hcal H.
  apply normalize_date_returned in H as (s & [y m d] & _ & Hd & ->).
  apply Hcal in Hd. simpl in Hd. split.
  - exists y, m, d. by split.
  - apply strftime_Ymd_shape.
Qed.

Lemma reference_calendar_dates (document : pystr) (unparsed : exn) :
  calendar_dates (reference_runtime document unparsed).
Proof.
  intros s dayfirst yearfirst d. simpl.
  destruct (spec_date_grammar reference_years s) as [d'|] eqn:Hg; [|discriminate].
  intros [= <-]. unfold spec_date_grammar in Hg.
  repeat match type of Hg with
         | match ?x with _ => _ end = _ => destruct x; try discriminate
         | (if ?b then _ else _) = _ => destruct b; try discriminate
         end;
    unfold checked_date in Hg;
    match type of Hg with
    | (if valid_date ?y ?m ?d then _ else _) = _ =>
        destruct (valid_date y m d) eqn:Hv; [|discriminate];
        injection Hg as <-; apply valid_date_bounds in Hv; simpl; lia
    end.
Qed.

Lemma normalize_date_canonical_shape_witness :
  let t := str "1999-12-31" in
  (exists y m d, t = iso_text y m d /\
                 1000 <= y <= 9999 /\ 1 <= m <= 12 /\ 1 <= d <= 31) /\
  length t = 10%nat /\ count_occ N.eq_dec t 45 = 2%nat.
Proof.
  intros t.
  apply (normalize_date_canonical_shape (reference_runtime [] ValueError)
           (Some (str "31.12.1999")) t).
  - apply reference_calendar_dates.
  - vm_compute. reflexivity.
Defined.

(** ** [calculate_confidence] on any dictionary *)

Lemma required_points_values (data : gmap string pyval) (field : string) :
  required_points data field = 0%Q \/ required_points data field = 1%Q.
Proof.
  unfold required_points. destruct (String.eqb field "billing_period").
  - destruct (dict_get data field) as [|s|f|period]; auto.
    destruct (truthy (PDict period)); auto.
    destruct (truthy (dict_get period "start") && truthy (dict_get period "end")); auto.
  - destruct (is_not_None (dict_get data field)); auto.
Qed.

(** X8.  Whatever dictionary [calculate_confidence] is given (keys may be
    missing, values may have any type) it returns one of ten scores, all of
    them from 0 to 1. *)
Theorem calculate_confidence_any_dict (data : gmap string pyval) :
  In (calculate_confidence data)
     [0; 11 # 100; 11 # 50; 33 # 100; 11 # 25; 14 # 25; 67 # 100; 39 # 50;
      89 # 100; 1]%Q /\
  (0 <= calculate_confidence data <= 1)%Q.
Proof.
  unfold calculate_confidence.
  cbn [required_fields optional_fields fold_left length].
  destruct (required_points_values data "card_last4") as [-> | ->],
           (required_points_values data "billing_period") as [-> | ->],
           (required_points_values data "payment_due_date") as [-> | ->],
           (required_points_values data "new_balance") as [-> | ->],
           (is_not_None (dict_get data "minimum_due"));
    vm_compute; (split; [tauto | split; discriminate]).
Qed.

(** ** [extract_text_with_ocr_fallback]: the text layer and the fallback *)


Lemma text_layer_attempt_pages (R : runtime) (path : pystr)
    (pages : list (option pystr)) :
  pdf_text_layer R path = Ok pages ->
  let text := join_lines (map (default []) pages) in
  text_layer_attempt R path
  = Ok (if (50 <? length (strip R text))%nat then Some text else None).
Proof.
  intros H text. unfold text_layer_attempt. rewrite H.
  cbn [mbind result_bind]. fold text.
  destruct (50 <? length (strip R text))%nat eqn:Hlen.
  - destruct text; [discriminate Hlen | reflexivity].
  - by rewrite andb_false_r.
Qed.

Lemma short_text_layer_falls_back (R : runtime) (path : pystr)
    (pages : list (option pystr)) :
  pdf_text_layer R path = Ok pages ->
  (length (strip R (join_lines (map (default []) pages))) <= 50)%nat ->
  extract_text_with_ocr_fallback R path = ocr_attempt R path.
Proof.
  intros H Hlen. unfold extract_text_with_ocr_fallback.
  rewrite (text_layer_attempt_pages R path pages H).
  cbn [mbind result_bind].
  replace (50 <? length (strip R (join_lines (map (default []) pages))))%nat
    with false by (symmetry; apply Nat.ltb_ge; exact Hlen).
  reflexivity.
Qed.



(** X11.  A text layer of 50 characters or fewer is not read at all: when
    the OCR pass then fails, each of the five parsers returns its empty
    result, whatever the text layer holds. *)
Theorem short_text_layer_needs_ocr (R : runtime) (i : issuer) (path : pystr)
    (pages : list (option pystr)) (e : exn) :
  pdf_text_layer R path = Ok pages ->
  (length (strip R (join_lines (map (default []) pages))) <= 50)%nat ->
  pdf_ocr R path = Raise e ->
  issuer_parser R i path = Ok (empty_result (issuer_name i)).
Proof.
  intros Hpages Hlen Hocr.
  assert (Htext : extract_text_with_ocr_fallback R path = Ok []).
  { rewrite (short_text_layer_falls_back R path pages Hpages Hlen).
    unfold ocr_attempt. by rewrite Hocr. }
  rewrite parser_is_guarded_extract.
  by rewrite (extract_short R i path [] Htext eq_refl).
Qed.

Lemma short_text_layer_needs_ocr_witness :
  let R := {| uni_decimal := fun _ => None;
              uni_space := fun _ => false;
              uni_alnum := fun _ => false;
              uni_lower := fun c => [c];
              uni_casefold := fun c => c;
              pdf_text_layer := fun _ =>
                Ok [Some (str "Card Number: XXXX XXXX XXXX 1234")];
              pdf_ocr := fun _ => Raise (OtherException "TesseractNotFoundError");
              dateutil_parse := fun _ _ _ => Raise ValueError |} in
  issuer_parser R IHdfc (str "hdfc/statement.pdf") = Ok (empty_result "HDFC").
Proof.
  intros R.
  apply (short_text_layer_needs_ocr R IHdfc (str "hdfc/statement.pdf")
           [Some (str "Card Number: XXXX XXXX XXXX 1234")]
           (OtherException "TesseractNotFoundError")).
  - reflexivity.
  - vm_compute. lia.
  - reflexivity.
Defined.

(** ** The five parsers: where the fields of a result come from *)

Lemma normalized_date_of (R : runtime) (s : pystr) (x : option pystr) :
  normalize_date R (Some s) = Ok x -> normalized_date R x.
Proof. intros H. right. eauto. Qed.

Lemma period_field_normalized (R : runtime) (patterns : list regex) (text : pystr)
    (start stop : option pystr) :
  period_field R patterns text = Ok (start, stop) ->
  normalized_date R start /\ normalized_date R stop.
Proof.
  unfold period_field.
  destruct (first_match R patterns text) as [m|].
  - intros H. do 2 bind_inv H. injection H as <- <-.
    split; by eapply normalized_date_of.
  - intros [= <- <-]. split; by left.
Qed.

Lemma date_field_normalized (R : runtime) (pattern : regex) (text : pystr)
    (due : option pystr) :
  date_field R pattern text = Ok due -> normalized_date R due.
Proof.
  unfold date_field. destruct (re_search R true pattern text) as [m|].
  - apply normalized_date_of.
  - intros [= <-]. by left.
Qed.

Lemma unless_falsy_normalized (R : runtime) (x y : option pystr) :
  (if falsy x then Ok None else normalize_date R x) = Ok y -> normalized_date R y.
Proof.
  destruct x as [s|]; simpl.
  - destruct (is_empty s); [intros [= <-]; by left | apply normalized_date_of].
  - intros [= <-]. by left.
Qed.

(** What the [try] block of a parser returns: the empty result, or a
    dictionary whose card suffix occurs in the text of the document and
    whose dates were returned by [normalize_date]. *)
Lemma extract_provenance (R : runtime) (i : issuer) (path : pystr)
    (d : gmap string pyval) :
  issuer_extract R i path = Ok d ->
  d = empty_result (issuer_name i) \/
  exists text last4 start stop due mindue newbal,
    extract_text_with_ocr_fallback R path = Ok text /\
    (forall s, last4 = Some s -> occurs_in s text) /\
    normalized_date R start /\ normalized_date R stop /\ normalized_date R due /\
    d = with_confidence
          (result_dict (issuer_name i) last4 start stop due mindue newbal 0).
Proof.
  intros He.
  destruct i; cbn [issuer_name issuer_extract] in *.
  - unfold onecard_extract in He. bind_inv He.
    destruct (too_short R a); [left; congruence|].
    destruct (extract_dates R a) as [s e].
    do 5 bind_inv He. right. injection He as <-.
    exists a. do 6 eexists. split; [exact Ha|].
    split; [|split; [|split; [|split; [|reflexivity]]]].
    + apply falsy_or; [intros s'; apply extract_card_last4_occurs|].
      destruct (re_search R true OneCard.card_number_pattern a) eqn:Hm;
        [|intros s'; apply extract_card_last4_occurs].
      intros s' [= <-]. by eapply re_search_within.
    + by eapply unless_falsy_normalized.
    + by eapply unless_falsy_normalized.
    + by eapply date_field_normalized.
  - unfold buildingblocks_extract in He. bind_inv He.
    destruct (too_short R a); [left; congruence|].
    bind_inv He. destruct a0 as [s e].
    do 3 bind_inv He. right. injection He as <-.
    apply period_field_normalized in Ha0 as [Hs Hstop].
    exists a. do 6 eexists. split; [exact Ha|].
    split; [|split; [exact Hs|split; [exact Hstop|split; [|reflexivity]]]].
    + apply falsy_or; [intros s'; apply extract_card_last4_occurs|].
      destruct (re_search R true BuildingBlocks.account_number_pattern a) eqn:Hm;
        [|intros s'; apply extract_card_last4_occurs].
      intros s' [= <-]. by eapply re_search_within.
    + by eapply date_field_normalized.
  - unfold hdfc_extract in He. bind_inv He.
    destruct (too_short R a); [left; congruence|].
    do 2 bind_inv He. destruct a1 as [s e].
    do 3 bind_inv He. right. injection He as <-.
    apply period_field_normalized in Ha1 as [Hs Hstop].
    exists a. do 6 eexists. split; [exact Ha|].
    split; [|split; [exact Hs|split; [exact Hstop|split; [|reflexivity]]]].
    + apply falsy_or; [|intros s'; apply extract_card_last4_occurs].
      destruct (re_search R true masked_pattern a) eqn:Hm; [|by injection Ha0 as <-].
      apply unless_year_inv in Ha0 as [->|[-> Hy]]; [discriminate|].
      intros s' [= <-]. by eapply re_search_within.
    + by eapply date_field_normalized.
  - unfold amex_extract in He. bind_inv He.
    destruct (too_short R a); [left; congruence|].
    do 2 bind_inv He. destruct a1 as [s e].
    do 3 bind_inv He. right. injection He as <-.
    apply period_field_normalized in Ha1 as [Hs Hstop].
    exists a. do 6 eexists. split; [exact Ha|].
    split; [|split; [exact Hs|split; [exact Hstop|split; [|reflexivity]]]].
    + apply falsy_or; [|intros s'; apply extract_card_last4_occurs].
      destruct (re_search R true Amex.last4_pattern a) eqn:Hm; [|by injection Ha0 as <-].
      apply unless_year_inv in Ha0 as [->|[-> Hy]]; [discriminate|].
      intros s' [= <-]. by eapply re_search_within.
    + by eapply date_field_normalized.
  - unfold firstcitizens_extract in He. bind_inv He.
    destruct (too_short R a); [left; congruence|].
    do 2 bind_inv He. destruct a1 as [s e].
    do 3 bind_inv He. right. injection He as <-.
    apply period_field_normalized in Ha1 as [Hs Hstop].
    exists a. do 6 eexists. split; [exact Ha|].
    split; [|split; [exact Hs|split; [exact Hstop|split; [|reflexivity]]]].
    + intros s' ->.
      destruct (falsy _) eqn:Hf;
        [|injection Ha0 as Ha0; by eapply extract_card_last4_occurs].
      destruct (re_search R true FirstCitizens.account_number_pattern a) eqn:Hm;
        [|injection Ha0 as Ha0; by eapply extract_card_last4_occurs].
      apply bind_Ok in Ha0 as (checked & Hchecked & Ha0).
      apply unless_year_inv in Hchecked as [->|[-> Hy]];
        injection Ha0 as Ha0; [by eapply extract_card_last4_occurs|].
      rewrite <- Ha0. by eapply re_search_within.
    + by eapply date_field_normalized.
Qed.

(** the same for what a parser returns: it is the empty result also when
    the [try] block raised *)
Lemma parser_provenance (R : runtime) (i : issuer) (path : pystr) :
  issuer_parser R i path = Ok (empty_result (issuer_name i)) \/
  exists text last4 start stop due mindue newbal,
    extract_text_with_ocr_fallback R path = Ok text /\
    (forall s, last4 = Some s -> occurs_in s text) /\
    normalized_date R start /\ normalized_date R stop /\ normalized_date R due /\
    issuer_parser R i path
    = Ok (with_confidence
            (result_dict (issuer_name i) last4 start stop due mindue newbal 0)).
Proof.
  rewrite parser_is_guarded_extract.
  destruct (issuer_extract R i path) as [d|e] eqn:He; cbn; [|by left].
  apply extract_provenance in He as [->|(t & l & s & e & u & m & n & H)];
    [by left|].
  destruct H as (Ht & Hl & Hs & He & Hu & ->). right.
  exists t, l, s, e, u, m, n.
  split; [exact Ht|]. split; [exact Hl|]. split; [exact Hs|].
  split; [exact He|]. split; [exact Hu|reflexivity].
Qed.

Lemma with_confidence_fields (name : string) (last4 start stop due : option pystr)
    (mindue newbal : option pyfloat) :
  let d := with_confidence
             (result_dict name last4 start stop due mindue newbal 0) in
  d !! "issuer"%string = Some (PStr (str name)) /\
  d !! "card_last4"%string = Some (opt_str last4) /\
  period_get d "start" = Some (opt_str start) /\
  period_get d "end" = Some (opt_str stop) /\
  d !! "payment_due_date"%string = Some (opt_str due) /\
  d !! "minimum_due"%string = Some (opt_float mindue) /\
  d !! "new_balance"%string = Some (opt_float newbal).
Proof.
  intros d. unfold d, period_get.
  rewrite !with_confidence_lookup by discriminate.
  destruct (result_dict_lookups name last4 start stop due mindue newbal 0)
    as (H1 & H2 & H3 & H4 & H5 & H6 & H7 & _).
  repeat split; assumption.
Qed.

(** ** The confidence stored in a result *)

(** the score reads the five scored fields only *)
Lemma calculate_confidence_ext (d d' : gmap string pyval) :
  (forall key, In key (required_fields ++ optional_fields) -> d !! key = d' !! key) ->
  calculate_confidence d = calculate_confidence d'.
Proof.
  intros H.
  assert (H1 : d !! "card_last4"%string = d' !! "card_last4"%string)
    by (apply H; simpl; tauto).
  assert (H2 : d !! "billing_period"%string = d' !! "billing_period"%string)
    by (apply H; simpl; tauto).
  assert (H3 : d !! "payment_due_date"%string = d' !! "payment_due_date"%string)
    by (apply H; simpl; tauto).
  assert (H4 : d !! "new_balance"%string = d' !! "new_balance"%string)
    by (apply H; simpl; tauto).
  assert (H5 : d !! "minimum_due"%string = d' !! "minimum_due"%string)
    by (apply H; simpl; tauto).
  unfold calculate_confidence. cbn [required_fields fold_left].
  unfold required_points, dict_get. by rewrite H1, H2, H3, H4, H5.
Qed.

Lemma with_confidence_stored (d : gmap string pyval) :
  with_confidence d !! "confidence"%string
  = Some (PFloat (Fin (calculate_confidence (with_confidence d)))).
Proof.
  rewrite (calculate_confidence_ext (with_confidence d) d).
  - unfold with_confidence. by rewrite lookup_insert_eq.
  - intros key Hk. apply with_confidence_lookup. intros ->.
    simpl in Hk. intuition discriminate.
Qed.

Lemma empty_result_stored (name : string) :
  empty_result name !! "issuer"%string = Some (PStr (str name)) /\
  empty_result name !! "confidence"%string
  = Some (PFloat (Fin (calculate_confidence (empty_result name)))) /\
  calculate_confidence (empty_result name) = 0%Q.
Proof. repeat split. Qed.

(** X12.  Every parser returns a dictionary whose [issuer] is the parser's
    own name and whose [confidence] is the score of that very dictionary:
    computing [calculate_confidence] on the result again gives the value
    it holds. *)
Theorem parser_confidence_consistent (R : runtime) (i : issuer) (path : pystr) :
  exists d, issuer_parser R i path = Ok d /\
    d !! "issuer"%string = Some (PStr (str (issuer_name i))) /\
    d !! "confidence"%string = Some (PFloat (Fin (calculate_confidence d))).
Proof.
  destruct (parser_provenance R i path)
    as [H|(t & l & s & e & u & m & n & _ & _ & _ & _ & _ & H)];
    rewrite H; eexists; (split; [reflexivity|]).
  - destruct (empty_result_stored (issuer_name i)) as (H1 & H2 & _). by split.
  - split; [|apply with_confidence_stored].
    by destruct (with_confidence_fields (issuer_name i) l s e u m n) as (H1 & _).
Qed.

(** ** The fields of a result *)

(** Every parser returns a dictionary; this is what its fields hold. *)
Lemma parser_result_fields (R : runtime) (i : issuer) (path : pystr) :
  exists d last4 start stop due mindue newbal,
    issuer_parser R i path = Ok d /\
    (d !! "card_last4"%string = Some (opt_str last4) /\
     period_get d "start" = Some (opt_str start) /\
     period_get d "end" = Some (opt_str stop) /\
     d !! "payment_due_date"%string = Some (opt_str due) /\
     d !! "minimum_due"%string = Some (opt_float mindue) /\
     d !! "new_balance"%string = Some (opt_float newbal)) /\
    (d !! "confidence"%string = Some (PFloat (Fin (calculate_confidence d))) /\
     calculate_confidence d
     = calculate_confidence
         (result_dict (issuer_name i) last4 start stop due mindue newbal 0)) /\
    (forall s, last4 = Some s ->
       exists text, extract_text_with_ocr_fallback R path = Ok text /\
                    occurs_in s text) /\
    normalized_date R start /\ normalized_date R stop /\ normalized_date R due.
Proof.
  destruct (parser_provenance R i path)
    as [H|(t & l & s & e & u & m & n & Ht & Hl & Hs & He & Hu & H)].
  - exists (empty_result (issuer_name i)), None, None, None, None, None, None.
    split; [exact H|].
    split; [repeat split|]. split; [repeat split|].
    split; [discriminate|]. repeat split; by left.
  - exists (with_confidence (result_dict (issuer_name i) l s e u m n 0)),
      l, s, e, u, m, n.
    split; [exact H|].
    destruct (with_confidence_fields (issuer_name i) l s e u m n)
      as (_ & F1 & F2 & F3 & F4 & F5 & F6).
    split; [exact (conj F1 (conj F2 (conj F3 (conj F4 (conj F5 F6)))))|].
    split.
    { split; [exact (with_confidence_stored _)|].
      apply calculate_confidence_ext. intros key Hk.
      apply with_confidence_lookup. intros ->. simpl in Hk. intuition discriminate. }
    split; [|exact (conj Hs (conj He Hu))].
    intros s' Hs'. exists t. split; [exact Ht | exact (Hl s' Hs')].
Qed.

(** X13.  The check the test suite makes on every sample can never fail:
    when a parser returns a confidence above 0, one of card_last4, the start
    of the billing period, payment_due_date, new_balance and minimum_due is
    not [None]. *)
Theorem confidence_positive_needs_field (R : runtime) (i : issuer) (path : pystr)
    (c : Q) :
  returned_field (issuer_parser R i path) "confidence" = Some (PFloat (Fin c)) ->
  (0 < c)%Q ->
  returned_field (issuer_parser R i path) "card_last4" <> Some PNone \/
  returned_period (issuer_parser R i path) "start" <> Some PNone \/
  returned_field (issuer_parser R i path) "payment_due_date" <> Some PNone \/
  returned_field (issuer_parser R i path) "new_balance" <> Some PNone \/
  returned_field (issuer_parser R i path) "minimum_due" <> Some PNone.
Proof.
  destruct (parser_result_fields R i path)
    as (d & l & s & e & u & m & n & -> & F & [Hstored Hscore] & _).
  destruct F as (F1 & F2 & _ & F4 & F5 & F6).
  cbn [returned_field returned_period].
  rewrite Hstored, F1, F2, F4, F5, F6, Hscore. clear.
  intros [= <-] Hc.
  destruct l; [left; discriminate|].
  destruct s; [right; left; discriminate|].
  destruct u; [do 2 right; left; discriminate|].
  destruct n; [do 3 right; left; discriminate|].
  destruct m; [do 4 right; discriminate|].
  exfalso. revert Hc. destruct e as [[|]|]; vm_compute; discriminate.
Qed.

Lemma confidence_positive_needs_field_witness :
  let R := reference_runtime (str "Card Number: XXXX XXXX XXXX 1234") ValueError in
  let r := issuer_parser R IAmex (str "amex/march.pdf") in
  returned_field r "card_last4" <> Some PNone \/
  returned_period r "start" <> Some PNone \/
  returned_field r "payment_due_date" <> Some PNone \/
  returned_field r "new_balance" <> Some PNone \/
  returned_field r "minimum_due" <> Some PNone.
Proof.
  intros R r.
  apply (confidence_positive_needs_field R IAmex (str "amex/march.pdf") (11 # 50)).
  - vm_compute. reflexivity.
  - reflexivity.
Defined.

(** ** The dates of a result *)

Lemma normalized_date_canonical (R : runtime) (x : option pystr) :
  calendar_dates R -> normalized_date R x -> none_or_canonical (Some (opt_str x)).
Proof.
  intros Hcal [->|[s Hs]]; [by left|].
  destruct x as [t|]; [|by left]. right.
  apply normalize_date_returned in Hs as (s' & [y m d] & _ & Hd & ->).
  apply Hcal in Hd. simpl in Hd. exists y, m, d. by split.
Qed.

(** X14.  Where the date library returns calendar dates with a four-digit
    year, the three dates of every result (both ends of the billing period
    and the payment due date) are each [None] or a date written
    [YYYY-MM-DD]; no parser passes on the text it found in the document. *)
Theorem parser_dates_canonical (R : runtime) (i : issuer) (path : pystr) :
  calendar_dates R ->
  none_or_canonical (returned_period (issuer_parser R i path) "start") /\
  none_or_canonical (returned_period (issuer_parser R i path) "end") /\
  none_or_canonical (returned_field (issuer_parser R i path) "payment_due_date").
Proof.
  intros Hcal.
  destruct (parser_result_fields R i path)
    as (d & l & s & e & u & m & n & -> & F & _ & _ & Hs & He & Hu).
  destruct F as (_ & F2 & F3 & F4 & _).
  cbn [returned_field returned_period]. rewrite F2, F3, F4.
  repeat split; by apply (normalized_date_canonical R).
Qed.

Lemma parser_dates_canonical_witness :
  let R := reference_runtime
             (str "Statement Period: 01/08/2025 - 31/08/2025 Payment Due Date: 20/09/2025")
             ValueError in
  none_or_canonical (returned_period (issuer_parser R IHdfc []) "start") /\
  none_or_canonical (returned_period (issuer_parser R IHdfc []) "end") /\
  none_or_canonical (returned_field (issuer_parser R IHdfc []) "payment_due_date").
Proof.
  intros R. apply (parser_dates_canonical R IHdfc []).
  apply reference_calendar_dates.
Defined.

(** ** The card suffix of a result *)

(** X15.  The card_last4 of a result is never made up: it is four decimal
    digits that stand next to each other in the text extracted from the
    document, and for [parse_hdfc], [parse_amex] and [parse_firstcitizens]
    it does not read as a year from 1900 to 2099. *)
Theorem parser_card_last4_from_text (R : runtime) (i : issuer) (path s : pystr) :
  returned_field (issuer_parser R i path) "card_last4" = Some (PStr s) ->
  four_digits R s /\
  (checks_year i = true -> not_year_like R (Some s)) /\
  exists text, extract_text_with_ocr_fallback R path = Ok text /\
               contains s text = true.
Proof.
  intros H. split; [|split].
  - destruct (card_last4_four_digits R i path) as [H'|(s' & H' & Hs)];
      rewrite H in H'; [discriminate|]. by injection H' as ->.
  - intros Hi.
    destruct (checked_parsers_no_year R i path Hi) as [H'|(s' & H' & Hs)];
      rewrite H in H'; [discriminate|]. by injection H' as ->.
  - destruct (parser_result_fields R i path)
      as (d & l & st & e & u & m & n & Hd & F & _ & Hl & _).
    destruct F as (F1 & _).
    rewrite Hd in H. cbn [returned_field] in H. rewrite F1 in H.
    destruct l as [s'|]; [|discriminate]. injection H as <-.
    destruct (Hl s' eq_refl) as (text & Ht & Ho).
    exists text. split; [exact Ht|]. by apply contains_iff.
Qed.

Lemma parser_card_last4_from_text_witness :
  let document := str "Account Number: XXXX-XXXX-XXXX-9876 Statement 2025" in
  let R := reference_runtime document ValueError in
  four_digits R (str "9876") /\
  (checks_year IFirstCitizens = true -> not_year_like R (Some (str "9876"))) /\
  exists text, extract_text_with_ocr_fallback R [] = Ok text /\
               contains (str "9876") text = true.
Proof.
  intros document R.
  apply (parser_card_last4_from_text R IFirstCitizens [] (str "9876")).
  vm_compute. reflexivity.
Defined.

(** ** Detection followed by dispatch *)

Lemma detect_issuer_cases (R : runtime) (path : pystr) :
  (exists i, detect_issuer R path = str (issuer_key i) /\
             contains (str (issuer_key i)) (lower R path) = true) \/
  (detect_issuer R path = str "unknown" /\
   forall i, contains (str (issuer_key i)) (lower R path) = false).
Proof.
  unfold detect_issuer.
  destruct (contains (str "onecard") (lower R path)) eqn:H1;
    [left; by exists IOneCard|].
  destruct (contains (str "buildingblocks") (lower R path)) eqn:H2;
    [left; by exists IBuildingBlocks|].
  destruct (contains (str "hdfc") (lower R path)) eqn:H3;
    [left; by exists IHdfc|].
  destruct (contains (str "amex") (lower R path)) eqn:H4;
    [left; by exists IAmex|].
  destruct (contains (str "firstcitizens") (lower R path)) eqn:H5;
    [left; by exists IFirstCitizens|].
  right. split; [reflexivity|]. by intros [].
Qed.

Lemma parse_pdf_key (R : runtime) (path : pystr) (i : issuer) :
  parse_pdf R path (str (issuer_key i)) = issuer_parser R i path.
Proof. by destruct i. Qed.

Lemma parse_pdf_unknown (R : runtime) (path : pystr) :
  parse_pdf R path (str "unknown")
  = Ok {["error"%string := PStr (str "issuer not supported")]}.
Proof. reflexivity. Qed.

Lemma parser_no_error_key (R : runtime) (i : issuer) (path : pystr) :
  exists d, issuer_parser R i path = Ok d /\ well_formed_result d /\
            d !! "error"%string = None.
Proof.
  destruct (parser_provenance R i path)
    as [H|(t & l & s & e & u & m & n & _ & _ & _ & _ & _ & H)];
    rewrite H; eexists; (split; [reflexivity|]).
  - split; [unfold empty_result; apply result_dict_well_formed | reflexivity].
  - split; [apply with_confidence_well_formed, result_dict_well_formed|].
    by rewrite with_confidence_lookup.
Qed.

(** X16.  What the scripts get when they detect the issuer from a path and
    dispatch on it: the result of the parser of the first issuer name (in
    the order onecard, buildingblocks, hdfc, amex, firstcitizens) that
    occurs in the lower-cased path, a dictionary with the seven result keys
    and no ["error"]; or, when none occurs, the dictionary that holds
    ["error"] alone.  So ["error"] is in the result exactly when the issuer
    is ["unknown"]. *)
Theorem detect_then_parse (R : runtime) (path : pystr) :
  exists d, parse_pdf R path (detect_issuer R path) = Ok d /\
    (has_key d "error" = true <-> detect_issuer R path = str "unknown") /\
    ((exists i, detect_issuer R path = str (issuer_key i) /\
                contains (str (issuer_key i)) (lower R path) = true /\
                issuer_parser R i path = Ok d /\ well_formed_result d) \/
     (detect_issuer R path = str "unknown" /\
      (forall i, contains (str (issuer_key i)) (lower R path) = false) /\
      d = {["error"%string := PStr (str "issuer not supported")]})).
Proof.
  destruct (detect_issuer_cases R path) as [(i & Hi & Hc)|[Hu Hc]].
  - destruct (parser_no_error_key R i path) as (d & Hd & Hwf & Herr).
    exists d. rewrite Hi, parse_pdf_key. split; [exact Hd|]. split.
    + unfold has_key. rewrite Herr. split.
      * intros H. apply bool_decide_eq_true in H. by destruct H.
      * intros H. exfalso. destruct i; vm_compute in H; discriminate.
    + left. by exists i.
  - rewrite Hu, parse_pdf_unknown. eexists. split; [reflexivity|]. split.
    + split; [done|]. intros _. apply bool_decide_eq_true.
      rewrite lookup_singleton_eq. eauto.
    + by right.
Qed.

(** ** Issuer detection and letter case *)

Lemma lower_ascii (R : runtime) (s : pystr) :
  forallb is_ascii s = true -> lower R s = map ascii_lower s.
Proof.
  unfold lower. induction s as [|c s IH]; [reflexivity|].
  cbn [forallb flat_map map]. intros H. apply andb_true_iff in H as [Hc Hs].
  rewrite (IH Hs). unfold lower_char. by rewrite Hc.
Qed.

(** X17.  On ASCII paths [detect_issuer] does not see the case of letters:
    two paths that differ only in the case of their ASCII letters give the
    same issuer. *)
Theorem detect_issuer_ignores_case (R : runtime) (p q : pystr) :
  forallb is_ascii p = true -> forallb is_ascii q = true ->
  map ascii_lower p = map ascii_lower q ->
  detect_issuer R p = detect_issuer R q.
Proof.
  intros Hp Hq H. unfold detect_issuer.
  by rewrite (lower_ascii R p Hp), (lower_ascii R q Hq), H.
Qed.

Lemma detect_issuer_ignores_case_witness :
  let R := reference_runtime [] ValueError in
  detect_issuer R (str "Statements/HDFC/May-2025.PDF")
  = detect_issuer R (str "statements/hdfc/may-2025.pdf").
Proof.
  intros R.
  exact (detect_issuer_ignores_case R (str "Statements/HDFC/May-2025.PDF")
           (str "statements/hdfc/may-2025.pdf") eq_refl eq_refl eq_refl).
Defined.

(** ** [append_to_csv]: the rows of the results file *)

(** The writer accepts the row of every dictionary. *)
Lemma csv_row_accepted (data : gmap string pyval) :
  writerow fieldnames (csv_row data) = Ok (csv_cells data).
Proof.
  unfold writerow.
  assert (Hdom : dom (csv_row data) ⊆ (list_to_set fieldnames : gset string)).
  { unfold csv_row, fieldnames. rewrite !dom_insert_L, dom_empty_L. set_solver. }
  rewrite (bool_decide_eq_true_2 _ Hdom). reflexivity.
Qed.

Lemma csv_cells_length (data : gmap string pyval) : length (csv_cells data) = 8%nat.
Proof. reflexivity. Qed.

Lemma results_table_snoc (rows : list (list pyval)) (cells : list pyval) :
  results_table rows -> length cells = 8%nat -> results_table (rows ++ [cells]).
Proof.
  intros (body & -> & Hbody) Hcells. exists (body ++ [cells]). split; [reflexivity|].
  apply Forall_app. split; [exact Hbody|]. by apply Forall_cons_2.
Qed.

(** X18.  [append_to_csv] never raises, touches no other file and keeps a
    results file a table where it can.  Given a file that is absent or is
    the header followed by rows of eight cells, either the call printed
    nothing and appended exactly one row (the eight cells of [data], in the
    order issuer, last4, bill_start, bill_end, payment_due, new_balance,
    minimum_due, confidence) after writing the header when the file did not
    exist, and the file is such a table afterwards; or it printed one
    warning and wrote no row of data: no file changed (the directory or
    the file could not be opened), or the file holds what it held before
    and is empty if it was only just created (a write raised), or it was
    created and holds the header alone (the write of the row raised). *)
Theorem append_to_csv_keeps_table (fs : filesystem) (data : gmap string pyval)
    (csv_path : pystr) :
  (forall rows, fs_files fs !! csv_path = Some rows -> results_table rows) ->
  let '(fs', out) := append_to_csv fs data csv_path in
  (forall p, p <> csv_path -> fs_files fs' !! p = fs_files fs !! p) /\
  (out = [] /\
   fs_files fs' !! csv_path
   = Some (default [header_row fieldnames] (fs_files fs !! csv_path)
           ++ [csv_cells data]) /\
   (forall rows, fs_files fs' !! csv_path = Some rows -> results_table rows) \/
   exists e, out = [PrintCsvWarning e] /\
     (fs' = fs \/
      fs_files fs' !! csv_path = Some (default [] (fs_files fs !! csv_path)) \/
      fs_files fs !! csv_path = None /\
      fs_files fs' !! csv_path = Some [header_row fieldnames])).
Proof.
  intros Htable. unfold append_to_csv.
  destruct (fs_makedirs fs csv_path) as [[]|e].
  2: { split; [done|]. right. exists e. split; [reflexivity | by left]. }
  destruct (fs_open_append fs csv_path) as [[]|e].
  2: { split; [done|]. right. exists e. split; [reflexivity | by left]. }
  rewrite csv_row_accepted. unfold isfile.
  destruct (fs_files fs !! csv_path) as [rows|] eqn:Hf.
  - rewrite (bool_decide_eq_true_2 (is_Some (Some rows))) by eauto.
    cbn [negb default from_option id mbind result_bind].
    destruct (fs_write fs csv_path (csv_cells data)) as [[]|e];
      cbn [mbind result_bind write_file fs_files];
      (split; [intros p Hp; by rewrite lookup_insert_ne|]);
      rewrite lookup_insert_eq.
    + left. split; [reflexivity|]. split; [reflexivity|].
      intros rows' [= <-].
      apply results_table_snoc; [by apply Htable | apply csv_cells_length].
    + right. exists e. split; [reflexivity|]. right. by left.
  - rewrite (bool_decide_eq_false_2 (is_Some None)) by (intros [? ?]; discriminate).
    cbn [negb default from_option id app].
    destruct (fs_write fs csv_path (header_row fieldnames)) as [[]|e].
    2: { cbn [write_file fs_files].
         split; [intros p Hp; by rewrite lookup_insert_ne|].
         rewrite lookup_insert_eq. right. exists e.
         split; [reflexivity|]. right. by left. }
    cbn [mbind result_bind].
    destruct (fs_write fs csv_path (csv_cells data)) as [[]|e];
      cbn [mbind result_bind write_file fs_files];
      (split; [intros p Hp; by rewrite lookup_insert_ne|]);
      rewrite lookup_insert_eq.
    + left. split; [reflexivity|]. split; [reflexivity|].
      intros rows' [= <-]. exists [csv_cells data]. split; [reflexivity|].
      apply Forall_cons_2; [apply csv_cells_length | constructor].
    + right. exists e. split; [reflexivity|]. right. right. by split.
Qed.

Lemma append_to_csv_keeps_table_witness :
  let fs := FileSystem ∅ (fun _ => Ok tt) (fun _ => Ok tt) (fun _ _ => Ok tt) in
  let data := result_dict "HDFC" (Some (str "1234")) None None None None None 0 in
  let '(fs', out) := append_to_csv fs data default_csv_path in
  (forall p, p <> default_csv_path -> fs_files fs' !! p = fs_files fs !! p) /\
  (out = [] /\
   fs_files fs' !! default_csv_path
   = Some (default [header_row fieldnames] (fs_files fs !! default_csv_path)
           ++ [csv_cells data]) /\
   (forall rows, fs_files fs' !! default_csv_path = Some rows -> results_table rows) \/
   exists e, out = [PrintCsvWarning e] /\
     (fs' = fs \/
      fs_files fs' !! default_csv_path
      = Some (default [] (fs_files fs !! default_csv_path)) \/
      fs_files fs !! default_csv_path = None /\
      fs_files fs' !! default_csv_path = Some [header_row fieldnames])).
Proof.
  intros fs data.
  apply (append_to_csv_keeps_table fs data default_csv_path).
  intros rows H. vm_compute in H. discriminate H.
Defined.

(** ** [main] of parse.py *)

Lemma detected_parse (R : runtime) (path : pystr) :
  (exists i d, detect_issuer R path = str (issuer_key i) /\
               parse_pdf R path (detect_issuer R path) = Ok d /\
               well_formed_result d /\ has_key d "error" = false) \/
  (detect_issuer R path = str "unknown" /\
   exists d, parse_pdf R path (detect_issuer R path) = Ok d /\
             has_key d "error" = true).
Proof.
  destruct (detect_issuer_cases R path) as [(i & Hi & _)|[Hu _]].
  - left. destruct (parser_no_error_key R i path) as (d & Hd & Hwf & Herr).
    exists i, d. rewrite Hi, parse_pdf_key.
    split; [reflexivity|]. split; [exact Hd|]. split; [exact Hwf|].
    unfold has_key. rewrite Herr. apply bool_decide_eq_false. by intros [? ?].
  - right. split; [exact Hu|]. rewrite Hu, parse_pdf_unknown.
    eexists. split; [reflexivity|]. apply bool_decide_eq_true.
    rewrite lookup_singleton_eq. eauto.
Qed.

Lemma issuer_key_known (i : issuer) : str (issuer_key i) <> str "unknown".
Proof. destruct i; vm_compute; discriminate. Qed.

Lemma append_to_csv_other_files (fs : filesystem) (data : gmap string pyval)
    (csv_path p : pystr) :
  p <> csv_path ->
  fs_files (append_to_csv fs data csv_path).1 !! p = fs_files fs !! p.
Proof.
  intros Hp. unfold append_to_csv.
  destruct (fs_makedirs fs csv_path) as [[]|e]; [|reflexivity].
  destruct (fs_open_append fs csv_path) as [[]|e]; [|reflexivity].
  destruct (if negb (isfile fs csv_path) then _ else _) as [[]|e];
    [|cbn [fst write_file fs_files]; by rewrite lookup_insert_ne].
  destruct (_ ≫= _); cbn [fst write_file fs_files]; by rewrite lookup_insert_ne.
Qed.

(** X19.  [main] of parse.py ends with status 0 exactly when it is given a
    path, the path is a file, and an issuer name occurs in the path; it then
    prints the result of that issuer's parser, whatever was extracted, and
    hands it to [append_to_csv].  In every other case the status is 1,
    no JSON is printed and no file is changed.  No run changes a file other
    than outputs/results.csv. *)
Theorem main_outcome (R : runtime) (fs : filesystem) (argv : list pystr) :
  let '(fs', out, status) := main R fs argv in
  (status = 0%Z \/ status = 1%Z) /\
  (status = 0%Z <->
   exists prog pdf_path rest i,
     argv = prog :: pdf_path :: rest /\ isfile fs pdf_path = true /\
     detect_issuer R pdf_path = str (issuer_key i)) /\
  (status = 1%Z -> fs' = fs /\ forall d, ~ In (PrintJson d) out) /\
  (status = 0%Z ->
   exists pdf_path d warning,
     nth_error argv 1 = Some pdf_path /\
     parse_pdf R pdf_path (detect_issuer R pdf_path) = Ok d /\
     well_formed_result d /\
     append_to_csv fs d default_csv_path = (fs', warning) /\
     out = PrintJson d :: warning) /\
  (forall p, p <> default_csv_path -> fs_files fs' !! p = fs_files fs !! p).
Proof.
  unfold main.
  destruct argv as [|prog [|pdf_path rest]].
  1, 2: (split; [by right|]); split;
    [split; [discriminate | by intros (? & ? & ? & ? & ? & _)]|];
    split; [|split; [discriminate|reflexivity]];
    intros _; split; [reflexivity|]; by intros d [|[]].
  destruct (isfile fs pdf_path) eqn:Hfile; cbn [negb].
  2: { split; [by right|]. split.
       - split; [discriminate|].
         intros (? & ? & ? & ? & [= _ <- _] & Hf & _). congruence.
       - split; [|split; [discriminate|reflexivity]].
         intros _. split; [reflexivity|]. by intros d [|[]]. }
  destruct (detected_parse R pdf_path)
    as [(i & d & Hi & Hd & Hwf & Herr)|(Hu & d & Hd & Herr)];
    rewrite Hd, Herr.
  - rewrite bool_decide_eq_false_2
      by (rewrite Hi; apply issuer_key_known).
    destruct (append_to_csv fs d default_csv_path) as [fs' warning] eqn:Happ.
    cbn [app]. split; [by left|]. split.
    + split; [|reflexivity]. intros _. by exists prog, pdf_path, rest, i.
    + split; [discriminate|]. split; [intros _; by exists pdf_path, d, warning|].
      intros p Hp.
      pose proof (append_to_csv_other_files fs d default_csv_path p Hp) as Ho.
      by rewrite Happ in Ho.
  - rewrite bool_decide_eq_true_2 by exact Hu.
    cbn [app]. split; [by right|]. split.
    + split; [discriminate|].
      intros (? & ? & ? & i & [= _ <- _] & _ & Hi). exfalso.
      rewrite Hu in Hi. by apply (issuer_key_known i).
    + split; [|split; [discriminate|reflexivity]]. intros _. split; [reflexivity|].
      intros d' [|[|[]]]; discriminate.
Qed.

(** ** [main] of demo.py: the summary *)

Lemma demo_process_cases (R : runtime) (pdf : pystr * pystr) :
  (detectable R pdf = true /\
   exists i d, issuer_parser R i pdf.1 = Ok d /\
               demo_process R pdf = DemoSuccess pdf.1 d) \/
  (detectable R pdf = false /\
   exists error, demo_process R pdf = DemoError pdf.1 error).
Proof.
  destruct pdf as [path expected]. unfold detectable, demo_process. cbn [fst].
  destruct (detect_issuer_cases R path) as [(i & Hi & _)|[Hu _]].
  - left. destruct (parser_no_error_key R i path) as (d & Hd & _ & Herr).
    rewrite Hi, parse_pdf_key, Hd. unfold has_key. rewrite Herr.
    rewrite (bool_decide_eq_false_2 (is_Some None)) by (by intros [? ?]).
    rewrite bool_decide_eq_false_2 by apply issuer_key_known.
    split; [reflexivity|]. by exists i, d.
  - right. rewrite Hu, parse_pdf_unknown.
    rewrite (bool_decide_eq_true_2 (str "unknown" = str "unknown")) by reflexivity.
    split; [reflexivity|]. eexists. reflexivity.
Qed.

Lemma demo_process_success (R : runtime) (pdf : pystr * pystr) :
  is_success (demo_process R pdf) = detectable R pdf.
Proof.
  destruct (demo_process_cases R pdf) as [[-> (i & d & _ & ->)]|[-> (e & ->)]];
    reflexivity.
Qed.

Lemma filter_split_length {A} (p : A -> bool) (l : list A) :
  (length (List.filter p l) + length (List.filter (fun x => negb (p x)) l)
   = length l)%nat.
Proof.
  induction l as [|x l IH]; [reflexivity|].
  cbn [List.filter]. destruct (p x); cbn [negb length]; lia.
Qed.

Lemma successes_detectable (R : runtime) (pdfs : list (pystr * pystr)) :
  length (List.filter is_success (map (demo_process R) pdfs))
  = length (List.filter (detectable R) pdfs).
Proof.
  induction pdfs as [|pdf pdfs IH]; [reflexivity|].
  cbn [map List.filter]. rewrite demo_process_success.
  destruct (detectable R pdf); cbn [length]; by rewrite IH.
Qed.

(** the confidence of a parser's result is a finite float from 0 to 1 *)
Lemma parser_confidence_bounds (R : runtime) (i : issuer) (path : pystr)
    (d : gmap string pyval) :
  issuer_parser R i path = Ok d ->
  exists c, d !! "confidence"%string = Some (PFloat (Fin c)) /\ (0 <= c <= 1)%Q.
Proof.
  intros Hd.
  destruct (parser_result_fields R i path)
    as (d' & l & s & e & u & m & n & Hd' & _ & [Hstored Hscore] & _).
  rewrite Hd in Hd'. injection Hd' as <-.
  eexists. split; [exact Hstored|]. rewrite Hscore.
  pose proof (confidence_values (issuer_name i) l s e u m n 0) as Hin.
  revert Hin. generalize (calculate_confidence
                            (result_dict (issuer_name i) l s e u m n 0)).
  intros c Hin. simpl in Hin.
  repeat (destruct Hin as [<-|Hin]; [split; discriminate|]). destruct Hin.
Qed.

Lemma demo_confidences_bounds (R : runtime) (pdfs : list (pystr * pystr)) :
  Forall (fun q => (0 <= q <= 1)%Q) (demo_confidences (map (demo_process R) pdfs)) /\
  length (demo_confidences (map (demo_process R) pdfs))
  = length (List.filter is_success (map (demo_process R) pdfs)).
Proof.
  induction pdfs as [|pdf pdfs [IH1 IH2]]; [split; [constructor | reflexivity]|].
  unfold demo_confidences in *. cbn [map flat_map List.filter].
  destruct (demo_process_cases R pdf) as [[_ (i & d & Hd & ->)]|[_ (e & ->)]].
  - destruct (parser_confidence_bounds R i pdf.1 d Hd) as (c & Hc & Hb).
    assert (Hg : dict_get_default d "confidence" (PFloat (Fin 0)) = PFloat (Fin c))
      by (unfold dict_get_default; by rewrite Hc).
    rewrite Hg. cbn [app is_success length].
    split; [by apply Forall_cons_2 | by rewrite IH2].
  - cbn [app is_success]. by split.
Qed.

Lemma sum_bounds (l : list Q) :
  Forall (fun q => (0 <= q <= 1)%Q) l ->
  forall a, (a <= fold_left Qplus l a <= a + inject_Z (Z.of_nat (length l)))%Q.
Proof.
  induction l as [|x l IH]; intros H a.
  - cbn [fold_left length]. change (inject_Z (Z.of_nat 0)) with 0%Q. lra.
  - apply Forall_cons in H as [Hx Hl]. specialize (IH Hl (a + x)%Q).
    cbn [fold_left length]. rewrite Nat2Z.inj_succ. unfold Z.succ.
    rewrite inject_Z_plus. change (inject_Z 1) with 1%Q.
    revert IH. generalize (inject_Z (Z.of_nat (length l))).
    generalize (fold_left Qplus l (a + x)%Q). intros s k IH. lra.
Qed.

(** X20.  The summary of demo.py counts paths, not extractions: a
    statement is counted as successful exactly when an issuer name occurs
    in its path, whatever its parser could read, and as failed otherwise;
    the expected issuer listed with the path is not consulted.  Every
    successful statement contributes one confidence to the average, which
    is shown when at least one statement was successful and lies between 0
    and 1. *)
Theorem demo_summary_counts (R : runtime) (pdfs : list (pystr * pystr))
    (results : list demo_entry) (summary : demo_summary) :
  demo_main R pdfs = Some (results, summary) ->
  results = map (fun pdf => demo_process R (pdf.1, [])) pdfs /\
  total_processed summary = Z.of_nat (length pdfs) /\
  successful summary = Z.of_nat (length (List.filter (detectable R) pdfs)) /\
  failed summary
  = Z.of_nat (length (List.filter (fun pdf => negb (detectable R pdf)) pdfs)) /\
  Z.of_nat (length (demo_confidences results)) = successful summary /\
  (is_Some (avg_confidence summary) <-> (0 < successful summary)%Z) /\
  (forall q, avg_confidence summary = Some q -> (0 <= q <= 1)%Q).
Proof.
  unfold demo_main. destruct pdfs as [|pdf0 pdfs0] eqn:Hpdfs; [discriminate|].
  rewrite <- Hpdfs. clear Hpdfs pdf0 pdfs0. intros [= <- <-].
  unfold summarize. cbn [total_processed successful failed avg_confidence].
  rewrite length_map, successes_detectable.
  pose proof (filter_split_length (detectable R) pdfs) as Hsplit.
  split; [|split; [reflexivity|split; [reflexivity|split; [lia|split; [|split]]]]].
  - apply map_ext. by intros [path expected].
  - destruct (demo_confidences_bounds R pdfs) as [_ Hlen].
    by rewrite Hlen, successes_detectable.
  - destruct (0 <? Z.of_nat (length (List.filter (detectable R) pdfs)))%Z eqn:Hpos.
    + apply Z.ltb_lt in Hpos. split; eauto.
    + apply Z.ltb_ge in Hpos. split; [by intros [? ?] | lia].
  - destruct (0 <? Z.of_nat (length (List.filter (detectable R) pdfs)))%Z eqn:Hpos;
      [|discriminate].
    apply Z.ltb_lt in Hpos. intros q [= <-].
    destruct (demo_confidences_bounds R pdfs) as [Hall Hlen].
    rewrite successes_detectable in Hlen.
    pose proof (sum_bounds _ Hall 0%Q) as Hsum. rewrite Hlen in Hsum.
    revert Hsum Hpos.
    generalize (fold_left Qplus (demo_confidences (map (demo_process R) pdfs)) 0%Q).
    generalize (Z.of_nat (length (List.filter (detectable R) pdfs))).
    intros n s Hsum Hpos.
    assert (Hn : (0 < inject_Z n)%Q)
      by (change 0%Q with (inject_Z 0); by rewrite <- Zlt_Qlt).
    split.
    + apply Qle_shift_div_l; [exact Hn|]. lra.
    + apply Qle_shift_div_r; [exact Hn|]. lra.
Qed.

Lemma demo_summary_counts_witness :
  let R := reference_runtime (str "Card Number: XXXX XXXX XXXX 1234") ValueError in
  let pdfs := [(str "statements/hdfc/may.pdf", str "hdfc");
               (str "statements/other/may.pdf", str "other")] in
  let results := map (demo_process R) pdfs in
  let summary := summarize results in
  results = map (fun pdf => demo_process R (pdf.1, [])) pdfs /\
  total_processed summary = Z.of_nat (length pdfs) /\
  successful summary = Z.of_nat (length (List.filter (detectable R) pdfs)) /\
  failed summary
  = Z.of_nat (length (List.filter (fun pdf => negb (detectable R pdf)) pdfs)) /\
  Z.of_nat (length (demo_confidences results)) = successful summary /\
  (is_Some (avg_confidence summary) <-> (0 < successful summary)%Z) /\
  (forall q, avg_confidence summary = Some q -> (0 <= q <= 1)%Q).
Proof.
  intros R pdfs results summary.
  apply (demo_summary_counts R pdfs results summary). reflexivity.
Defined.

(** ** [extract_dates] of onecard.py *)

Lemma lstrip_suffix (R : runtime) (s : pystr) : exists a, s = a ++ lstrip R s.
Proof.
  induction s as [|c s [a IH]]; [by exists []|]. simpl.
  destruct (is_space R c); [|by exists []].
  exists (c :: a). simpl. by rewrite <- IH.
Qed.

(** what [strip] leaves occurs in the text *)
Lemma strip_occurs (R : runtime) (s : pystr) : occurs_in (strip R s) s.
Proof.
  unfold strip. destruct (lstrip_suffix R s) as [a Ha].
  destruct (lstrip_suffix R (rev (lstrip R s))) as [b Hb].
  exists a, (rev b). rewrite Ha at 1. f_equal.
  rewrite <- rev_app_distr, <- Hb. by rewrite rev_involutive.
Qed.

Lemma stripped_group_occurs (R : runtime) (ic : bool) (r : regex) (text : pystr)
    (m : rematch) (n : nat) :
  re_search R ic r text = Some m ->
  contains (strip R (group_text m n)) text = true.
Proof.
  intros H. apply contains_iff.
  eapply occurs_in_trans; [apply strip_occurs|]. by eapply re_search_within.
Qed.

(** X21.  [extract_dates] returns both ends of the billing period or none:
    either [(None, None)], or two texts that each occur in the statement
    text as they are returned.  It never returns one end alone. *)
Theorem extract_dates_both_or_neither (R : runtime) (text : pystr) :
  extract_dates R text = (None, None) \/
  exists start stop,
    extract_dates R text = (Some start, Some stop) /\
    contains start text = true /\ contains stop text = true.
Proof.
  unfold extract_dates.
  destruct (re_search R true (OneCard.range_of OneCard.day_month_year) text)
    as [m|] eqn:H1.
  { right. do 2 eexists. split; [reflexivity|].
    split; by eapply stripped_group_occurs. }
  destruct (re_search R false (OneCard.range_of OneCard.numeric_date) text)
    as [m|] eqn:H2; [|by left].
  right. do 2 eexists. split; [reflexivity|].
  split; by eapply stripped_group_occurs.
Qed.

(** ** [calculate_confidence] is monotone *)

Lemma required_points_step (data : gmap string pyval) (key field : string)
    (v : pyval) :
  dict_get data key = PNone ->
  (required_points data field = 0%Q \/ required_points data field = 1%Q) /\
  (required_points (<[key := v]> data) field = required_points data field \/
   required_points data field = 0%Q /\
   required_points (<[key := v]> data) field = 1%Q).
Proof.
  intros Hnone. split; [apply required_points_values|].
  destruct (decide (field = key)) as [->|Hne].
  - assert (H0 : required_points data key = 0%Q).
    { unfold required_points. rewrite Hnone. by destruct (String.eqb key _). }
    rewrite H0.
    destruct (required_points_values (<[key := v]> data) key) as [->| ->]; auto.
  - left. unfold required_points, dict_get. by rewrite lookup_insert_ne.
Qed.

Lemma is_not_None_step (data : gmap string pyval) (key field : string) (v : pyval) :
  dict_get data key = PNone ->
  is_not_None (dict_get (<[key := v]> data) field) = is_not_None (dict_get data field) \/
  is_not_None (dict_get data field) = false.
Proof.
  intros Hnone. destruct (decide (field = key)) as [->|Hne].
  - right. by rewrite Hnone.
  - left. unfold dict_get. by rewrite lookup_insert_ne.
Qed.

(** X22.  Filling in a field never lowers the score: when a key is missing
    from the dictionary or holds [None], storing any value under it gives a
    confidence at least as high. *)
Theorem calculate_confidence_monotone (data : gmap string pyval) (key : string)
    (v : pyval) :
  dict_get data key = PNone ->
  (calculate_confidence data <= calculate_confidence (<[key := v]> data))%Q.
Proof.
  intros Hnone. unfold calculate_confidence.
  cbn [required_fields optional_fields fold_left length].
  pose proof (required_points_step data key "card_last4" v Hnone) as S1.
  pose proof (required_points_step data key "billing_period" v Hnone) as S2.
  pose proof (required_points_step data key "payment_due_date" v Hnone) as S3.
  pose proof (required_points_step data key "new_balance" v Hnone) as S4.
  pose proof (is_not_None_step data key "minimum_due" v Hnone) as S5.
  revert S1 S2 S3 S4 S5.
  generalize (required_points (<[key := v]> data) "card_last4")
             (required_points data "card_last4")
             (required_points (<[key := v]> data) "billing_period")
             (required_points data "billing_period")
             (required_points (<[key := v]> data) "payment_due_date")
             (required_points data "payment_due_date")
             (required_points (<[key := v]> data) "new_balance")
             (required_points data "new_balance")
             (is_not_None (dict_get (<[key := v]> data) "minimum_due"))
             (is_not_None (dict_get data "minimum_due")).
  clear. intros p1' p1 p2' p2 p3' p3 p4' p4 b' b S1 S2 S3 S4 S5.
  destruct S1 as [[-> | ->] [-> | [E1 ->]]]; try discriminate E1;
  destruct S2 as [[-> | ->] [-> | [E2 ->]]]; try discriminate E2;
  destruct S3 as [[-> | ->] [-> | [E3 ->]]]; try discriminate E3;
  destruct S4 as [[-> | ->] [-> | [E4 ->]]]; try discriminate E4;
  destruct S5 as [-> | ->]; try destruct b; try destruct b';
  vm_compute; discriminate.
Qed.

Lemma calculate_confidence_monotone_witness :
  (calculate_confidence ∅
   <= calculate_confidence (<["card_last4"%string := PStr (str "1234")]> ∅))%Q.
Proof.
  apply (calculate_confidence_monotone ∅ "card_last4" (PStr (str "1234"))).
  reflexivity.
Defined.

(** ** [normalize_currency]: characters [float] does not accept *)

Section FloatAlphabet.
Context (R : runtime).

Lemma digit_alphabet (c d : N) : digit_value R c = Some d -> float_alphabet R c = true.
Proof. intros H. unfold float_alphabet, is_digit. by rewrite H. Qed.

Lemma symbol_alphabet (c : N) :
  c = 43 \/ c = 45 \/ c = 46 \/ c = 95 \/ c = 101 \/ c = 69 ->
  float_alphabet R c = true.
Proof.
  unfold float_alphabet.
  intros [->|[->|[->|[->|[->| ->]]]]]; cbn; by rewrite ?orb_true_r.
Qed.

Lemma digitpart_tail_chars (n : nat) :
  forall s ds r,
    (length s <= n)%nat -> digitpart_tail R s = (ds, r) ->
    exists u, s = u ++ r /\ Forall (fun c => float_alphabet R c = true) u.
Proof.
  induction n as [|n IH]; intros s ds r Hlen H.
  - destruct s; [|simpl in Hlen; lia]. injection H as <- <-. by exists [].
  - destruct s as [|c s']; [injection H as <- <-; by exists []|].
    simpl in Hlen. cbn [digitpart_tail] in H.
    destruct (digit_value R c) as [d|] eqn:Hc.
    + destruct (digitpart_tail R s') as [ds' r'] eqn:Ht. injection H as <- <-.
      destruct (IH s' ds' r' ltac:(lia) Ht) as (u & -> & Hu).
      exists (c :: u). split; [reflexivity|].
      apply Forall_cons_2; [by eapply digit_alphabet | exact Hu].
    + destruct (c =? 95) eqn:Hus; [|injection H as <- <-; by exists []].
      apply N.eqb_eq in Hus as ->.
      destruct s' as [|c2 s'']; [injection H as <- <-; by exists []|].
      simpl in Hlen.
      destruct (digit_value R c2) as [d|] eqn:Hc2;
        [|injection H as <- <-; by exists []].
      destruct (digitpart_tail R s'') as [ds' r'] eqn:Ht. injection H as <- <-.
      destruct (IH s'' ds' r' ltac:(lia) Ht) as (u & -> & Hu).
      exists (95 :: c2 :: u). split; [reflexivity|].
      apply Forall_cons_2; [apply symbol_alphabet; tauto|].
      apply Forall_cons_2; [by eapply digit_alphabet | exact Hu].
Qed.

Lemma digitpart_chars (s : pystr) (ds : list N) (r : pystr) :
  digitpart R s = Some (ds, r) ->
  exists u, s = u ++ r /\ Forall (fun c => float_alphabet R c = true) u.
Proof.
  unfold digitpart. destruct s as [|c s']; [discriminate|].
  destruct (digit_value R c) as [d|] eqn:Hc; [|discriminate].
  destruct (digitpart_tail R s') as [ds' r'] eqn:Ht. intros [= <- <-].
  destruct (digitpart_tail_chars (length s') s' ds' r' ltac:(lia) Ht)
    as (u & -> & Hu).
  exists (c :: u). split; [reflexivity|].
  apply Forall_cons_2; [by eapply digit_alphabet | exact Hu].
Qed.

Lemma digitpart_all_chars (s : pystr) (ds : list N) :
  digitpart R s = Some (ds, []) -> Forall (fun c => float_alphabet R c = true) s.
Proof.
  intros H. apply digitpart_chars in H as (u & -> & Hu). by rewrite app_nil_r.
Qed.

Lemma split_sign_chars (s body : pystr) (negative : bool) :
  split_sign s = (negative, body) ->
  Forall (fun c => float_alphabet R c = true) body ->
  Forall (fun c => float_alphabet R c = true) s.
Proof.
  unfold split_sign. destruct s as [|c s']; [by intros [= <- <-]|].
  destruct (c =? 45) eqn:H45.
  - apply N.eqb_eq in H45 as ->. intros [= <- <-] Hb.
    apply Forall_cons_2; [apply symbol_alphabet; tauto | exact Hb].
  - destruct (c =? 43) eqn:H43.
    + apply N.eqb_eq in H43 as ->. intros [= <- <-] Hb.
      apply Forall_cons_2; [apply symbol_alphabet; tauto | exact Hb].
    + by intros [= <- <-].
Qed.

Lemma parse_exponent_chars (s : pystr) (x : Z) :
  parse_exponent R s = Some x -> Forall (fun c => float_alphabet R c = true) s.
Proof.
  unfold parse_exponent. destruct (split_sign s) as [negative body] eqn:Hs.
  destruct (digitpart R body) as [[ds [|c r]]|] eqn:Hd; try discriminate.
  intros _. eapply split_sign_chars; [exact Hs|]. by eapply digitpart_all_chars.
Qed.

Lemma finish_number_chars (ds : list N) (nfrac : nat) (rest : pystr) (m : magnitude) :
  finish_number R ds nfrac rest = Some m -> Forall (fun c => float_alphabet R c = true) rest.
Proof.
  unfold finish_number. destruct rest as [|c r]; [constructor|].
  destruct ((c =? 101) || (c =? 69)) eqn:He; [|discriminate].
  destruct (parse_exponent R r) as [x|] eqn:Hx; [|discriminate]. intros _.
  apply Forall_cons_2; [|by eapply parse_exponent_chars].
  apply orb_true_iff in He as [He|He]; apply N.eqb_eq in He as ->;
    apply symbol_alphabet; tauto.
Qed.

Lemma parse_number_chars (s : pystr) (m : magnitude) :
  parse_number R s = Some m -> Forall (fun c => float_alphabet R c = true) s.
Proof.
  unfold parse_number.
  destruct (digitpart R s) as [[ip r]|] eqn:Hip.
  - apply digitpart_chars in Hip as (u & -> & Hu).
    intros H. apply Forall_app. split; [exact Hu|].
    destruct r as [|c r']; [constructor|].
    destruct (c =? 46) eqn:Hdot.
    + apply N.eqb_eq in Hdot as ->.
      apply Forall_cons_2; [apply symbol_alphabet; tauto|].
      destruct (digitpart R r') as [[fp r'']|] eqn:Hfp.
      * apply digitpart_chars in Hfp as (u' & -> & Hu').
        apply Forall_app. split; [exact Hu'|]. by eapply finish_number_chars.
      * by eapply finish_number_chars.
    + by eapply finish_number_chars.
  - destruct s as [|c r']; [discriminate|].
    destruct (c =? 46) eqn:Hdot; [|discriminate].
    apply N.eqb_eq in Hdot as ->.
    destruct (digitpart R r') as [[fp r'']|] eqn:Hfp; [|discriminate].
    apply digitpart_chars in Hfp as (u' & -> & Hu'). intros H.
    apply Forall_cons_2; [apply symbol_alphabet; tauto|].
    apply Forall_app. split; [exact Hu'|]. by eapply finish_number_chars.
Qed.

Lemma literal_chars (s : pystr) (word : string) :
  forallb (fun c => existsb (N.eqb c) (str "einfatyn")) (str word) = true ->
  map ascii_lower s = str word -> Forall (fun c => float_alphabet R c = true) s.
Proof.
  intros Hw Hs. rewrite forallb_forall in Hw.
  apply Forall_forall. intros c Hc. apply list_elem_of_In in Hc.
  unfold float_alphabet. apply orb_true_iff. right.
  apply Hw. rewrite <- Hs. by apply in_map.
Qed.

Lemma parse_magnitude_chars (s : pystr) (m : magnitude) :
  parse_magnitude R s = Some m -> Forall (fun c => float_alphabet R c = true) s.
Proof.
  unfold parse_magnitude.
  destruct (bool_decide_reflect (map ascii_lower s = str "inf")) as [H1|_];
    [intros _; by eapply (literal_chars s "inf")|].
  destruct (bool_decide_reflect (map ascii_lower s = str "infinity")) as [H2|_];
    [intros _; by eapply (literal_chars s "infinity")|].
  cbn [orb].
  destruct (bool_decide_reflect (map ascii_lower s = str "nan")) as [H3|_];
    [intros _; by eapply (literal_chars s "nan")|].
  apply parse_number_chars.
Qed.

(** what [float] accepts is, once stripped, written in the float alphabet *)
Lemma py_float_chars (s : pystr) (f : pyfloat) :
  py_float R s = Ok f -> Forall (fun c => float_alphabet R c = true) (strip R s).
Proof.
  unfold py_float. destruct (split_sign (strip R s)) as [negative body] eqn:Hs.
  destruct (parse_magnitude R body) as [m|] eqn:Hm; [|discriminate].
  intros _. eapply split_sign_chars; [exact Hs|]. by eapply parse_magnitude_chars.
Qed.

Lemma strip_no_blanks (s : pystr) :
  Forall (fun c => is_space R c = false) s -> strip R s = s.
Proof.
  intros H. apply strip_unchanged.
  - destruct s as [|c s']; [done|]. by apply Forall_cons in H as [H _].
  - apply Forall_rev in H. destruct (rev s) as [|c s']; [done|].
    by apply Forall_cons in H as [H _].
Qed.

Lemma cleaned_no_blanks (s : pystr) :
  Forall (fun c => is_space R c = false)
    (re_sub_delete R false currency_symbols s).
Proof.
  apply Forall_forall. intros c Hc. apply list_elem_of_In in Hc.
  unfold re_sub_delete in Hc. apply List.filter_In in Hc as [_ Hc].
  apply negb_true_iff in Hc. rewrite cset_in_currency_symbols in Hc.
  repeat (apply orb_false_iff in Hc as [_ Hc]). exact Hc.
Qed.

End FloatAlphabet.

(** X23.  [normalize_currency] gives [None] for every string that holds a
    character which is neither deleted (a currency sign among the four, a
    comma, whitespace) nor part of what [float] reads (a decimal digit, a
    sign, the point, the underscore, a letter of e, inf, infinity, nan): a
    currency code, a CR or Dr mark, or a currency sign spoilt by a wrong
    encoding, as in the first assertion of the suite's currency test. *)
Theorem normalize_currency_rejects_foreign (R : runtime) (s : pystr) (c : N) :
  In c s ->
  cset_in R false currency_symbols c = false ->
  float_alphabet R c = false ->
  normalize_currency R (ArgStr s) = Ok None.
Proof.
  intros Hin Hsym Halpha.
  assert (Hc : In c (re_sub_delete R false currency_symbols s)).
  { unfold re_sub_delete. apply List.filter_In. split; [exact Hin|]. by rewrite Hsym. }
  destruct (py_float R (re_sub_delete R false currency_symbols s)) as [f|e] eqn:Hf.
  - exfalso. apply py_float_chars in Hf.
    rewrite (strip_no_blanks R _ (cleaned_no_blanks R s)) in Hf.
    apply list_elem_of_In in Hc.
    pose proof (proj1 (Forall_forall _ _) Hf c Hc) as Hcontra. simpl in Hcontra.
    congruence.
  - by apply (proj2 (proj2 (normalize_currency_none R)) s e).
Qed.

Lemma normalize_currency_rejects_foreign_witness :
  normalize_currency (reference_runtime [] ValueError)
    (ArgStr (226 :: 8218 :: 185 :: str "1,234.56")) = Ok None.
Proof.
  apply (normalize_currency_rejects_foreign (reference_runtime [] ValueError)
           (226 :: 8218 :: 185 :: str "1,234.56") 226).
  - left. reflexivity.
  - reflexivity.
  - reflexivity.
Defined.

(** ** From a parser's result to its CSV row *)

Lemma parser_issuer_field (R : runtime) (i : issuer) (path : pystr)
    (d : gmap string pyval) :
  issuer_parser R i path = Ok d ->
  d !! "issuer"%string = Some (PStr (str (issuer_name i))).
Proof.
  destruct (parser_provenance R i path)
    as [H|(t & l & s & e & u & m & n & _ & _ & _ & _ & _ & H)];
    rewrite H; intros [= <-].
  - reflexivity.
  - by destruct (with_confidence_fields (issuer_name i) l s e u m n) as (H1 & _).
Qed.

(** X24.  The row [append_to_csv] writes for the result of a parser holds
    the eight values of that result and no filler: the issuer, card_last4,
    the start and the end of the billing period, payment_due_date,
    new_balance, minimum_due and confidence, in this order (new_balance
    before minimum_due).  A field that was not extracted is written as
    [None]; the defaults of the [get] calls are never used. *)
Theorem csv_row_of_parser_result (R : runtime) (i : issuer) (path : pystr) :
  exists d name last4 start stop due newbal mindue confidence,
    issuer_parser R i path = Ok d /\
    writerow fieldnames (csv_row d)
    = Ok [name; last4; start; stop; due; newbal; mindue; confidence] /\
    d !! "issuer"%string = Some name /\
    d !! "card_last4"%string = Some last4 /\
    period_get d "start" = Some start /\
    period_get d "end" = Some stop /\
    d !! "payment_due_date"%string = Some due /\
    d !! "new_balance"%string = Some newbal /\
    d !! "minimum_due"%string = Some mindue /\
    d !! "confidence"%string = Some confidence.
Proof.
  destruct (parser_result_fields R i path)
    as (d & l & s & e & u & m & n & Hd & F & [Hstored _] & _).
  destruct F as (F1 & F2 & F3 & F4 & F5 & F6).
  pose proof (parser_issuer_field R i path d Hd) as F0.
  exists d, (PStr (str (issuer_name i))), (opt_str l), (opt_str s), (opt_str e),
    (opt_str u), (opt_float n), (opt_float m),
    (PFloat (Fin (calculate_confidence d))).
  split; [exact Hd|].
  split; [|repeat split; assumption].
  rewrite csv_row_accepted. unfold csv_cells, period_cell, dict_get_default, dict_get.
  unfold period_get in F2, F3.
  destruct (d !! "billing_period"%string) as [[| | |period]|]; try discriminate.
  rewrite F0, F1, F4, F5, F6, Hstored. cbn [default from_option id].
  by rewrite F2, F3.
Qed.


(** ** Where an exception inside a parser comes from *)












